(** * The flip-book reader: sizing, zoom, navigation and the render scheduler

    A shallow embedding of the two reader components of the repository,
    [EbookFlipbook] (desktop, two-page spread on wide containers) and
    [EbookFlipbookMobile] (always one page), and the properties their
    specification states about them.

    JavaScript numbers are IEEE 754 binary64 values: they are modelled by
    Rocq's primitive floats, so every arithmetic step rounds as it does in the
    browser.  Page numbers and page indexes, which the code only ever
    increments, decrements and clamps, are modelled by [Z].

    The file has two parts: the embedding (modules [Math], [Num], [Viewport],
    [Zoom], [Nav], [Scheduler], then [Label], [Controls], [Touch], [AutoFlip],
    [Pan] and [Loader] for the control bar, the gestures and the loading of
    the document), then the theorems. *)

From Stdlib Require Import ZArith List Sorted Lia Bool String Ascii Floats DecimalString.
From stdpp Require Import base option list.
Import ListNotations.

Set Warnings "-inexact-float".
#[local] Open Scope Z_scope.

(* ===================================================================== *)
(** * Part I: the embedding                                               *)
(* ===================================================================== *)

(** ** Host numerics *)

(** The exact value of a finite float as a fraction [num / den], [den] a
    power of two; [None] for NaN and the infinities. *)
Definition exact (x : float) : option (Z * Z) :=
  match Prim2SF x with
  | S754_zero _ => Some (0, 1)
  | S754_finite s m e =>
      let n := if s then Z.neg m else Z.pos m in
      if 0 <=? e then Some (n * 2 ^ e, 1) else Some (n, 2 ^ (- e))
  | _ => None
  end.

(** An integer as a float (exact below 2^53). *)
Definition float_of_Z (z : Z) : float :=
  match z with
  | Z0 => 0%float
  | Zpos _ => of_uint63 (Uint63.of_Z z)
  | Zneg p => (- of_uint63 (Uint63.of_Z (Zpos p)))%float
  end.

Module Math.

(** [Math.max(a, b)]: NaN if either is NaN, and [+0] is larger than [-0]. *)
Definition max (a b : float) : float :=
  if is_nan a || is_nan b then nan
  else if (a <? b)%float then b
  else if (b <? a)%float then a
  else if get_sign a then b else a.

(** [Math.min(a, b)]: NaN if either is NaN, and [-0] is smaller than [+0]. *)
Definition min (a b : float) : float :=
  if is_nan a || is_nan b then nan
  else if (a <? b)%float then a
  else if (b <? a)%float then b
  else if get_sign a then a else b.

(** [Math.floor(x)]: the largest integral value not above [x]. *)
Definition floor (x : float) : float :=
  match exact x with
  | Some (n, d) =>
      if d =? 1 then x
      else let q := n / d in if q =? 0 then 0%float else float_of_Z q
  | None => x
  end.

(** [Math.round(x)]: the integral value closest to [x], a tie going to the
    one closer to plus infinity; a result of zero keeps the sign of [x]. *)
Definition round (x : float) : float :=
  match exact x with
  | Some (n, d) =>
      if d =? 1 then x
      else
        let q := (2 * n + d) / (2 * d) in
        if q =? 0 then (if n <? 0 then neg_zero else zero) else float_of_Z q
  | None => x
  end.

End Math.

Module Num.

Definition digits (z : Z) : string := NilZero.string_of_int (Z.to_int z).

(** [String(x)] for a value [x] that [Math.round] returned: an integral
    value, NaN or an infinity.  Integral values print with all their
    digits, which is what JavaScript prints up to 2^53. *)
Definition toString (x : float) : string :=
  match exact x with
  | Some (n, d) => digits (n / d)
  | None =>
      if is_nan x then "NaN"%string
      else if (x <? 0)%float then "-Infinity"%string else "Infinity"%string
  end.

(** [x.toFixed(2)]: the integer [n] closest to [|x| * 100], the larger one
    on a tie, printed with two decimals, after a minus sign when [x < 0].
    (Values from 1e21 on print as [String(x)]; they are printed here with
    their digits.) *)
Definition toFixed2 (x : float) : string :=
  match exact x with
  | Some (n, d) =>
      let a := Z.abs n in
      let k := (200 * a + d) / (2 * d) in
      let frac := k mod 100 in
      ((if (n <? 0)%Z then "-" else EmptyString) ++ digits (k / 100)%Z ++ "." ++
       (if (frac <? 10)%Z then "0" else EmptyString) ++ digits frac)%string
  | None =>
      if is_nan x then "NaN"%string
      else if (x <? 0)%float then "-Infinity"%string else "Infinity"%string
  end.

(** [!x] on a number: zero and NaN are falsy. *)
Definition falsy (x : float) : bool := is_zero x || is_nan x.

End Num.

(** A page box [{ w, h }] in CSS pixels. *)
Record Size : Set := mkSize { w : float; h : float }.

(** ** Viewport sizing: [targetPageSize] *)

Module Viewport.

Section PageBox.
(** The constants of the two components. *)
Variables (padX padY controlsH : float).

(** The body of the [targetPageSize] memo; [narrow] says whether one page
    (rather than a two-page spread) has to fit the available width. *)
Definition pageBox (narrow : bool) (containerWidth containerHeight : float)
    (pageRatio : option float) (viewZoom : float) : option Size :=
  match pageRatio with
  | None => None
  | Some pageRatio =>
      if Num.falsy pageRatio then None
      else
        let availableW := Math.max 0 (containerWidth - padX * 2) in
        let availableH := Math.max 0 (containerHeight - controlsH - padY * 2) in
        if (availableW <=? 0)%float || (availableH <=? 0)%float then None
        else
          let maxWByWidth := if narrow then availableW else (availableW / 2)%float in
          let maxWByHeight :=
            if (0 <? pageRatio)%float then (availableH / pageRatio)%float else maxWByWidth in
          let baseW := Math.max 0 (Math.min maxWByWidth maxWByHeight) in
          let w := (baseW * viewZoom)%float in
          let h := (w * pageRatio)%float in
          Some (mkSize w h)
  end.
End PageBox.

(** The [sizeKey] memo, part of the [key] of the flip-book widget. *)
Definition sizeKey (pageSize : option Size) : option string :=
  match pageSize with
  | None => None
  | Some s =>
      Some (Num.toString (Math.round (w s)) ++ "x" ++ Num.toString (Math.round (h s)))%string
  end.

Module Desktop.
Definition controlsH : float := 84.
Definition padX : float := 24.
Definition padY : float := 16.
Definition isNarrow (containerWidth : float) : bool :=
  (0 <? containerWidth)%float && (containerWidth <? 768)%float.
Definition targetPageSize (containerWidth containerHeight : float)
    (pageRatio : option float) (viewZoom : float) : option Size :=
  pageBox padX padY controlsH (isNarrow containerWidth)
    containerWidth containerHeight pageRatio viewZoom.
(** The [key] of [HTMLFlipBook]: when it changes, React replaces the
    widget and with it every canvas. *)
Definition flipbookKey (pageSize : option Size) (isNarrow : bool) : string :=
  (default "no-size" (sizeKey pageSize) ++ "-" ++
   (if isNarrow then "single" else "spread"))%string.
End Desktop.

Module Mobile.
Definition controlsH : float := 60.
Definition padX : float := 8.
Definition padY : float := 8.
Definition targetPageSize (containerWidth containerHeight : float)
    (pageRatio : option float) (viewZoom : float) : option Size :=
  pageBox padX padY controlsH true
    containerWidth containerHeight pageRatio viewZoom.
Definition flipbookKey (pageSize : option Size) (viewZoom : float) : string :=
  (default "no-size" (sizeKey pageSize) ++ "-mobile-" ++ Num.toFixed2 viewZoom)%string.
End Mobile.

End Viewport.

(** ** Zoom controls *)

Module Zoom.

(** [useState(1.0)] *)
Definition initial : float := 1.0.

Definition onZoomOut (z : float) : float :=
  Math.max 0.7 (Math.round ((z - 0.1) * 10) / 10).

Definition onZoomIn (z : float) : float :=
  Math.min 2.5 (Math.round ((z + 0.1) * 10) / 10).

Definition canZoomOut (viewZoom : float) : bool := (0.7 <? viewZoom)%float.
Definition canZoomIn (viewZoom : float) : bool := (viewZoom <? 2.5)%float.

Inductive Op : Set := ZoomIn | ZoomOut.

Definition apply (z : float) (op : Op) : float :=
  match op with ZoomIn => onZoomIn z | ZoomOut => onZoomOut z end.

(** The zoom factor after a sequence of clicks on the two buttons. *)
Definition after (ops : list Op) : float := fold_left apply ops initial.

(** The tenths the zoom factor moves on: [level k] is [k / 10]. *)
Definition level (k : Z) : float := (float_of_Z k / 10)%float.

End Zoom.

(** ** Navigation *)

Module Nav.

Inductive Dir : Set := prev | next.

(** What a handler asks of its collaborators, in call order. *)
Inductive Call : Set :=
| TurnToPage (target : Z)   (* api.turnToPage(target) *)
| FlipNext                  (* pageFlip().flipNext() *)
| FlipPrev                  (* pageFlip().flipPrev() *)
| SyncAfterFlip             (* syncAfterFlip() *)
| ScheduleRender.           (* scheduleRenderRef.current?.() *)

(** The page-flip widget behind [flipbookRef.current.pageFlip()]: the index
    [getCurrentPageIndex()] reports, [None] when it is not a finite number.
    [turnToPage] shows the page at once, without animation. *)
Record PageFlip : Set := { getCurrentPageIndex : option Z }.

Definition turnToPage (target : Z) (api : PageFlip) : PageFlip :=
  {| getCurrentPageIndex := Some target |}.

Record State : Set := {
  flipbookRef : option PageFlip;
  lastNavAtRef : float;
  pageIndexRef : Z;
  calls : list Call
}.

Module Mobile.

(** [navTo(dir)], with [now] the reading of [performance.now()]. *)
Definition navTo (numPages : Z) (dir : Dir) (now : float) (st : State) : State :=
  match flipbookRef st with
  | None => st
  | Some api =>
      if (now - lastNavAtRef st <? 240)%float then st
      else
        let curIdx :=
          match getCurrentPageIndex api with
          | Some current => current
          | None => pageIndexRef st
          end in
        let targetRaw := match dir with next => curIdx + 1 | prev => curIdx - 1 end in
        let target := Z.max 0 (Z.min (Z.max 0 (numPages - 1)) targetRaw) in
        if target =? curIdx then
          {| flipbookRef := flipbookRef st; lastNavAtRef := now;
             pageIndexRef := pageIndexRef st; calls := calls st |}
        else
          {| flipbookRef := Some (turnToPage target api); lastNavAtRef := now;
             pageIndexRef := pageIndexRef st;
             calls := calls st ++ [TurnToPage target; SyncAfterFlip; ScheduleRender] |}
  end.

Definition flipPrev (numPages : Z) := navTo numPages prev.
Definition flipNext (numPages : Z) := navTo numPages next.

End Mobile.

Module Desktop.

(** The [onClick] handlers of the two buttons:
    [flipbookRef.current?.pageFlip().flipPrev()] and [...flipNext()].
    They read no clock; [now] is only there to place a click in time. *)
Definition onClick (dir : Dir) (now : float) (st : State) : State :=
  match flipbookRef st with
  | None => st
  | Some _ =>
      {| flipbookRef := flipbookRef st; lastNavAtRef := lastNavAtRef st;
         pageIndexRef := pageIndexRef st;
         calls := calls st ++ [match dir with next => FlipNext | prev => FlipPrev end] |}
  end.

End Desktop.

(** How many page turns a handler issued to the widget. *)
Definition turns (st : State) : nat :=
  length (List.filter
            (fun c => match c with TurnToPage _ | FlipNext | FlipPrev => true | _ => false end)
            (calls st)).

End Nav.

(** ** The render scheduler *)

Module Scheduler.

(** The two components share the render effect; they differ in the window
    of pages a pass wants and in how often a pass reports its progress. *)
Inductive Variant : Set := Desktop | Mobile.

Definition PassId := nat.
Definition WindowId := nat.
Definition TaskId := nat.
Definition CanvasId := nat.
Bind Scope nat_scope with PassId WindowId TaskId CanvasId.

(** [Set<number>]: insertion ordered, without duplicates. *)
Module PageSet.
Definition has (p : Z) (s : list Z) : bool := existsb (Z.eqb p) s.
Definition add (p : Z) (s : list Z) : list Z := if has p s then s else s ++ [p].
Definition delete (p : Z) (s : list Z) : list Z := List.filter (fun q => negb (q =? p)) s.
Definition size (s : list Z) : Z := Z.of_nat (length s).
End PageSet.

(** [array[i] = x]: an index past the end extends the array with holes. *)
Definition assign {A} (i : nat) (x : option A) (l : list (option A)) : list (option A) :=
  if (i <? length l)%nat then <[i := x]> l
  else l ++ replicate (i - length l) None ++ [x].

(** *** The drawing surfaces *)

(** What a canvas shows: nothing, a raster of a page under a generation key
    that is still being painted (or was abandoned half-way), or the finished
    raster. *)
Inductive Pixels : Set :=
| Blank
| Painting (pageNo : Z) (key : string)
| Raster (pageNo : Z) (key : string).

Record Canvas : Set := mkCanvas {
  width : float;                    (* canvas.width *)
  height : float;                   (* canvas.height *)
  styleWidth : option float;        (* canvas.style.width, the number before "px" *)
  styleHeight : option float;       (* canvas.style.height *)
  datasetSizeKey : option string;   (* canvas.dataset.sizeKey *)
  context2d : bool;                 (* whether getContext('2d') yields a context *)
  pixels : Pixels
}.

(** A canvas element as the widget creates it. *)
Definition newCanvas (ctx : bool) : Canvas := mkCanvas 300 150 None None None ctx Blank.

(** *** The document and its raster tasks *)

(** A page handle: its box at scale 1. *)
Record PdfPage : Set := { viewport1 : Size }.

(** [page.getViewport({ scale })] *)
Definition getViewport (page : PdfPage) (scale : float) : Size :=
  mkSize (w (viewport1 page) * scale) (h (viewport1 page) * scale).

Record JsError : Set := { name : string; message : string }.

(** [msg.includes(needle)] *)
Fixpoint includes (needle msg : string) : bool :=
  String.prefix needle msg ||
  match msg with
  | EmptyString => false
  | String _ rest => includes needle rest
  end.

(** The test of the [catch] block of [renderOne]. *)
Definition benign (e : JsError) : bool :=
  String.eqb (name e) "RenderingCancelledException" ||
  includes "Rendering cancelled" (message e).

(** The exception a cancelled raster task rejects with. *)
Definition cancelledException : JsError :=
  {| name := "RenderingCancelledException"; message := "Rendering cancelled" |}.

(** A raster task [{ promise, cancel }]: [cancel()] on a running task makes
    its promise reject with [cancelledException]. *)
Inductive TaskState : Set := Running | Cancelled | Settled.

Definition cancel (t : TaskState) : TaskState :=
  match t with Running => Cancelled | _ => t end.

(** *** One run of the render effect: the variables its closures share *)

Record Pass : Set := {
  numPages : Z;
  size : Size;
  viewZoom : float;
  isNarrow : bool;
  loopId : Z;
  currentSizeKey : string;
  cancelled : bool;
  renderTasks : list (option TaskId)
}.

(** *** One call of [renderWindow], suspended at an [await] *)

Inductive Point : Set :=
| InFrame (pageNo : Z) (i : nat)
    (* renderOne > waitForCanvas: iteration [i] awaits the next animation frame *)
| GotCanvas (pageNo : Z) (canvas : option CanvasId)
    (* renderOne: [await waitForCanvas(pageNo - 1)] resumes with [canvas] *)
| InGetPage (pageNo : Z) (canvas : CanvasId)
    (* renderOne: [await pdfDoc.getPage(pageNo)] *)
| InTask (pageNo : Z) (canvas : CanvasId) (task : TaskId)
    (* renderOne: [await task.promise] *)
| Returned (pageNo : Z)
    (* renderWindow: [await renderOne(pageNo)] resumes *)
| Done
    (* renderWindow returned *)
| Thrown (e : JsError).
    (* renderOne threw, and renderWindow with it *)

Record Window : Set := {
  pass : PassId;
  currentPageNo : Z;
  rest : list Z;        (* the pages of [want] the loop has not reached yet *)
  point : Point;
  startedAt : Z
}.

Inductive Status : Set :=
| Idle
| Loading
| Rendering (rendered total : Z)
| Ready
| Error (message : string).

(** A pending [window.setTimeout(() => void renderWindow(), 160)]. *)
Record Timer : Set := { timerId : nat; deadline : Z; owner : PassId }.

(** *** The state *)

(** The page cache: [renderedPagesRef], [inflightPagesRef], [lastSizeKeyRef]. *)
Record Cache : Set := {
  renderedPages : list Z;
  inflightPages : list Z;
  lastSizeKey : option string
}.

(** [canvasRefs] and the canvas elements it points to. *)
Record Dom : Set := {
  canvasRefs : list (option CanvasId);
  canvases : list Canvas
}.

(** The browser: a clock in milliseconds, the pending timers, the raster
    tasks, the console. *)
Record Host : Set := {
  clock : Z;
  timers : list Timer;
  nextTimerId : nat;
  tasks : list TaskState;
  console : list (Z * JsError)
}.

(** The rest of the component. *)
Record Comp : Set := {
  renderLoopId : Z;                 (* renderLoopIdRef *)
  scheduleTimer : option nat;       (* scheduleTimerRef *)
  scheduleRender : option PassId;   (* scheduleRenderRef: the pass whose [schedule] it holds *)
  pageIndexRef : Z;
  status : Status;
  liveEffect : option PassId;       (* the effect run whose cleanup is due *)
  passes : list Pass;
  windows : list Window
}.

Record State : Set := { cache : Cache; dom : Dom; host : Host; comp : Comp }.

Definition withCache (f : Cache -> Cache) (s : State) : State :=
  {| cache := f (cache s); dom := dom s; host := host s; comp := comp s |}.
Definition withDom (f : Dom -> Dom) (s : State) : State :=
  {| cache := cache s; dom := f (dom s); host := host s; comp := comp s |}.
Definition withHost (f : Host -> Host) (s : State) : State :=
  {| cache := cache s; dom := dom s; host := f (host s); comp := comp s |}.
Definition withComp (f : Comp -> Comp) (s : State) : State :=
  {| cache := cache s; dom := dom s; host := host s; comp := f (comp s) |}.

Definition setRendered (r : list Z) : State -> State :=
  withCache (fun c => {| renderedPages := r; inflightPages := inflightPages c;
                         lastSizeKey := lastSizeKey c |}).
Definition setInflight (i : list Z) : State -> State :=
  withCache (fun c => {| renderedPages := renderedPages c; inflightPages := i;
                         lastSizeKey := lastSizeKey c |}).
Definition setCanvasRefs (r : list (option CanvasId)) : State -> State :=
  withDom (fun d => {| canvasRefs := r; canvases := canvases d |}).
Definition setCanvases (cs : list Canvas) : State -> State :=
  withDom (fun d => {| canvasRefs := canvasRefs d; canvases := cs |}).
Definition setClock (t : Z) : State -> State :=
  withHost (fun x => {| clock := t; timers := timers x; nextTimerId := nextTimerId x;
                        tasks := tasks x; console := console x |}).
Definition setTimers (ts : list Timer) (next : nat) : State -> State :=
  withHost (fun x => {| clock := clock x; timers := ts; nextTimerId := next;
                        tasks := tasks x; console := console x |}).
Definition setTasks (ts : list TaskState) : State -> State :=
  withHost (fun x => {| clock := clock x; timers := timers x; nextTimerId := nextTimerId x;
                        tasks := ts; console := console x |}).
Definition consoleError (pageNo : Z) (e : JsError) : State -> State :=
  withHost (fun x => {| clock := clock x; timers := timers x; nextTimerId := nextTimerId x;
                        tasks := tasks x; console := console x ++ [(pageNo, e)] |}).
Definition setRenderLoopId (n : Z) : State -> State :=
  withComp (fun c => {| renderLoopId := n; scheduleTimer := scheduleTimer c;
                        scheduleRender := scheduleRender c; pageIndexRef := pageIndexRef c;
                        status := status c; liveEffect := liveEffect c;
                        passes := passes c; windows := windows c |}).
Definition setScheduleTimer (t : option nat) : State -> State :=
  withComp (fun c => {| renderLoopId := renderLoopId c; scheduleTimer := t;
                        scheduleRender := scheduleRender c; pageIndexRef := pageIndexRef c;
                        status := status c; liveEffect := liveEffect c;
                        passes := passes c; windows := windows c |}).
Definition setScheduleRender (p : option PassId) : State -> State :=
  withComp (fun c => {| renderLoopId := renderLoopId c; scheduleTimer := scheduleTimer c;
                        scheduleRender := p; pageIndexRef := pageIndexRef c;
                        status := status c; liveEffect := liveEffect c;
                        passes := passes c; windows := windows c |}).
Definition setPageIndexRef (i : Z) : State -> State :=
  withComp (fun c => {| renderLoopId := renderLoopId c; scheduleTimer := scheduleTimer c;
                        scheduleRender := scheduleRender c; pageIndexRef := i;
                        status := status c; liveEffect := liveEffect c;
                        passes := passes c; windows := windows c |}).
Definition setStatus (st : Status) : State -> State :=
  withComp (fun c => {| renderLoopId := renderLoopId c; scheduleTimer := scheduleTimer c;
                        scheduleRender := scheduleRender c; pageIndexRef := pageIndexRef c;
                        status := st; liveEffect := liveEffect c;
                        passes := passes c; windows := windows c |}).
Definition setLiveEffect (p : option PassId) : State -> State :=
  withComp (fun c => {| renderLoopId := renderLoopId c; scheduleTimer := scheduleTimer c;
                        scheduleRender := scheduleRender c; pageIndexRef := pageIndexRef c;
                        status := status c; liveEffect := p;
                        passes := passes c; windows := windows c |}).
Definition setPasses (ps : list Pass) : State -> State :=
  withComp (fun c => {| renderLoopId := renderLoopId c; scheduleTimer := scheduleTimer c;
                        scheduleRender := scheduleRender c; pageIndexRef := pageIndexRef c;
                        status := status c; liveEffect := liveEffect c;
                        passes := ps; windows := windows c |}).
Definition setWindows (ws : list Window) : State -> State :=
  withComp (fun c => {| renderLoopId := renderLoopId c; scheduleTimer := scheduleTimer c;
                        scheduleRender := scheduleRender c; pageIndexRef := pageIndexRef c;
                        status := status c; liveEffect := liveEffect c;
                        passes := passes c; windows := ws |}).

Definition rendered (s : State) : list Z := renderedPages (cache s).
Definition inflight (s : State) : list Z := inflightPages (cache s).

(** The component before its first effect run. *)
Definition initial : State :=
  {| cache := {| renderedPages := []; inflightPages := []; lastSizeKey := None |};
     dom := {| canvasRefs := []; canvases := [] |};
     host := {| clock := 0; timers := []; nextTimerId := 1; tasks := []; console := [] |};
     comp := {| renderLoopId := 0; scheduleTimer := None; scheduleRender := None;
                pageIndexRef := 0; status := Idle; liveEffect := None;
                passes := []; windows := [] |} |}.

(** *** The window of pages a pass wants *)

(** [for (let p = start; p <= end; p++) want.add(p)] *)
Definition range (start stop : Z) : list Z :=
  map (fun k => start + Z.of_nat k) (seq 0 (Z.to_nat (stop - start + 1))).

(** How far the window reaches back and ahead of the current page; the
    mobile component always uses the one-page figures. *)
Definition behind (variant : Variant) (isNarrow : bool) : Z :=
  match variant with Mobile => 2 | Desktop => if isNarrow then 2 else 4 end.
Definition ahead (variant : Variant) (isNarrow : bool) : Z :=
  match variant with Mobile => 4 | Desktop => if isNarrow then 4 else 10 end.

(** The [want] set of [renderWindow], in iteration order. *)
Definition want (variant : Variant) (isNarrow : bool) (numPages pageIndex : Z) : list Z :=
  let current := Z.max 0 (Z.min (numPages - 1) pageIndex) in
  let currentPageNo := current + 1 in
  let start := Z.max 1 (currentPageNo - behind variant isNarrow) in
  let stop := Z.min numPages (currentPageNo + ahead variant isNarrow) in
  range start stop.

(** [currentSizeKey]: the generation key of an effect run. *)
Definition sizeKeyOf (size : Size) (viewZoom : float) : string :=
  (Num.toString (Math.round (w size)) ++ "x" ++ Num.toString (Math.round (h size))
     ++ "@" ++ Num.toFixed2 viewZoom)%string.

Definition sameError (a b : JsError) : bool :=
  String.eqb (name a) (name b) && String.eqb (message a) (message b).

Definition sameKey (a : option string) (b : string) : bool :=
  match a with Some a => String.eqb a b | None => false end.

(** *** The operations of the component *)

Section Component.

Variable variant : Variant.
(** [window.devicePixelRatio] *)
Variable devicePixelRatio : float.

Definition maxFrames : nat := 180.

(** The resolution policy of [renderOne]. *)
Definition dpr (viewZoom : float) : float :=
  let baseDpr := Math.max 1 (if Num.falsy devicePixelRatio then 1 else devicePixelRatio) in
  Math.min 3 (baseDpr * Math.min 1.6 viewZoom).

(** **** Host timers (their ids are positive, hence truthy) *)

Definition clearTimeout (id : nat) (s : State) : State :=
  setTimers (List.filter (fun t => negb (timerId t =? id)%nat) (timers (host s)))
            (nextTimerId (host s)) s.

Definition setTimeout (pid : PassId) (delay : Z) (s : State) : nat * State :=
  let id := nextTimerId (host s) in
  (id, setTimers (timers (host s) ++
                    [{| timerId := id; deadline := clock (host s) + delay; owner := pid |}])
                 (S id) s).

(** [if (scheduleTimerRef.current) window.clearTimeout(scheduleTimerRef.current)] *)
Definition clearScheduleTimer (s : State) : State :=
  match scheduleTimer (comp s) with
  | Some id => clearTimeout id s
  | None => s
  end.

(** **** [schedule] *)

Definition schedule (pid : PassId) (s : State) : State :=
  match passes (comp s) !! pid with
  | Some ps =>
      if cancelled ps then s
      else
        let s1 := clearScheduleTimer s in
        let '(id, s2) := setTimeout pid 160 s1 in
        setScheduleTimer (Some id) s2
  | None => s
  end.

(** [scheduleRenderRef.current?.()] *)
Definition requestRender (s : State) : State :=
  match scheduleRender (comp s) with
  | Some pid => schedule pid s
  | None => s
  end.

(** **** The render effect *)

Definition setCancelled (ps : Pass) : Pass :=
  {| numPages := numPages ps; size := size ps; viewZoom := viewZoom ps;
     isNarrow := isNarrow ps; loopId := loopId ps; currentSizeKey := currentSizeKey ps;
     cancelled := true; renderTasks := renderTasks ps |}.

Definition setRenderTasks (ts : list (option TaskId)) (ps : Pass) : Pass :=
  {| numPages := numPages ps; size := size ps; viewZoom := viewZoom ps;
     isNarrow := isNarrow ps; loopId := loopId ps; currentSizeKey := currentSizeKey ps;
     cancelled := cancelled ps; renderTasks := ts |}.

(** [for (const t of renderTasks) t?.cancel?.()] *)
Definition cancelAll (ts : list (option TaskId)) (tasks : list TaskState) : list TaskState :=
  fold_left (fun acc t => match t with Some t => alter cancel t acc | None => acc end) ts tasks.

(** The cleanup function the effect returns. *)
Definition cleanup (pid : PassId) (s : State) : State :=
  match passes (comp s) !! pid with
  | Some ps =>
      let s1 := setPasses (<[pid := setCancelled ps]> (passes (comp s))) s in
      let s2 := setScheduleRender None s1 in
      let s3 := clearScheduleTimer s2 in
      setTasks (cancelAll (renderTasks ps) (tasks (host s3))) s3
  | None => s
  end.

(** [c.dataset.sizeKey = currentSizeKey; ctx.clearRect(0, 0, c.width, c.height)] *)
Definition blank (key : string) (c : Canvas) : Canvas :=
  mkCanvas (width c) (height c) (styleWidth c) (styleHeight c) (Some key) (context2d c)
           (if context2d c then Blank else pixels c).

Definition blankAll (key : string) (refs : list (option CanvasId)) (cs : list Canvas)
    : list Canvas :=
  fold_left (fun acc r => match r with Some c => alter (blank key) c acc | None => acc end)
            refs cs.

(** The generation changeover at the head of the effect. *)
Definition changeover (key : string) (s : State) : State :=
  if sameKey (lastSizeKey (cache s)) key then s
  else
    let s1 := withCache (fun _ => {| renderedPages := []; inflightPages := [];
                                     lastSizeKey := Some key |}) s in
    setCanvases (blankAll key (canvasRefs (dom s1)) (canvases (dom s1))) s1.

Definition effectBody (numPages : Z) (size : Size) (viewZoom : float) (isNarrow : bool)
    (s : State) : State :=
  let loopId := renderLoopId (comp s) + 1 in
  let s1 := setRenderLoopId loopId s in
  let key := sizeKeyOf size viewZoom in
  let pid := length (passes (comp s1)) in
  let ps := {| numPages := numPages; size := size; viewZoom := viewZoom;
               isNarrow := isNarrow; loopId := loopId; currentSizeKey := key;
               cancelled := false;
               renderTasks := replicate (Z.to_nat numPages) None |} in
  let s2 := setPasses (passes (comp s1) ++ [ps]) s1 in
  let s3 := changeover key s2 in
  let s4 := setScheduleRender (Some pid) s3 in
  let s5 := schedule pid s4 in
  setLiveEffect (Some pid) s5.

(** React re-runs the effect: the cleanup of the previous run, then the
    body with the current [doc], [pageSize], [numPages], [viewZoom] (and
    [isNarrow]). *)
Definition runEffect (doc : bool) (pageSize : option Size) (numPages : Z)
    (viewZoom : float) (isNarrow : bool) (s : State) : State :=
  let s1 := match liveEffect (comp s) with Some old => cleanup old s | None => s end in
  match doc, pageSize with
  | true, Some size =>
      if numPages <=? 0 then setLiveEffect None s1
      else effectBody numPages size viewZoom isNarrow s1
  | _, _ => setLiveEffect None s1
  end.

(** **** [waitForCanvas] and [renderOne] *)

(** Iteration [i] of the loop of [waitForCanvas(pageNo - 1)]. *)
Definition waitForCanvas (ps : Pass) (pageNo : Z) (i : nat) (s : State) : Point :=
  if (i <? maxFrames)%nat then
    if cancelled ps then GotCanvas pageNo None
    else if negb (renderLoopId (comp s) =? loopId ps) then GotCanvas pageNo None
    else
      match canvasRefs (dom s) !! Z.to_nat (pageNo - 1) with
      | Some (Some c) => GotCanvas pageNo (Some c)
      | _ => InFrame pageNo i
      end
  else GotCanvas pageNo None.

(** [renderOne(pageNo)] up to its first [await]. *)
Definition renderOne (pid : PassId) (pageNo : Z) (s : State) : State * Point :=
  match passes (comp s) !! pid with
  | None => (s, Returned pageNo)
  | Some ps =>
      if cancelled ps then (s, Returned pageNo)
      else if (pageNo <? 1) || (numPages ps <? pageNo) then (s, Returned pageNo)
      else if negb (renderLoopId (comp s) =? loopId ps) then (s, Returned pageNo)
      else if PageSet.has pageNo (rendered s) || PageSet.has pageNo (inflight s)
      then (s, Returned pageNo)
      else
        let s1 := setInflight (PageSet.add pageNo (inflight s)) s in
        (s1, waitForCanvas ps pageNo 0 s1)
  end.

Definition moveTo (pt : Point) (win : Window) : Window :=
  {| pass := pass win; currentPageNo := currentPageNo win; rest := rest win;
     point := pt; startedAt := startedAt win |}.

Definition putWindow (wid : WindowId) (win : Window) (s : State) : State :=
  setWindows (<[wid := win]> (windows (comp s))) s.

(** [inflightPages.delete(pageNo); return] *)
Definition giveUp (wid : WindowId) (win : Window) (pageNo : Z) (s : State) : State :=
  putWindow wid (moveTo (Returned pageNo) win)
            (setInflight (PageSet.delete pageNo (inflight s)) s).

(** **** [renderWindow] *)

(** The loop of [renderWindow] from the pages [todo] on, and its tail. *)
Definition loop (pid : PassId) (currentPageNo : Z) (todo : list Z) (started : Z)
    (s : State) : State * Window :=
  let at_ pt rest :=
    {| pass := pid; currentPageNo := currentPageNo; rest := rest; point := pt;
       startedAt := started |} in
  match todo with
  | [] =>
      let r := rendered s in
      let s1 :=
        if PageSet.has currentPageNo r || PageSet.has (currentPageNo + 1) r
           || PageSet.has (currentPageNo - 1) r
        then setStatus Ready s else s in
      (s1, at_ Done [])
  | p :: todo' =>
      match passes (comp s) !! pid with
      | Some ps =>
          if cancelled ps then (s, at_ Done todo')
          else let '(s1, pt) := renderOne pid p s in (s1, at_ pt todo')
      | None => (s, at_ Done todo')
      end
  end.

(** [renderWindow()] up to its first [await]. *)
Definition renderWindow (pid : PassId) (s : State) : State :=
  match passes (comp s) !! pid with
  | None => s
  | Some ps =>
      let current := Z.max 0 (Z.min (numPages ps - 1) (pageIndexRef (comp s))) in
      let currentPageNo := current + 1 in
      let todo := want variant (isNarrow ps) (numPages ps) (pageIndexRef (comp s)) in
      let s1 := setStatus (Rendering (PageSet.size (rendered s)) (numPages ps)) s in
      let '(s2, win) := loop pid currentPageNo todo (clock (host s)) s1 in
      setWindows (windows (comp s2) ++ [win]) s2
  end.

(** **** Resuming a suspended call *)

(** The animation frame [waitForCanvas] awaits. *)
Definition frame (wid : WindowId) (s : State) : option State :=
  win ← windows (comp s) !! wid;
  match point win with
  | InFrame pageNo i =>
      ps ← passes (comp s) !! pass win;
      Some (putWindow wid (moveTo (waitForCanvas ps pageNo (S i) s) win) s)
  | _ => None
  end.

(** The continuation of an [await] whose promise is already settled. *)
Definition resume (wid : WindowId) (s : State) : option State :=
  win ← windows (comp s) !! wid;
  match point win with
  | GotCanvas pageNo None => Some (giveUp wid win pageNo s)
  | GotCanvas pageNo (Some c) => Some (putWindow wid (moveTo (InGetPage pageNo c) win) s)
  | Returned _ =>
      ps ← passes (comp s) !! pass win;
      let s1 :=
        match variant with
        | Desktop => setStatus (Rendering (PageSet.size (rendered s)) (numPages ps)) s
        | Mobile => s
        end in
      let '(s2, win') :=
        loop (pass win) (currentPageNo win) (rest win) (startedAt win) s1 in
      Some (putWindow wid win' s2)
  | _ => None
  end.

(** The canvas made ready for the raster: key, pixel size, displayed box.
    Assigning [canvas.width] or [canvas.height] resets the bitmap. *)
Definition prepare (ps : Pass) (viewport : Size) (c : Canvas) : Canvas :=
  let nextW := Math.floor (w viewport) in
  let nextH := Math.floor (h viewport) in
  let sameW := (width c =? nextW)%float in
  let sameH := (height c =? nextH)%float in
  mkCanvas (if sameW then width c else nextW) (if sameH then height c else nextH)
           (Some (w (size ps))) (Some (h (size ps)))
           (Some (currentSizeKey ps)) (context2d c)
           (if sameW && sameH then pixels c else Blank).

Definition paint (px : Pixels) (c : Canvas) : Canvas :=
  mkCanvas (width c) (height c) (styleWidth c) (styleHeight c) (datasetSizeKey c)
           (context2d c) px.

(** [pdfDoc.getPage(pageNo)] resolved with [page]: on to [page.render]. *)
Definition gotPage (wid : WindowId) (page : PdfPage) (s : State) : option State :=
  win ← windows (comp s) !! wid;
  match point win with
  | InGetPage pageNo c =>
      ps ← passes (comp s) !! pass win;
      if cancelled ps then Some (giveUp wid win pageNo s)
      else
        cv ← canvases (dom s) !! c;
        let vp1 := getViewport page 1 in
        let scale := (w (size ps) / w vp1)%float in
        let viewport := getViewport page (scale * dpr (viewZoom ps)) in
        let cv1 := prepare ps viewport cv in
        let s1 := setCanvases (<[c := cv1]> (canvases (dom s))) s in
        if negb (context2d cv1) then Some (giveUp wid win pageNo s1)
        else
          let t := length (tasks (host s1)) in
          let s2 := setTasks (tasks (host s1) ++ [Running]) s1 in
          let ps' := setRenderTasks
                       (assign (Z.to_nat (pageNo - 1)) (Some t) (renderTasks ps)) ps in
          let s3 := setPasses (<[pass win := ps']> (passes (comp s2))) s2 in
          let s4 := setCanvases
                      (alter (paint (Painting pageNo (currentSizeKey ps))) c
                             (canvases (dom s3))) s3 in
          Some (putWindow wid (moveTo (InTask pageNo c t) win) s4)
  | _ => None
  end.

(** [pdfDoc.getPage(pageNo)] rejected: the exception leaves [renderOne],
    and [renderWindow] through its [await renderOne(p)]. *)
Definition getPageFailed (wid : WindowId) (e : JsError) (s : State) : option State :=
  win ← windows (comp s) !! wid;
  match point win with
  | InGetPage _ _ => Some (putWindow wid (moveTo (Thrown e) win) s)
  | _ => None
  end.

(** [task.promise] settled: fulfilled ([None]) or rejected with an error.
    A cancelled task can only reject, with [cancelledException]. *)
Definition settled (wid : WindowId) (r : option JsError) (s : State) : option State :=
  win ← windows (comp s) !! wid;
  match point win with
  | InTask pageNo c t =>
      ps ← passes (comp s) !! pass win;
      ts ← tasks (host s) !! t;
      let allowed :=
        match ts, r with
        | Running, _ => true
        | Cancelled, Some e => sameError e cancelledException
        | _, _ => false
        end in
      if allowed then
        let s1 := setTasks (<[t := Settled]> (tasks (host s))) s in
        match r with
        | None =>
            let s2 := setCanvases
                        (alter (paint (Raster pageNo (currentSizeKey ps))) c
                               (canvases (dom s1))) s1 in
            let s3 := setRendered (PageSet.add pageNo (rendered s2)) s2 in
            Some (giveUp wid win pageNo s3)
        | Some e =>
            let s2 := if benign e then s1 else consoleError pageNo e s1 in
            Some (giveUp wid win pageNo s2)
        end
      else None
  | _ => None
  end.

(** **** Time *)

Definition earlier (a b : Timer) : Timer := if deadline b <? deadline a then b else a.

(** The pending timer that is due first by [target], if any. *)
Definition nextDue (target : Z) (ts : list Timer) : option Timer :=
  match List.filter (fun t => deadline t <=? target) ts with
  | [] => None
  | t :: ts' => Some (fold_left earlier ts' t)
  end.

(** Fires the timers due by [target], each at its deadline. *)
Fixpoint fire (fuel : nat) (target : Z) (s : State) : State :=
  match fuel with
  | O => s
  | S fuel' =>
      match nextDue target (timers (host s)) with
      | Some tm =>
          let s1 := clearTimeout (timerId tm) s in
          let s2 := setClock (Z.max (clock (host s1)) (deadline tm)) s1 in
          fire fuel' target (renderWindow (owner tm) s2)
      | None => s
      end
  end.

Definition advance (dt : Z) (s : State) : option State :=
  if dt <? 0 then None
  else
    let target := clock (host s) + dt in
    Some (setClock target (fire (length (timers (host s))) target s)).

(** **** Events and runs *)

Inductive Event : Set :=
| EffectRun (doc : bool) (pageSize : option Size) (numPages : Z) (viewZoom : float)
            (isNarrow : bool)
| SetCanvasRef (idx : nat) (el : option bool)
    (* [canvasRefs.current[idx] = el]: a new canvas element, or null *)
| Flip (data : Z)           (* onFlip *)
| SyncPageIndex (idx : Z)   (* pageIndexRef.current = idx, from the page state or the widget *)
| RequestRender             (* scheduleRenderRef.current?.() *)
| Advance (dt : Z)          (* [dt] milliseconds pass *)
| Frame (wid : WindowId)
| Resume (wid : WindowId)
| GetPage (wid : WindowId) (r : JsError + PdfPage)
| TaskSettles (wid : WindowId) (r : option JsError).

Definition step (s : State) (e : Event) : option State :=
  match e with
  | EffectRun doc pageSize numPages viewZoom isNarrow =>
      Some (runEffect doc pageSize numPages viewZoom isNarrow s)
  | SetCanvasRef idx None =>
      Some (setCanvasRefs (assign idx None (canvasRefs (dom s))) s)
  | SetCanvasRef idx (Some ctx) =>
      let c := length (canvases (dom s)) in
      Some (setCanvasRefs (assign idx (Some c) (canvasRefs (dom s)))
                          (setCanvases (canvases (dom s) ++ [newCanvas ctx]) s))
  | Flip data => Some (requestRender (setPageIndexRef data s))
  | SyncPageIndex idx => Some (setPageIndexRef idx s)
  | RequestRender => Some (requestRender s)
  | Advance dt => advance dt s
  | Frame wid => frame wid s
  | Resume wid => resume wid s
  | GetPage wid (inr page) => gotPage wid page s
  | GetPage wid (inl e) => getPageFailed wid e s
  | TaskSettles wid r => settled wid r s
  end.

Fixpoint run (s : State) (es : list Event) : option State :=
  match es with
  | [] => Some s
  | e :: es' => s' ← step s e; run s' es'
  end.

End Component.

End Scheduler.

(** ** Labels of the control bar *)

Module Label.

(** [`${Math.round(viewZoom * 100)}%`] *)
Definition zoomLabel (viewZoom : float) : string :=
  (Num.toString (Math.round (viewZoom * 100)) ++ "%")%string.

Module Mobile.
Definition currentPageLabel (pageIndex numPages : Z) : string :=
  let total := Z.max 1 numPages in
  let current := Z.min total (Z.max 1 (pageIndex + 1)) in
  (Num.digits current ++ " / " ++ Num.digits total)%string.
End Mobile.

Module Desktop.
Definition currentPageLabel (isNarrow : bool) (pageIndex numPages : Z) : string :=
  let total := Z.max 1 numPages in
  let left := Z.min total (Z.max 1 (pageIndex + 1)) in
  if isNarrow then (Num.digits left ++ " / " ++ Num.digits total)%string
  else
    let right := Z.min total (left + 1) in
    if right =? left then (Num.digits left ++ " / " ++ Num.digits total)%string
    else (Num.digits left ++ "-" ++ Num.digits right ++ " / " ++ Num.digits total)%string.
End Desktop.

End Label.

(** ** The controls of the mobile reader *)

Module Controls.

(** [canUseFlipbook], as the condition it is used for. *)
Definition canUseFlipbook (status : Scheduler.Status) (numPages : Z)
    (pageSize : option Size) : bool :=
  match status with Scheduler.Error _ => false | _ => true end
  && (0 <? numPages)
  && match pageSize with
     | Some sz => (10 <? w sz)%float && (10 <? h sz)%float
     | None => false
     end.

Definition canPrevPage (canUseFlipbook : bool) (pageIndex : Z) : bool :=
  canUseFlipbook && (0 <? pageIndex).

Definition canNextPage (canUseFlipbook : bool) (pageIndex numPages : Z) : bool :=
  canUseFlipbook && (pageIndex <? numPages - 1).

(** The page state of the reader, beside the refs of [Nav.State]. *)
Record Reader : Set := { nav : Nav.State; pageIndex : Z }.

(** [getFlipbookPageIndex()]: the index the widget reports, [None] for
    null (no widget, or no finite number). *)
Definition getFlipbookPageIndex (st : Nav.State) : option Z :=
  api ← Nav.flipbookRef st; Nav.getCurrentPageIndex api.

(** [syncPageIndexFromFlipbook()], which [syncAfterFlip] runs at the next
    animation frame and again 220ms later. *)
Definition syncPageIndexFromFlipbook (r : Reader) : Reader :=
  match getFlipbookPageIndex (nav r) with
  | None => r
  | Some idx =>
      {| nav := {| Nav.flipbookRef := Nav.flipbookRef (nav r);
                   Nav.lastNavAtRef := Nav.lastNavAtRef (nav r);
                   Nav.pageIndexRef := idx;
                   Nav.calls := Nav.calls (nav r) |};
         pageIndex := if pageIndex r =? idx then pageIndex r else idx |}
  end.

(** A click on a button of [MobileControls]: a disabled button has no
    click. *)
Definition click (enabled : bool) (handler : Nav.State -> Nav.State) (r : Reader) : Reader :=
  if enabled then {| nav := handler (nav r); pageIndex := pageIndex r |} else r.

Definition clickPrev (canUse : bool) (numPages : Z) (now : float) (r : Reader) : Reader :=
  click (canPrevPage canUse (pageIndex r)) (Nav.Mobile.flipPrev numPages now) r.

Definition clickNext (canUse : bool) (numPages : Z) (now : float) (r : Reader) : Reader :=
  click (canNextPage canUse (pageIndex r) numPages) (Nav.Mobile.flipNext numPages now) r.

(** [handleOverlayClick(clientX)] with [innerWidth] the value of
    [window.innerWidth]. *)
Definition handleOverlayClick (canUse : bool) (viewZoom innerWidth : float) (numPages : Z)
    (clientX now : float) (st : Nav.State) : Nav.State :=
  if negb canUse then st
  else if (1 <? viewZoom)%float then st
  else
    let viewportWidth := if Num.falsy innerWidth then 1%float else innerWidth in
    let isLeftSide := (clientX <? viewportWidth / 2)%float in
    if isLeftSide then Nav.Mobile.flipPrev numPages now st
    else Nav.Mobile.flipNext numPages now st.

End Controls.

(** ** The touch handlers of the desktop reader *)

Module Touch.

Record Point : Set := { clientX : float; clientY : float }.

Record TouchEvent : Set := { touches : list Point; changedTouches : list Point }.

(** The variables the four handlers share. *)
Record State : Set := { touchStartX : float; touchStartY : float; isMultiTouch : bool }.

Definition initial : State :=
  {| touchStartX := 0; touchStartY := 0; isMultiTouch := false |}.






Inductive Event : Set :=
| TouchStart (e : TouchEvent)
| TouchMove (e : TouchEvent)
| TouchEnd (e : TouchEvent)
| TouchCancel (e : TouchEvent).




End Touch.

(** ** Auto-flip of the desktop reader: a button held down *)

Module AutoFlip.

(** A pending [window.setInterval(callback, period)]; the callback of
    [startAutoFlip] is known by its direction. *)
Record Interval : Set := { intervalId : nat; period : Z; direction : Nav.Dir; due : Z }.

Record State : Set := {
  nav : Nav.State;                  (* flipbookRef and the calls made to the widget *)
  autoFlipTimerRef : option nat;
  intervals : list Interval;        (* the host: pending intervals, *)
  nextIntervalId : nat;             (* the next id (ids are positive), *)
  clock : Z                         (* and a clock in milliseconds *)
}.

Definition initial (nav : Nav.State) : State :=
  {| nav := nav; autoFlipTimerRef := None; intervals := []; nextIntervalId := 1;
     clock := 0 |}.

Definition clearInterval (id : nat) (s : State) : State :=
  {| nav := nav s; autoFlipTimerRef := autoFlipTimerRef s;
     intervals := List.filter (fun iv => negb (intervalId iv =? id)%nat) (intervals s);
     nextIntervalId := nextIntervalId s; clock := clock s |}.

Definition setInterval (dir : Nav.Dir) (delay : Z) (s : State) : nat * State :=
  let id := nextIntervalId s in
  (id, {| nav := nav s; autoFlipTimerRef := autoFlipTimerRef s;
          intervals := intervals s ++
                         [{| intervalId := id; period := delay; direction := dir;
                             due := clock s + delay |}];
          nextIntervalId := S id; clock := clock s |}).

Definition setRef (r : option nat) (s : State) : State :=
  {| nav := nav s; autoFlipTimerRef := r; intervals := intervals s;
     nextIntervalId := nextIntervalId s; clock := clock s |}.

Definition startAutoFlip (canUseFlipbook : bool) (dir : Nav.Dir) (s : State) : State :=
  if negb canUseFlipbook then s
  else
    let s1 := match autoFlipTimerRef s with
              | Some id => clearInterval id s
              | None => s
              end in
    let '(id, s2) := setInterval dir 180 s1 in
    setRef (Some id) s2.

Definition stopAutoFlip (s : State) : State :=
  match autoFlipTimerRef s with
  | None => s
  | Some id => setRef None (clearInterval id s)
  end.

(** The callback of the interval, and the [onClick] of the buttons: the
    same call on the widget.  Neither reads a clock. *)
Definition flip (dir : Nav.Dir) (s : State) : State :=
  {| nav := Nav.Desktop.onClick dir 0 (nav s); autoFlipTimerRef := autoFlipTimerRef s;
     intervals := intervals s; nextIntervalId := nextIntervalId s; clock := clock s |}.

Definition sooner (a b : Interval) : Interval := if due b <? due a then b else a.

(** The pending interval that is due first by [target], if any. *)
Definition nextDue (target : Z) (ivs : list Interval) : option Interval :=
  match List.filter (fun iv => due iv <=? target) ivs with
  | [] => None
  | iv :: ivs' => Some (fold_left sooner ivs' iv)
  end.

(** An interval that fired is due again one period later (the host takes
    a period below 1ms as 1ms). *)
Definition again (iv : Interval) : Interval :=
  {| intervalId := intervalId iv; period := period iv; direction := direction iv;
     due := due iv + Z.max 1 (period iv) |}.

(** One firing: the interval is due again, and its callback runs. *)
Definition fireOne (iv : Interval) (s : State) : State :=
  flip (direction iv)
    {| nav := nav s; autoFlipTimerRef := autoFlipTimerRef s;
       intervals := map (fun x => if (intervalId x =? intervalId iv)%nat then again x else x)
                        (intervals s);
       nextIntervalId := nextIntervalId s; clock := Z.max (clock s) (due iv) |}.

Fixpoint fire (fuel : nat) (target : Z) (s : State) : State :=
  match fuel with
  | O => s
  | S fuel' =>
      match nextDue target (intervals s) with
      | Some iv => fire fuel' target (fireOne iv s)
      | None => s
      end
  end.

(** [dt] milliseconds pass: every interval fires as often as it is due. *)
Definition advance (dt : Z) (s : State) : option State :=
  if dt <? 0 then None
  else
    let target := clock s + dt in
    let s1 := fire (length (intervals s) * S (Z.to_nat dt)) target s in
    Some {| nav := nav s1; autoFlipTimerRef := autoFlipTimerRef s1;
            intervals := intervals s1; nextIntervalId := nextIntervalId s1;
            clock := target |}.

Inductive Event : Set :=
| PointerDown (canUseFlipbook : bool) (dir : Nav.Dir)   (* onPointerDown *)
| PointerUp               (* onPointerUp, onPointerCancel, onPointerLeave *)
| Click (dir : Nav.Dir)   (* onClick *)
| Advance (dt : Z).

Definition step (s : State) (e : Event) : option State :=
  match e with
  | PointerDown canUse dir => Some (startAutoFlip canUse dir s)
  | PointerUp => Some (stopAutoFlip s)
  | Click dir => Some (flip dir s)
  | Advance dt => advance dt s
  end.

Fixpoint run (s : State) (es : list Event) : option State :=
  match es with
  | [] => Some s
  | e :: es' => s' ← step s e; run s' es'
  end.

End AutoFlip.

(** ** Panning the zoomed desktop reader by dragging *)

Module Pan.

(** [dragScrollRef.current] *)
Record Drag : Set := { active : bool; x : float; y : float; left : float; top : float }.

(** The scroll offsets of the element behind [scrollRef]. *)
Record Scroller : Set := { scrollLeft : float; scrollTop : float }.

Record State : Set := {
  dragScrollRef : Drag;
  scrollRef : option Scroller;
  panBySpace : bool;
  isPanning : bool
}.

Definition initial (el : option Scroller) : State :=
  {| dragScrollRef := {| active := false; x := 0; y := 0; left := 0; top := 0 |};
     scrollRef := el; panBySpace := false; isPanning := false |}.

Section Host.
(** What [el.scrollLeft] and [el.scrollTop] read after a value is
    assigned to them: the browser keeps the offsets within the
    scrollable range. *)
Variables (settleLeft settleTop : float -> float).

(** [onPointerDown]; the result says whether the event was consumed
    ([setPointerCapture], [preventDefault], [stopPropagation]). *)
Definition onPointerDown (viewZoom : float) (insideFlipbook : bool)
    (clientX clientY : float) (st : State) : State * bool :=
  if (viewZoom <=? 1)%float then (st, false)
  else
    match scrollRef st with
    | None => (st, false)
    | Some el =>
        let shouldPan := panBySpace st || negb insideFlipbook in
        if negb shouldPan then (st, false)
        else
          ({| dragScrollRef := {| active := true; x := clientX; y := clientY;
                                  left := scrollLeft el; top := scrollTop el |};
              scrollRef := scrollRef st; panBySpace := panBySpace st;
              isPanning := true |}, true)
    end.

Definition onPointerMove (clientX clientY : float) (st : State) : State * bool :=
  if negb (active (dragScrollRef st)) then (st, false)
  else
    match scrollRef st with
    | None => (st, false)
    | Some el =>
        let dx := (clientX - x (dragScrollRef st))%float in
        let dy := (clientY - y (dragScrollRef st))%float in
        ({| dragScrollRef := dragScrollRef st;
            scrollRef := Some {| scrollLeft := settleLeft (left (dragScrollRef st) - dx);
                                 scrollTop := settleTop (top (dragScrollRef st) - dy) |};
            panBySpace := panBySpace st; isPanning := isPanning st |}, true)
    end.

(** [onPointerUp] and [onPointerCancel] *)
Definition onPointerUp (st : State) : State :=
  {| dragScrollRef := {| active := false; x := x (dragScrollRef st);
                         y := y (dragScrollRef st); left := left (dragScrollRef st);
                         top := top (dragScrollRef st) |};
     scrollRef := scrollRef st; panBySpace := panBySpace st; isPanning := false |}.

(** [handleKeyDown] and [handleKeyUp]; [space] says whether [e.code] is
    ['Space'].  The result of the first says whether the key was
    consumed. *)
Definition handleKeyDown (space : bool) (st : State) : State * bool :=
  if space then
    ({| dragScrollRef := dragScrollRef st; scrollRef := scrollRef st;
        panBySpace := true; isPanning := isPanning st |}, true)
  else (st, false).

Definition handleKeyUp (space : bool) (st : State) : State :=
  if space then
    {| dragScrollRef := dragScrollRef st; scrollRef := scrollRef st;
       panBySpace := false; isPanning := isPanning st |}
  else st.

(** The pointer moving through the points [path], one event each. *)
Definition drag (path : list (float * float)) (st : State) : State :=
  fold_left (fun st p => fst (onPointerMove (fst p) (snd p) st)) path st.

End Host.

End Pan.

(** ** Loading the document *)

Module Loader.

(** What a rejected promise or a [throw] carries: an [Error] with its
    message, or some other value. *)
Inductive Thrown : Set := ErrorObject (message : string) | OtherValue.

(** The message shown when the thrown value is not an [Error]. *)
Definition fallbackMessage : string := "PDF를 불러오지 못했습니다.".

Definition messageOf (e : Thrown) : string :=
  match e with ErrorObject m => m | OtherValue => fallbackMessage end.

(** A loaded document: where it came from and its [numPages]. *)
Record Document : Set := { source : string; docNumPages : Z }.

(** The state [load] writes. *)
Record Comp : Set := {
  status : Scheduler.Status;
  doc : option Document;
  numPages : Z;
  pageIndex : Z;
  pageSize : option Size;
  pageRatio : option float
}.

(** Where a call of [load] is suspended. *)
Inductive Point : Set :=
| AwaitImport                        (* await import('/pdfjs/pdf.mjs') *)
| AwaitDocument                      (* await task.promise *)
| AwaitFirstPage (loaded : Document) (* await loaded.getPage(1) *)
| Finished.

(** One run of the effect: its [pdfUrl], its [cancelled] flag, its call of
    [load]. *)
Record Load : Set := { pdfUrl : string; cancelled : bool; point : Point }.

Record State : Set := {
  comp : Comp;
  loads : list Load;
  live : option nat;             (* the effect run whose cleanup is due *)
  workerSrc : option string;     (* pdfjs.GlobalWorkerOptions.workerSrc *)
  requested : list string;       (* the urls passed to pdfjs.getDocument *)
  console : list Thrown
}.

Definition initial : State :=
  {| comp := {| status := Scheduler.Idle; doc := None; numPages := 0; pageIndex := 0;
                pageSize := None; pageRatio := None |};
     loads := []; live := None; workerSrc := None; requested := []; console := [] |}.

Definition withComp (f : Comp -> Comp) (s : State) : State :=
  {| comp := f (comp s); loads := loads s; live := live s; workerSrc := workerSrc s;
     requested := requested s; console := console s |}.

Definition setLoads (ls : list Load) (s : State) : State :=
  {| comp := comp s; loads := ls; live := live s; workerSrc := workerSrc s;
     requested := requested s; console := console s |}.

Definition setLive (l : option nat) (s : State) : State :=
  {| comp := comp s; loads := loads s; live := l; workerSrc := workerSrc s;
     requested := requested s; console := console s |}.

Definition moveTo (pt : Point) (ld : Load) : Load :=
  {| pdfUrl := pdfUrl ld; cancelled := cancelled ld; point := pt |}.

Definition at_ (lid : nat) (pt : Point) (ld : Load) (s : State) : State :=
  setLoads (<[lid := moveTo pt ld]> (loads s)) s.

Definition cancel (ld : Load) : Load :=
  {| pdfUrl := pdfUrl ld; cancelled := true; point := point ld |}.

(** The cleanup the effect returns: [cancelled = true]. *)
Definition cleanup (s : State) : State :=
  match live s with
  | Some lid => setLive None (setLoads (alter cancel lid (loads s)) s)
  | None => s
  end.

(** The effect runs for [url]: the cleanup of the previous run, then
    [load()] up to its first [await]. *)
Definition start (url : string) (s : State) : State :=
  let s1 := cleanup s in
  let s2 := withComp (fun _ => {| status := Scheduler.Loading; doc := None; numPages := 0;
                                  pageIndex := 0; pageSize := None; pageRatio := None |}) s1 in
  setLive (Some (length (loads s2)))
    (setLoads (loads s2 ++ [{| pdfUrl := url; cancelled := false; point := AwaitImport |}]) s2).

(** The [catch] block. *)
Definition caught (lid : nat) (ld : Load) (e : Thrown) (s : State) : State :=
  let s1 := at_ lid Finished ld s in
  if cancelled ld then s1
  else
    let s2 := {| comp := comp s1; loads := loads s1; live := live s1;
                 workerSrc := workerSrc s1; requested := requested s1;
                 console := console s1 ++ [e] |} in
    withComp (fun c => {| status := Scheduler.Error (messageOf e); doc := doc c;
                          numPages := numPages c; pageIndex := pageIndex c;
                          pageSize := pageSize c; pageRatio := pageRatio c |}) s2.

(** The import settles. *)
Definition imported (lid : nat) (r : Thrown + unit) (s : State) : option State :=
  ld ← loads s !! lid;
  match point ld with
  | AwaitImport =>
      match r with
      | inl e => Some (caught lid ld e s)
      | inr _ =>
          let s1 := {| comp := comp s; loads := loads s; live := live s;
                       workerSrc := Some "/pdfjs/pdf.worker.min.mjs"%string;
                       requested := requested s ++ [pdfUrl ld]; console := console s |} in
          Some (at_ lid AwaitDocument ld s1)
      end
  | _ => None
  end.

(** [task.promise] settles, with the [numPages] of the document. *)
Definition documentLoaded (lid : nat) (r : Thrown + Z) (s : State) : option State :=
  ld ← loads s !! lid;
  match point ld with
  | AwaitDocument =>
      match r with
      | inl e => Some (caught lid ld e s)
      | inr n =>
          if cancelled ld then Some (at_ lid Finished ld s)
          else
            let loaded := {| source := pdfUrl ld; docNumPages := n |} in
            let s1 := withComp (fun c => {| status := status c; doc := Some loaded;
                                            numPages := n; pageIndex := pageIndex c;
                                            pageSize := pageSize c;
                                            pageRatio := pageRatio c |}) s in
            Some (at_ lid (AwaitFirstPage loaded) ld s1)
      end
  | _ => None
  end.

(** [loaded.getPage(1)] settles, with the viewport of the page at scale 1. *)
Definition firstPage (lid : nat) (r : Thrown + Size) (s : State) : option State :=
  ld ← loads s !! lid;
  match point ld with
  | AwaitFirstPage _ =>
      match r with
      | inl e => Some (caught lid ld e s)
      | inr vp =>
          if cancelled ld then Some (at_ lid Finished ld s)
          else
            let ratio := if (0 <? w vp)%float then Some (h vp / w vp)%float else None in
            let s1 := withComp (fun c => {| status := Scheduler.Ready; doc := doc c;
                                            numPages := numPages c; pageIndex := pageIndex c;
                                            pageSize := pageSize c; pageRatio := ratio |}) s in
            Some (at_ lid Finished ld s1)
      end
  | _ => None
  end.

Inductive Event : Set :=
| Start (url : string)                     (* the effect runs: mount, or a new pdfUrl *)
| Unmount                                  (* the last cleanup *)
| Imported (lid : nat) (r : Thrown + unit)
| DocumentLoaded (lid : nat) (r : Thrown + Z)
| FirstPage (lid : nat) (r : Thrown + Size).

Definition step (s : State) (e : Event) : option State :=
  match e with
  | Start url => Some (start url s)
  | Unmount => Some (cleanup s)
  | Imported lid r => imported lid r s
  | DocumentLoaded lid r => documentLoaded lid r s
  | FirstPage lid r => firstPage lid r s
  end.

Fixpoint run (s : State) (es : list Event) : option State :=
  match es with
  | [] => Some s
  | e :: es' => s' ← step s e; run s' es'
  end.

(** The load an event resumes. *)
Definition target (e : Event) : option nat :=
  match e with
  | Imported lid _ | DocumentLoaded lid _ | FirstPage lid _ => Some lid
  | _ => None
  end.

End Loader.

(** ** Specification-side definitions *)

(** The calls [navTo] makes once an intent is past the duplicate guard, with
    [curIdx] the page the widget is on. *)
Definition issued (numPages : Z) (dir : Nav.Dir) (curIdx : Z) : list Nav.Call :=
  let targetRaw := match dir with Nav.next => curIdx + 1 | Nav.prev => curIdx - 1 end in
  let target := Z.max 0 (Z.min (Z.max 0 (numPages - 1)) targetRaw) in
  if target =? curIdx then []
  else [Nav.TurnToPage target; Nav.SyncAfterFlip; Nav.ScheduleRender].

(** A book of ten pages open at its first page, last navigation long ago. *)
Definition tenPages : Nav.State :=
  {| Nav.flipbookRef := Some {| Nav.getCurrentPageIndex := Some 0 |};
     Nav.lastNavAtRef := 0; Nav.pageIndexRef := 0; Nav.calls := [] |}.

(** A burst of requests: one request, then after each gap one more. *)
Definition burst (gaps : list Z) : list Scheduler.Event :=
  Scheduler.RequestRender ::
  flat_map (fun d => [Scheduler.Advance d; Scheduler.RequestRender]) gaps.

Definition total (gaps : list Z) : Z := fold_right Z.add 0 gaps.

(** ** The page cache: how the operations move it *)

Module CacheMoves.
Import Scheduler.

Definition mark (p : Z) (c : Cache) : Cache :=
  {| renderedPages := renderedPages c;
     inflightPages := PageSet.add p (inflightPages c);
     lastSizeKey := lastSizeKey c |}.

Definition unmark (p : Z) (c : Cache) : Cache :=
  {| renderedPages := renderedPages c;
     inflightPages := PageSet.delete p (inflightPages c);
     lastSizeKey := lastSizeKey c |}.

Definition finish (p : Z) (c : Cache) : Cache :=
  {| renderedPages := PageSet.add p (renderedPages c);
     inflightPages := PageSet.delete p (inflightPages c);
     lastSizeKey := lastSizeKey c |}.

Definition cleared (key : string) : Cache :=
  {| renderedPages := []; inflightPages := []; lastSizeKey := Some key |}.

(** Pages entering the in-flight set one after the other, each one in
    neither set when it enters. *)
Inductive Marks : Cache -> Cache -> Prop :=
| marks_nil c : Marks c c
| marks_cons c p c' :
    PageSet.has p (renderedPages c) = false ->
    PageSet.has p (inflightPages c) = false ->
    Marks (mark p c) c' -> Marks c c'.

(** What one event can do to the cache. *)
Inductive Change : Cache -> Cache -> Prop :=
| change_marks c c' : Marks c c' -> Change c c'
| change_clear c key : Change c (cleared key)
| change_unmark c p : Change c (unmark p c)
| change_finish c p : Change c (finish p c).

Definition Disjoint (c : Cache) : Prop :=
  forall p, ~ (In p (renderedPages c) /\ In p (inflightPages c)).

End CacheMoves.

(** ** Suspended calls *)

(** The window an event resumes, if it resumes one. *)
Definition target (e : Scheduler.Event) : option Scheduler.WindowId :=
  match e with
  | Scheduler.Frame wid | Scheduler.Resume wid
  | Scheduler.GetPage wid _ | Scheduler.TaskSettles wid _ => Some wid
  | _ => None
  end.

(** The call [renderOne(p)] is suspended at this point. *)
Definition inRenderOne (p : Z) (pt : Scheduler.Point) : Prop :=
  match pt with
  | Scheduler.InFrame q _ | Scheduler.GotCanvas q _
  | Scheduler.InGetPage q _ | Scheduler.InTask q _ _ => q = p
  | _ => False
  end.

(** ** Timers and passes *)

Module Tracking.
Import Scheduler.

(** Every pending timer is the one [scheduleTimerRef] holds, and a
    [schedule] held by [scheduleRenderRef] belongs to a pass that is not
    cancelled. *)
Definition Tracked (s : State) : Prop :=
  (forall tm, In tm (timers (host s)) -> scheduleTimer (comp s) = Some (timerId tm))
  /\ (forall pid, scheduleRender (comp s) = Some pid ->
        exists ps, passes (comp s) !! pid = Some ps /\ cancelled ps = false).

(** Operations that touch neither timers nor passes. *)
Definition SameSched (s s' : State) : Prop :=
  timers (host s') = timers (host s)
  /\ scheduleTimer (comp s') = scheduleTimer (comp s)
  /\ scheduleRender (comp s') = scheduleRender (comp s)
  /\ passes (comp s') = passes (comp s).

End Tracking.

(** ** Scenarios *)

Module Scenario.
Import Scheduler.

(** The mobile reader in a 416 by 1076 container showing a three-page book
    of A4 pages. *)
Definition box (zoom : float) : option Size :=
  Viewport.Mobile.targetPageSize 416 1076 (Some 1.4142%float) zoom.

Definition a4 : PdfPage := {| viewport1 := mkSize 595 842 |}.

(** The widget (re)creates its canvases. *)
Definition mount : list Event :=
  [SetCanvasRef 0 (Some true); SetCanvasRef 1 (Some true); SetCanvasRef 2 (Some true)].

(** The book opens: the widget mounts and the effect runs. *)
Definition opened : list Event := mount ++ [EffectRun true (box 1) 3 1 true].

(** A click on a zoom button.  [viewZoom] changes in one render and
    [pageSize] follows in the next; the [key] of the widget changes with
    each, and the effect runs after each. *)
Definition zoomTo (old new : float) : list Event :=
  mount ++ [EffectRun true (box old) 3 new true]
    ++ mount ++ [EffectRun true (box new) 3 new true].

(** [renderOne] of the page window [wid] is at, from its surface to the
    end of its raster, and on to the next page. *)
Definition renderPage (wid : WindowId) : list Event :=
  [Resume wid; GetPage wid (inr a4); TaskSettles wid None; Resume wid].

Definition unreadable : JsError :=
  {| name := "UnknownErrorException"; message := "Page 2 cannot be read" |}.

(** The first pass rasterizes page 1; [getPage(2)] then rejects. *)
Definition getPageRejects : list Event :=
  opened ++ [Advance 160] ++ renderPage 0 ++ [Resume 0; GetPage 0 (inl unreadable)].

(** ... and a second pass of the same generation runs to its end. *)
Definition nextPass : list Event :=
  getPageRejects ++ [RequestRender; Advance 160; Resume 1; Resume 1] ++ renderPage 1.

(** Three generations.  Under the first, page 1 is rasterized and
    [getPage(2)] stays pending.  The zoom changes; the new pass rasterizes
    page 1 and puts page 2 in flight; the pending call of the first pass
    resumes and takes page 2 out of the in-flight set, and the new pass
    goes on to rasterize page 2.  A flip starts a second window of that
    pass, which takes page 2 again and overwrites its slot of
    [renderTasks].  The zoom changes once more: the cleanup cancels the
    task in the slot, and the first raster of page 2 completes afterwards. *)
Definition staleRaster : list Event :=
  opened ++ [Advance 160] ++ renderPage 0 ++ [Resume 0]
    ++ zoomTo 1 1.1 ++ [Advance 160] ++ renderPage 1 ++ [Resume 1]
    ++ [GetPage 0 (inr a4); GetPage 1 (inr a4)]
    ++ [Flip 1; Advance 160; Resume 2; Resume 2; GetPage 2 (inr a4)]
    ++ zoomTo 1.1 1.2
    ++ [TaskSettles 1 None; TaskSettles 2 (Some cancelledException)].

(** ... and the pass of the third generation runs to its end. *)
Definition staleRasterThenPass : list Event :=
  staleRaster ++ [Advance 160] ++ renderPage 3 ++ [Resume 3] ++ renderPage 3.

(** The desktop reader in a container 600 high showing the same book. *)
Definition desktopBox (containerWidth : float) : option Size :=
  Viewport.Desktop.targetPageSize containerWidth 600 (Some 1.4142%float) 1.

(** At 767 wide the three pages are rasterized.  The container then grows
    to 769 wide: the layout turns to a spread, the widget is replaced, and
    the effect runs for the new [isNarrow] and again for the new
    [pageSize]; the next pass runs to its end. *)
Definition layoutChange : list Event :=
  mount ++ [EffectRun true (desktopBox 767) 3 1 true; Advance 160]
    ++ renderPage 0 ++ renderPage 0 ++ renderPage 0
    ++ mount ++ [EffectRun true (desktopBox 767) 3 1 false;
                 EffectRun true (desktopBox 769) 3 1 false]
    ++ [Advance 160; Resume 1; Resume 1; Resume 1].

(** The component once the book is open. *)
Definition started : State := default initial (run Mobile 2 initial opened).


(** The component after [getPageRejects]. *)
Definition stranded : State :=
  default initial (run Mobile 2 initial getPageRejects).

(** The surface attached to a page, if any. *)
Definition surface (pageNo : Z) (s : State) : option Canvas :=
  c ← mjoin (canvasRefs (dom s) !! Z.to_nat (pageNo - 1)); canvases (dom s) !! c.

End Scenario.

(** ** Effect runs and their timers *)

Module Liveness.
Import Scheduler.

(** Pass [pid] exists and its [cancelled] flag is still false. *)
Definition live (s : State) (pid : PassId) : Prop :=
  exists ps, passes (comp s) !! pid = Some ps /\ cancelled ps = false.

(** Only the effect run whose cleanup is due is live, and its loop id is
    the current one; [scheduleRenderRef] holds its [schedule] and no
    other; at most one timer is pending, and a pending timer was armed by
    that [schedule]. *)
Definition Orderly (s : State) : Prop :=
  (forall pid ps, passes (comp s) !! pid = Some ps -> cancelled ps = false ->
     liveEffect (comp s) = Some pid /\ loopId ps = renderLoopId (comp s))
  /\ scheduleRender (comp s) = liveEffect (comp s)
  /\ (length (timers (host s)) <= 1)%nat
  /\ (forall tm, In tm (timers (host s)) -> scheduleRender (comp s) = Some (owner tm)).

(** The parts of the component only the effect writes. *)
Definition ids (s : State) : option PassId * Z :=
  (liveEffect (comp s), renderLoopId (comp s)).

(** What makes a pass live or stale. *)
Definition flags (ps : Pass) : bool * Z := (cancelled ps, loopId ps).

(** Operations that leave the effect runs and the timers as they are. *)
Definition Calm (s s' : State) : Prop :=
  timers (host s') = timers (host s)
  /\ scheduleRender (comp s') = scheduleRender (comp s)
  /\ liveEffect (comp s') = liveEffect (comp s)
  /\ renderLoopId (comp s') = renderLoopId (comp s)
  /\ flags <$> passes (comp s') = flags <$> passes (comp s).

(** The events that are not a run of the effect. *)
Definition noEffectRun (e : Event) : bool :=
  match e with EffectRun _ _ _ _ _ => false | _ => true end.

End Liveness.

(** ** Raster tasks *)


(** ** More scenarios *)

Module Scenario2.
Import Scheduler.

(** The effect runs and its timer fires before the widget has attached
    any canvas: [renderOne(1)] waits for its surface. *)
Definition unmounted : State :=
  default initial
    (run Mobile 2 initial [EffectRun true (Scenario.box 1) 3 1 true; Advance 160]).

End Scenario2.

(** ** A pass nothing disturbs *)

Module Undisturbed.
Import Scheduler.

(** Whether surface [c] has a 2D context, for each surface. *)
Definition contexts (s : State) : list bool := context2d <$> canvases (dom s).

(** The canvas [canvasRefs.current[p - 1]] holds, if it holds one. *)
Definition canvasOf (s : State) (p : Z) : option CanvasId :=
  mjoin (canvasRefs (dom s) !! Z.to_nat (p - 1)).

(** The event that resumes window [wid] when the browser delivers the next
    animation frame and every promise the window awaits is fulfilled:
    [getPage(p)] with the page [getPage p] of the document, the raster
    without error. *)
Definition next (getPage : Z -> PdfPage) (wid : WindowId) (s : State) : option Event :=
  win ← windows (comp s) !! wid;
  match point win with
  | InFrame _ _ => Some (Frame wid)
  | GotCanvas _ _ | Returned _ => Some (Resume wid)
  | InGetPage p _ => Some (GetPage wid (inr (getPage p)))
  | InTask _ _ _ => Some (TaskSettles wid None)
  | Done | Thrown _ => None
  end.

Section Drive.
Variable variant : Variant.
Variable devicePixelRatio : float.

(** Window [wid] resumed up to [fuel] times in a row, or until its call
    of [renderWindow] is over. *)
Fixpoint drive (fuel : nat) (getPage : Z -> PdfPage) (wid : WindowId) (s : State)
    : option State :=
  match fuel with
  | O => Some s
  | S fuel' =>
      match next getPage wid s with
      | None => Some s
      | Some e => s' ← step variant devicePixelRatio s e; drive fuel' getPage wid s'
      end
  end.
End Drive.

(** What the pass reads of its own record. *)
Definition facts (ps : Pass) : bool * Z * Z * string :=
  (cancelled ps, loopId ps, numPages ps, currentSizeKey ps).

(** The two states differ at most in their cache, status, windows, raster
    tasks and canvas bitmaps. *)
Definition Keep (s s1 : State) : Prop :=
  canvasRefs (dom s1) = canvasRefs (dom s)
  /\ contexts s1 = contexts s
  /\ console (host s1) = console (host s)
  /\ facts <$> passes (comp s1) = facts <$> passes (comp s)
  /\ renderLoopId (comp s1) = renderLoopId (comp s).

Definition Agree (s s1 : State) : Prop :=
  cache s1 = cache s /\ status (comp s1) = status (comp s) /\ dom s1 = dom s
  /\ Keep s s1.

(** What [loop] needs of a state to render the pages [todo] for pass
    [pid]: the pass is live, and each page is a page of the book, is not
    in flight, and has a surface with a 2D context attached. *)
Definition Fit (pid : PassId) (N : Z) (key : string) (todo : list Z) (s : State) : Prop :=
  (facts <$> passes (comp s)) !! pid = Some (false, renderLoopId (comp s), N, key)
  /\ forall p, In p todo ->
       1 <= p <= N
       /\ ~ In p (inflight s)
       /\ exists c : CanvasId, canvasOf s p = Some c /\ contexts s !! c = Some true.

(** No two pages of [todo] share a canvas. *)
Definition Separate (todo : list Z) (s : State) : Prop :=
  forall p q c, In p todo -> In q todo ->
    canvasOf s p = Some c -> canvasOf s q = Some c -> p = q.

(** The canvas is none of those the pass draws on: those of the pages of
    [todo] that are not rendered yet. *)
Definition Spare (todo : list Z) (s : State) (c : CanvasId) : Prop :=
  forall q, In q todo -> ~ In q (rendered s) -> canvasOf s q <> Some c.

(** What the pass leaves behind. *)
Definition Finished (wid : WindowId) (cur : Z) (key : string) (todo : list Z)
    (s s2 : State) : Prop :=
  (forall q, In q (rendered s2) <-> In q (rendered s) \/ In q todo)
  /\ (forall q, In q (inflight s2) <-> In q (inflight s))
  /\ (exists win, windows (comp s2) !! wid = Some win /\ point win = Done)
  /\ console (host s2) = console (host s)
  /\ (PageSet.has cur (rendered s2) || PageSet.has (cur + 1) (rendered s2)
      || PageSet.has (cur - 1) (rendered s2) = true -> status (comp s2) = Ready)
  /\ canvasRefs (dom s2) = canvasRefs (dom s)
  /\ (Separate todo s ->
      (forall c, Spare todo s c -> canvases (dom s2) !! c = canvases (dom s) !! c)
      /\ (forall q c, In q todo -> ~ In q (rendered s) -> canvasOf s q = Some c ->
            exists cv, canvases (dom s2) !! c = Some cv
                       /\ pixels cv = Raster q key /\ datasetSizeKey cv = Some key)).

End Undisturbed.

(** ** Zoom levels *)

(** The tenths the zoom buttons can reach: 7 to 25. *)
Definition levels : list Z := Scheduler.range 7 25.

(** No two of the values [xs] are equal, and each is equal to itself (none
    is NaN), as the float comparison sees them. *)
Definition distinctFloats (xs : list float) : bool :=
  forallb (fun x => (x =? x)%float) xs
  && forallb (fun i =>
       forallb (fun j => (i =? j)%nat || negb (nth i xs nan =? nth j xs nan)%float)
               (seq 0 (length xs)))
       (seq 0 (length xs)).

(** No two of the strings [xs] are equal. *)
Definition distinctStrings (xs : list string) : bool :=
  forallb (fun i =>
    forallb (fun j => (i =? j)%nat || negb (String.eqb (nth i xs EmptyString)
                                                        (nth j xs EmptyString)))
            (seq 0 (length xs)))
    (seq 0 (length xs)).

(** ** Touch gestures *)


(** ** A button held down *)

(** The call a flip in direction [dir] makes on the widget. *)
Definition flipCall (dir : Nav.Dir) : Nav.Call :=
  match dir with Nav.next => Nav.FlipNext | Nav.prev => Nav.FlipPrev end.

(** Every pending interval is the one [autoFlipTimerRef] holds, it has the
    period of [startAutoFlip], and there is at most one. *)
Definition Tidy (s : AutoFlip.State) : Prop :=
  (forall iv, In iv (AutoFlip.intervals s) ->
     AutoFlip.autoFlipTimerRef s = Some (AutoFlip.intervalId iv) /\ AutoFlip.period iv = 180)
  /\ (length (AutoFlip.intervals s) <= 1)%nat.

(** ** Loads *)

(** The urls the effect ran for, in order. *)
Definition started (es : list Loader.Event) : list string :=
  flat_map (fun e => match e with Loader.Start url => [url] | _ => [] end) es.

(** A load that is not cancelled is the last one started and the one
    whose cleanup is due; the document held is the one that load got for
    its url, [numPages] is its page count (0 without a document), the
    status is not ready without a document, and a load that waits for its
    first page waits for the page of the document held. *)
Definition Coherent (s : Loader.State) : Prop :=
  (forall lid, (Loader.cancelled <$> Loader.loads s) !! lid = Some false ->
     Loader.live s = Some lid /\ S lid = length (Loader.loads s))
  /\ (forall lid, Loader.live s = Some lid ->
        (Loader.cancelled <$> Loader.loads s) !! lid = Some false)
  /\ (forall d, Loader.doc (Loader.comp s) = Some d ->
        last (Loader.pdfUrl <$> Loader.loads s) = Some (Loader.source d)
        /\ Loader.numPages (Loader.comp s) = Loader.docNumPages d)
  /\ (Loader.doc (Loader.comp s) = None ->
        Loader.numPages (Loader.comp s) = 0
        /\ Loader.status (Loader.comp s) <> Scheduler.Ready)
  /\ (forall lid ld loaded, Loader.loads s !! lid = Some ld ->
        Loader.cancelled ld = false -> Loader.point ld = Loader.AwaitFirstPage loaded ->
        Loader.doc (Loader.comp s) = Some loaded).

(** The event reports that the promise load [lid] awaits was rejected
    with [x], or that what it awaited threw [x]. *)
Definition fails (lid : nat) (x : Loader.Thrown) (e : Loader.Event) : Prop :=
  e = Loader.Imported lid (inl x) \/ e = Loader.DocumentLoaded lid (inl x)
  \/ e = Loader.FirstPage lid (inl x).

(* ===================================================================== *)
(** * Part II: the properties                                             *)
(* ===================================================================== *)

(** ** Floats: what the comparisons say *)

Lemma SFcompare_refl (x : spec_float) :
  x <> S754_nan -> SFcompare x x = Some Eq.
Proof.
  destruct x as [s| s | |s m e]; try congruence; intros _.
  - destruct s; reflexivity.
  - destruct s; reflexivity.
  - unfold SFcompare.
    rewrite (Z.compare_refl e).
    change (PosDef.Pos.compare_cont Eq m m) with (Pos.compare m m).
    rewrite (Pos.compare_refl m). destruct s; reflexivity.
Qed.

Lemma positive_not_falsy (r : float) : (0 <? r)%float = true -> Num.falsy r = false.
Proof.
  intros H. unfold Num.falsy, is_zero, is_nan.
  rewrite FloatAxioms.ltb_spec in H. rewrite !FloatAxioms.eqb_spec.
  change (Prim2SF 0) with (S754_zero false) in H.
  change (Prim2SF zero) with (S754_zero false).
  unfold SFltb in H. unfold SFeqb.
  destruct (Prim2SF r) as [s| s | |s m e] eqn:E; try discriminate.
  - destruct s; try discriminate; reflexivity.
  - destruct s; try discriminate.
    rewrite SFcompare_refl by discriminate. reflexivity.
Qed.

(** ** Viewport sizing *)

(** C5.  With the page ratio known and positive, [targetPageSize] is null
    exactly when an available dimension is not positive; otherwise the box is
    [w = baseW * zoom], [h = w * ratio] with
    [baseW = max(0, min(narrow ? availableW : availableW / 2, availableH / ratio))].
    With the ratio unknown it is null.  Both components are instances, and
    for ratio 1.4142, one page, 400 by 1000 available and zoom 1 the box is
    400 wide and 400 * 1.4142 (about 565.7) high. *)
Theorem targetPageSize_box
    (padX padY controlsH : float) (narrow : bool)
    (containerWidth containerHeight ratio zoom : float) :
  (0 <? ratio)%float = true ->
  let availableW := Math.max 0 (containerWidth - padX * 2) in
  let availableH := Math.max 0 (containerHeight - controlsH - padY * 2) in
  let baseW :=
    Math.max 0 (Math.min (if narrow then availableW else (availableW / 2)%float)
                         (availableH / ratio)) in
  let box := Viewport.pageBox padX padY controlsH narrow
               containerWidth containerHeight (Some ratio) zoom in
  (box = None <-> (availableW <=? 0)%float = true \/ (availableH <=? 0)%float = true)
  /\ (box <> None -> box = Some (mkSize (baseW * zoom) (baseW * zoom * ratio)))
  /\ Viewport.pageBox padX padY controlsH narrow containerWidth containerHeight None zoom = None
  /\ Viewport.Desktop.targetPageSize containerWidth containerHeight (Some ratio) zoom =
     Viewport.pageBox 24 16 84 (Viewport.Desktop.isNarrow containerWidth)
       containerWidth containerHeight (Some ratio) zoom
  /\ Viewport.Mobile.targetPageSize containerWidth containerHeight (Some ratio) zoom =
     Viewport.pageBox 8 8 60 true containerWidth containerHeight (Some ratio) zoom
  /\ Viewport.Mobile.targetPageSize 416 1076 (Some 1.4142%float) 1 =
     Some (mkSize 400 (400 * 1.4142))
  /\ Viewport.Desktop.targetPageSize 448 1116 (Some 1.4142%float) 1 =
     Some (mkSize 400 (400 * 1.4142))
  /\ (565.65 <? 400 * 1.4142)%float = true /\ (400 * 1.4142 <? 565.75)%float = true.
Proof.
  intros Hr availableW availableH baseW box.
  assert (Hbox : box =
    if (availableW <=? 0)%float || (availableH <=? 0)%float then None
    else Some (mkSize (baseW * zoom) (baseW * zoom * ratio))).
  { unfold box, Viewport.pageBox. rewrite (positive_not_falsy _ Hr), Hr. reflexivity. }
  repeat split; try reflexivity.
  - rewrite Hbox. destruct (availableW <=? 0)%float; [auto|].
    destruct (availableH <=? 0)%float; [auto|]. discriminate.
  - rewrite Hbox. intros [-> | ->]; [reflexivity|].
    rewrite orb_true_r. reflexivity.
  - rewrite Hbox. destruct (_ || _); [congruence | reflexivity].
Qed.

(** The sizing example of the specification, through the theorem. *)
Lemma targetPageSize_box_witness :
  Viewport.Mobile.targetPageSize 416 1076 (Some 1.4142%float) 1 =
    Some (mkSize 400 (400 * 1.4142))
  /\ (565.65 <? 400 * 1.4142)%float = true /\ (400 * 1.4142 <? 565.75)%float = true.
Proof.
  pose proof (targetPageSize_box 8 8 60 true 416 1076 1.4142 1 eq_refl) as H.
  cbv zeta in H.
  destruct H as (_ & _ & _ & _ & _ & H1 & _ & H2 & H3).
  exact (conj H1 (conj H2 H3)).
Defined.

(** ** Zoom *)

Lemma level_cases (P : Z -> Prop) :
  P 7 -> P 8 -> P 9 -> P 10 -> P 11 -> P 12 -> P 13 -> P 14 -> P 15 -> P 16 ->
  P 17 -> P 18 -> P 19 -> P 20 -> P 21 -> P 22 -> P 23 -> P 24 -> P 25 ->
  forall k, 7 <= k <= 25 -> P k.
Proof.
  intros ? ? ? ? ? ? ? ? ? ? ? ? ? ? ? ? ? ? ? k Hk.
  assert (k = 7 \/ k = 8 \/ k = 9 \/ k = 10 \/ k = 11 \/ k = 12 \/ k = 13 \/ k = 14
          \/ k = 15 \/ k = 16 \/ k = 17 \/ k = 18 \/ k = 19 \/ k = 20 \/ k = 21
          \/ k = 22 \/ k = 23 \/ k = 24 \/ k = 25) as Hc by lia.
  repeat (destruct Hc as [-> | Hc]; [assumption|]). subst. assumption.
Qed.

(** On the tenths between 0.7 and 2.5 the buttons step by one tenth and stop
    at the ends; every intermediate value is computed in binary64. *)
Lemma onZoomIn_level (k : Z) :
  7 <= k <= 25 -> Zoom.onZoomIn (Zoom.level k) = Zoom.level (Z.min 25 (k + 1)).
Proof. revert k. apply level_cases; vm_compute; reflexivity. Qed.

Lemma onZoomOut_level (k : Z) :
  7 <= k <= 25 -> Zoom.onZoomOut (Zoom.level k) = Zoom.level (Z.max 7 (k - 1)).
Proof. revert k. apply level_cases; vm_compute; reflexivity. Qed.

Lemma level_bounds (k : Z) :
  7 <= k <= 25 ->
  (0.7 <=? Zoom.level k)%float = true /\ (Zoom.level k <=? 2.5)%float = true.
Proof. revert k. apply level_cases; vm_compute; split; reflexivity. Qed.

Lemma fold_apply_level (ops : list Zoom.Op) (k : Z) :
  7 <= k <= 25 ->
  exists k', 7 <= k' <= 25 /\ fold_left Zoom.apply ops (Zoom.level k) = Zoom.level k'.
Proof.
  revert k. induction ops as [|op ops IH]; intros k Hk; simpl.
  - exists k. split; [lia | reflexivity].
  - destruct op; simpl.
    + rewrite onZoomIn_level by lia. apply IH. lia.
    + rewrite onZoomOut_level by lia. apply IH. lia.
Qed.

(** C8.  From the initial zoom 1.0, after any sequence of zoom-in and
    zoom-out clicks the zoom factor lies between 0.7 and 2.5. *)
Theorem zoom_within_bounds (ops : list Zoom.Op) :
  (0.7 <=? Zoom.after ops)%float = true /\ (Zoom.after ops <=? 2.5)%float = true.
Proof.
  unfold Zoom.after.
  change Zoom.initial with (Zoom.level 10).
  destruct (fold_apply_level ops 10 ltac:(lia)) as (k & Hk & ->).
  apply level_bounds, Hk.
Qed.

(** ** Navigation *)

Lemma navTo_dropped (numPages : Z) (dir : Nav.Dir) (now : float) (st : Nav.State) :
  (now - Nav.lastNavAtRef st <? 240)%float = true ->
  Nav.Mobile.navTo numPages dir now st = st.
Proof.
  intros H. unfold Nav.Mobile.navTo. destruct (Nav.flipbookRef st); [|reflexivity].
  rewrite H. reflexivity.
Qed.

Lemma navTo_forwarded (numPages : Z) (dir : Nav.Dir) (now : float) (st : Nav.State)
    (api : Nav.PageFlip) :
  Nav.flipbookRef st = Some api ->
  (now - Nav.lastNavAtRef st <? 240)%float = false ->
  let curIdx := match Nav.getCurrentPageIndex api with
                | Some c => c | None => Nav.pageIndexRef st end in
  let st' := Nav.Mobile.navTo numPages dir now st in
  Nav.lastNavAtRef st' = now
  /\ Nav.pageIndexRef st' = Nav.pageIndexRef st
  /\ Nav.calls st' = Nav.calls st ++ issued numPages dir curIdx
  /\ Nav.flipbookRef st' =
     match issued numPages dir curIdx with
     | Nav.TurnToPage target :: _ => Some (Nav.turnToPage target api)
     | _ => Some api
     end.
Proof.
  intros Hapi Hg curIdx st'.
  unfold st', Nav.Mobile.navTo, issued. rewrite Hapi, Hg. fold curIdx.
  destruct (_ =? curIdx); simpl; rewrite ?app_nil_r; auto.
Qed.

(** C9 (as the mobile component has it).  Once an intent has been accepted
    at time [t1], a second one at [t2] is dropped when [t2 - t1 < 240]: no
    call is made and nothing changes.  Otherwise it is forwarded: the guard
    records [t2] and the page turn for the widget's current page is issued.
    Hence two [flipNext] with room for two advances produce one page turn
    when the second is dropped and two when it is not. *)
Theorem navTo_duplicate_guard
    (numPages : Z) (st : Nav.State) (api : Nav.PageFlip) (d1 d2 : Nav.Dir) (t1 t2 : float) :
  Nav.flipbookRef st = Some api ->
  (t1 - Nav.lastNavAtRef st <? 240)%float = false ->
  let st1 := Nav.Mobile.navTo numPages d1 t1 st in
  let st2 := Nav.Mobile.navTo numPages d2 t2 st1 in
  (if (t2 - t1 <? 240)%float
   then st2 = st1
   else Nav.lastNavAtRef st2 = t2 /\
        exists api1, Nav.flipbookRef st1 = Some api1 /\
          Nav.calls st2 = Nav.calls st1 ++
            issued numPages d2 (match Nav.getCurrentPageIndex api1 with
                                | Some c => c | None => Nav.pageIndexRef st1 end))
  /\ (forall c, d1 = Nav.next -> d2 = Nav.next ->
        Nav.getCurrentPageIndex api = Some c -> 0 <= c -> c + 2 <= numPages - 1 ->
        Nav.turns st2 =
          (Nav.turns st + if (t2 - t1 <? 240)%float then 1 else 2)%nat).
Proof.
  intros Hapi Hg st1 st2.
  destruct (navTo_forwarded numPages d1 t1 st api Hapi Hg) as (Hl & Hp & Hc & Hf).
  fold st1 in Hl, Hp, Hc, Hf.
  assert (Hapi1 : exists api1, Nav.flipbookRef st1 = Some api1).
  { rewrite Hf. destruct (issued _ _ _) as [|[] ?]; eauto. }
  destruct Hapi1 as [api1 Hapi1].
  split.
  - destruct (t2 - t1 <? 240)%float eqn:E.
    + unfold st2. apply navTo_dropped. rewrite Hl. exact E.
    + assert (Hg2 : (t2 - Nav.lastNavAtRef st1 <? 240)%float = false) by (rewrite Hl; exact E).
      destruct (navTo_forwarded numPages d2 t2 st1 api1 Hapi1 Hg2) as (Hl2 & _ & Hc2 & _).
      split; [exact Hl2|]. exists api1. split; [exact Hapi1 | exact Hc2].
  - intros c -> -> Hcur H0 H2.
    rewrite Hcur in Hc, Hf. unfold issued in Hc, Hf.
    replace (Z.max 0 (Z.min (Z.max 0 (numPages - 1)) (c + 1))) with (c + 1) in Hc, Hf by lia.
    assert (Hne : (c + 1 =? c) = false) by lia. rewrite Hne in Hc, Hf.
    assert (Ht1 : Nav.turns st1 = (Nav.turns st + 1)%nat).
    { unfold Nav.turns. rewrite Hc, List.filter_app, length_app. reflexivity. }
    destruct (t2 - t1 <? 240)%float eqn:E.
    + unfold st2. rewrite navTo_dropped by (rewrite Hl; exact E). exact Ht1.
    + assert (Hg2 : (t2 - Nav.lastNavAtRef st1 <? 240)%float = false) by (rewrite Hl; exact E).
      destruct (navTo_forwarded numPages Nav.next t2 st1 _ Hf Hg2) as (_ & _ & Hc2 & _).
      fold st2 in Hc2. simpl in Hc2. unfold issued in Hc2.
      replace (Z.max 0 (Z.min (Z.max 0 (numPages - 1)) (c + 1 + 1))) with (c + 1 + 1) in Hc2 by lia.
      assert (Hne2 : (c + 1 + 1 =? c + 1) = false) by lia. rewrite Hne2 in Hc2.
      unfold Nav.turns in *. rewrite Hc2, List.filter_app, length_app, Ht1. simpl. lia.
Qed.

(** Two [flipNext] 50ms apart turn one page, 300ms apart two. *)
Lemma navTo_duplicate_guard_witness :
  Nav.turns (Nav.Mobile.flipNext 10 1050 (Nav.Mobile.flipNext 10 1000 tenPages)) = 1%nat
  /\ Nav.turns (Nav.Mobile.flipNext 10 1300 (Nav.Mobile.flipNext 10 1000 tenPages)) = 2%nat.
Proof.
  split.
  - exact (proj2 (navTo_duplicate_guard 10 tenPages _ Nav.next Nav.next 1000 1050
                    eq_refl eq_refl)
                 0 eq_refl eq_refl eq_refl ltac:(lia) ltac:(lia)).
  - exact (proj2 (navTo_duplicate_guard 10 tenPages _ Nav.next Nav.next 1000 1300
                    eq_refl eq_refl)
                 0 eq_refl eq_refl eq_refl ltac:(lia) ltac:(lia)).
Defined.

(** C9 as stated fails on the desktop component: its buttons call the widget
    directly, so two clicks 50ms apart are both forwarded. *)
Lemma desktop_click_not_guarded :
  let st1 := Nav.Desktop.onClick Nav.next 1000 tenPages in
  let st2 := Nav.Desktop.onClick Nav.next 1050 st1 in
  (1050 - 1000 <? 240)%float = true
  /\ Nav.calls st1 = [Nav.FlipNext]
  /\ Nav.calls st2 = [Nav.FlipNext; Nav.FlipNext]
  /\ Nav.turns st2 = 2%nat
  /\ st2 <> st1.
Proof. repeat split; try reflexivity. discriminate. Qed.

(** C10.  In the mobile component, past the duplicate guard and with the
    widget on page [c] of [numPages], [navTo] aims at [c + 1] or [c - 1]
    clamped to the book.  When that is [c] itself (next on the last page, prev
    on the first) it turns no page and requests no render, yet the time of
    the intent is recorded; otherwise it turns to the target, syncs and
    requests a render. *)
Theorem navTo_boundary
    (numPages : Z) (dir : Nav.Dir) (now : float) (st : Nav.State) (api : Nav.PageFlip) (c : Z) :
  Nav.flipbookRef st = Some api ->
  Nav.getCurrentPageIndex api = Some c ->
  0 <= c <= numPages - 1 ->
  (now - Nav.lastNavAtRef st <? 240)%float = false ->
  let target :=
    Z.max 0 (Z.min (numPages - 1) (match dir with Nav.next => c + 1 | Nav.prev => c - 1 end)) in
  let st' := Nav.Mobile.navTo numPages dir now st in
  Nav.lastNavAtRef st' = now
  /\ (target = c <-> (dir = Nav.next /\ c = numPages - 1) \/ (dir = Nav.prev /\ c = 0))
  /\ (target = c -> Nav.calls st' = Nav.calls st /\ Nav.flipbookRef st' = Nav.flipbookRef st)
  /\ (target <> c ->
      Nav.calls st' = Nav.calls st ++ [Nav.TurnToPage target; Nav.SyncAfterFlip; Nav.ScheduleRender]
      /\ Nav.flipbookRef st' = Some (Nav.turnToPage target api)).
Proof.
  intros Hapi Hcur Hc Hg target st'.
  destruct (navTo_forwarded numPages dir now st api Hapi Hg) as (Hl & _ & Hcalls & Hf).
  fold st' in Hl, Hcalls, Hf. rewrite Hcur in Hcalls, Hf.
  unfold issued in Hcalls, Hf.
  replace (Z.max 0 (numPages - 1)) with (numPages - 1) in Hcalls, Hf by lia.
  fold target in Hcalls, Hf.
  split; [exact Hl|]. split; [|split].
  - unfold target. destruct dir; split.
    + intros H. right. split; [reflexivity | lia].
    + intros [[? _] | [_ ->]]; [discriminate | lia].
    + intros H. left. split; [reflexivity | lia].
    + intros [[_ ->] | [? _]]; [lia | discriminate].
  - intros E. rewrite E, Z.eqb_refl in Hcalls, Hf. simpl in Hcalls.
    rewrite app_nil_r in Hcalls. rewrite Hapi. auto.
  - intros E. apply Z.eqb_neq in E. rewrite E in Hcalls, Hf. auto.
Qed.

(** On the last of ten pages [flipNext] turns nothing but restarts the guard. *)
Lemma navTo_boundary_witness :
  let st := {| Nav.flipbookRef := Some {| Nav.getCurrentPageIndex := Some 9 |};
               Nav.lastNavAtRef := 0; Nav.pageIndexRef := 9; Nav.calls := [] |} in
  let st' := Nav.Mobile.navTo 10 Nav.next 1000 st in
  Nav.lastNavAtRef st' = 1000%float /\ Nav.calls st' = [].
Proof.
  intros st st'.
  destruct (navTo_boundary 10 Nav.next 1000 st _ 9 eq_refl eq_refl ltac:(lia) eq_refl)
    as (Hl & _ & Hsame & _).
  split; [exact Hl|]. exact (proj1 (Hsame eq_refl)).
Defined.

(** ** The wanted window *)

Lemma in_range (a b p : Z) : In p (Scheduler.range a b) <-> a <= p <= b.
Proof.
  unfold Scheduler.range. rewrite in_map_iff. split.
  - intros (k & <- & Hk). apply in_seq in Hk. lia.
  - intros H. exists (Z.to_nat (p - a)). split; [lia|]. apply in_seq. lia.
Qed.

Lemma range_sorted (a b : Z) : StronglySorted Z.lt (Scheduler.range a b).
Proof.
  unfold Scheduler.range. generalize (Z.to_nat (b - a + 1)) as n. intros n.
  generalize 0%nat as k. induction n as [|n IH]; intros k; simpl; constructor.
  - apply IH.
  - apply List.Forall_forall. intros x Hx. apply in_map_iff in Hx.
    destruct Hx as (j & <- & Hj). apply in_seq in Hj. lia.
Qed.

(** C2.  For a book of [N >= 1] pages open at page index [i], a pass wants
    exactly the pages from [max(1, (i+1) - 4)] to [min(N, (i+1) + 10)] in
    spread layout and from [max(1, (i+1) - 2)] to [min(N, (i+1) + 4)] in
    narrow layout (the only layout of the mobile component), in ascending
    order; for N = 10, i = 5 and spread layout these are the pages 2 to 10. *)
Theorem want_is_window (variant : Scheduler.Variant) (isNarrow : bool) (N i : Z) :
  1 <= N -> 0 <= i <= N - 1 ->
  let narrow := match variant with Scheduler.Mobile => true | Scheduler.Desktop => isNarrow end in
  let lo := Z.max 1 ((i + 1) - (if narrow then 2 else 4)) in
  let hi := Z.min N ((i + 1) + (if narrow then 4 else 10)) in
  (forall p, In p (Scheduler.want variant isNarrow N i) <-> lo <= p <= hi)
  /\ StronglySorted Z.lt (Scheduler.want variant isNarrow N i)
  /\ Scheduler.want Scheduler.Desktop false 10 5 = [2; 3; 4; 5; 6; 7; 8; 9; 10].
Proof.
  intros HN Hi narrow lo hi. split; [|split].
  - intros p. unfold Scheduler.want. rewrite in_range.
    replace (Z.max 0 (Z.min (N - 1) i)) with i by lia.
    unfold lo, hi, narrow, Scheduler.behind, Scheduler.ahead.
    destruct variant, isNarrow; reflexivity.
  - apply range_sorted.
  - reflexivity.
Qed.

Lemma want_is_window_witness :
  In 2 (Scheduler.want Scheduler.Desktop false 10 5)
  /\ In 10 (Scheduler.want Scheduler.Desktop false 10 5).
Proof.
  pose proof (proj1 (want_is_window Scheduler.Desktop false 10 5 ltac:(lia) ltac:(lia))) as H.
  split; apply H; lia.
Defined.

(** Outside the book the page index is clamped first. *)
Lemma want_clamps (variant : Scheduler.Variant) (isNarrow : bool) (N i : Z) :
  Scheduler.want variant isNarrow N i =
  Scheduler.want variant isNarrow N (Z.max 0 (Z.min (N - 1) i)).
Proof. unfold Scheduler.want. f_equal; f_equal; lia. Qed.

(** ** Sets of pages *)

Lemma has_In (p : Z) (s : list Z) : Scheduler.PageSet.has p s = true <-> In p s.
Proof.
  unfold Scheduler.PageSet.has. rewrite existsb_exists. split.
  - intros (x & Hx & E). apply Z.eqb_eq in E. subst. exact Hx.
  - intros H. exists p. split; [exact H | apply Z.eqb_refl].
Qed.

Lemma has_false (p : Z) (s : list Z) : Scheduler.PageSet.has p s = false <-> ~ In p s.
Proof. rewrite <- has_In. destruct (Scheduler.PageSet.has p s); split; congruence. Qed.

Lemma In_add (p q : Z) (s : list Z) : In p (Scheduler.PageSet.add q s) <-> p = q \/ In p s.
Proof.
  unfold Scheduler.PageSet.add. destruct (Scheduler.PageSet.has q s) eqn:E.
  - apply has_In in E. split; [auto|]. intros [-> | H]; assumption.
  - rewrite in_app_iff. simpl. intuition.
Qed.

Lemma In_delete (p q : Z) (s : list Z) :
  In p (Scheduler.PageSet.delete q s) <-> In p s /\ p <> q.
Proof.
  unfold Scheduler.PageSet.delete. rewrite filter_In, negb_true_iff, Z.eqb_neq. tauto.
Qed.

(** ** The cache under the operations of the scheduler *)

Section CacheFacts.
Import Scheduler CacheMoves.
Variable variant : Variant.
Variable devicePixelRatio : float.

Lemma Marks_rendered c c' : Marks c c' -> renderedPages c' = renderedPages c.
Proof. induction 1 as [|c p c' _ _ _ IH]; [reflexivity | exact IH]. Qed.

Lemma Marks_trans c1 c2 c3 : Marks c1 c2 -> Marks c2 c3 -> Marks c1 c3.
Proof. induction 1; [auto | intros; eapply marks_cons; eauto]. Qed.

Lemma Marks_one c p :
  PageSet.has p (renderedPages c) = false -> PageSet.has p (inflightPages c) = false ->
  Marks c (mark p c).
Proof. intros. eapply marks_cons; eauto. constructor. Qed.

Lemma Marks_disjoint c c' : Marks c c' -> Disjoint c -> Disjoint c'.
Proof.
  induction 1 as [|c p c' Hr Hi _ IH]; [auto|]. intros D. apply IH.
  intros q [Hq1 Hq2]. simpl in *. apply In_add in Hq2. destruct Hq2 as [-> | Hq2].
  - apply has_false in Hr. auto.
  - apply (D q). auto.
Qed.

Lemma Change_disjoint c c' : Change c c' -> Disjoint c -> Disjoint c'.
Proof.
  destruct 1 as [c c' M | c key | c p | c p]; intros D.
  - eapply Marks_disjoint; eauto.
  - intros q [[] _].
  - intros q [H1 H2]. simpl in *. apply In_delete in H2. apply (D q). tauto.
  - intros q [H1 H2]. simpl in *. apply In_add in H1. apply In_delete in H2.
    destruct H1 as [-> | H1]; [tauto|]. apply (D q). tauto.
Qed.

(** A page that an event puts in flight was in neither set. *)
Lemma Marks_enter c c' p :
  Marks c c' -> In p (inflightPages c') -> ~ In p (inflightPages c) ->
  ~ In p (renderedPages c).
Proof.
  induction 1 as [|c q c' Hr Hi _ IH]; intros Hin Hout; [tauto|].
  destruct (Z.eq_dec p q) as [-> | Hne].
  - apply has_false. exact Hr.
  - apply IH; [exact Hin|]. simpl. rewrite In_add. tauto.
Qed.

Lemma Change_enter c c' p :
  Change c c' -> In p (inflightPages c') -> ~ In p (inflightPages c) ->
  ~ In p (renderedPages c) /\ ~ In p (renderedPages c').
Proof.
  destruct 1 as [c c' M | c key | c q | c q]; simpl; intros Hin Hout.
  - rewrite (Marks_rendered _ _ M). split; eapply Marks_enter; eauto.
  - destruct Hin.
  - apply In_delete in Hin. tauto.
  - apply In_delete in Hin. tauto.
Qed.

(** A page that an event marks rendered is out of the in-flight set. *)
Lemma Change_rendered c c' p :
  Change c c' -> In p (renderedPages c') -> ~ In p (renderedPages c) ->
  ~ In p (inflightPages c').
Proof.
  destruct 1 as [c c' M | c key | c q | c q]; simpl; intros Hin Hout.
  - rewrite (Marks_rendered _ _ M) in Hin. tauto.
  - destruct Hin.
  - tauto.
  - apply In_add in Hin. destruct Hin as [-> | Hin]; [|tauto].
    rewrite In_delete. tauto.
Qed.

Lemma cache_clearTimeout id s : cache (clearTimeout id s) = cache s.
Proof. reflexivity. Qed.

Lemma cache_clearScheduleTimer s : cache (clearScheduleTimer s) = cache s.
Proof. unfold clearScheduleTimer. destruct (scheduleTimer _); reflexivity. Qed.

Lemma cache_schedule pid s : cache (schedule pid s) = cache s.
Proof.
  unfold schedule. destruct (_ !! _) as [ps|]; [|reflexivity].
  destruct (cancelled ps); [reflexivity|]. simpl. apply cache_clearScheduleTimer.
Qed.

Lemma cache_requestRender s : cache (requestRender s) = cache s.
Proof. unfold requestRender. destruct (scheduleRender _); [apply cache_schedule | reflexivity]. Qed.

Lemma cache_cleanup pid s : cache (cleanup pid s) = cache s.
Proof.
  unfold cleanup. destruct (_ !! _) as [ps|]; [|reflexivity]. simpl.
  unfold clearScheduleTimer. simpl. destruct (scheduleTimer _); reflexivity.
Qed.

Lemma cache_changeover key s :
  cache (changeover key s) = cache s \/ cache (changeover key s) = cleared key.
Proof. unfold changeover. destruct (sameKey _ _); [left | right]; reflexivity. Qed.

Lemma Change_same c c' : c' = c -> Change c c'.
Proof. intros ->. apply change_marks, marks_nil. Qed.

Lemma cache_effectBody n sz z narrow s :
  Change (cache s) (cache (effectBody n sz z narrow s)).
Proof.
  unfold effectBody. cbn [cache setLiveEffect withComp].
  rewrite cache_schedule. cbn [cache setScheduleRender withComp].
  match goal with |- Change _ (cache (changeover ?k ?x)) =>
    destruct (cache_changeover k x) as [E | E]; rewrite E end.
  - apply Change_same. reflexivity.
  - apply change_clear.
Qed.

Lemma cache_runEffect doc pageSize n z narrow s :
  Change (cache s) (cache (runEffect doc pageSize n z narrow s)).
Proof.
  unfold runEffect.
  assert (E1 : cache (match liveEffect (comp s) with
                      | Some old => cleanup old s | None => s end) = cache s).
  { destruct (liveEffect _); [apply cache_cleanup | reflexivity]. }
  revert E1. generalize (match liveEffect (comp s) with
                         | Some old => cleanup old s | None => s end).
  intros s1 E1. rewrite <- E1.
  destruct doc; [|apply Change_same; reflexivity].
  destruct pageSize as [sz|]; [|apply Change_same; reflexivity].
  destruct (n <=? 0); [apply Change_same; reflexivity|].
  apply cache_effectBody.
Qed.

Lemma cache_renderOne pid p s :
  cache (fst (renderOne pid p s)) = cache s \/
  (PageSet.has p (renderedPages (cache s)) = false /\
   PageSet.has p (inflightPages (cache s)) = false /\
   cache (fst (renderOne pid p s)) = mark p (cache s)).
Proof.
  unfold renderOne. destruct (_ !! _) as [ps|]; [|auto].
  destruct (cancelled ps); [auto|]. destruct (_ || _); [auto|].
  destruct (negb _); [auto|].
  unfold rendered, inflight.
  destruct (PageSet.has p (renderedPages (cache s))) eqn:E1; [auto|].
  destruct (PageSet.has p (inflightPages (cache s))) eqn:E2; [auto|].
  right. auto.
Qed.

Lemma cache_loop pid cur todo started s :
  Marks (cache s) (cache (fst (loop pid cur todo started s))).
Proof.
  unfold loop. destruct todo as [|p todo].
  - cbn [fst]. destruct (_ || _); constructor.
  - destruct (_ !! _) as [ps|]; [|constructor].
    destruct (cancelled ps); [constructor|].
    pose proof (cache_renderOne pid p s) as H.
    destruct (renderOne pid p s) as [s1 pt]. simpl in *.
    destruct H as [-> | (Hr & Hi & ->)]; [constructor | apply Marks_one; assumption].
Qed.

Lemma cache_renderWindow pid s : Marks (cache s) (cache (renderWindow variant pid s)).
Proof.
  unfold renderWindow. destruct (_ !! _) as [ps|]; [|constructor].
  match goal with |- context [loop ?a ?b ?c ?d ?e] =>
    pose proof (cache_loop a b c d e) as H; destruct (loop a b c d e) as [s2 win] end.
  exact H.
Qed.

Lemma cache_fire fuel target s : Marks (cache s) (cache (fire variant fuel target s)).
Proof.
  revert s. induction fuel as [|fuel IH]; intros s; simpl; [constructor|].
  destruct (nextDue _ _) as [tm|]; [|constructor].
  eapply Marks_trans; [|apply IH]. apply (cache_renderWindow _ (setClock _ (clearTimeout _ s))).
Qed.

Lemma cache_giveUp wid win p s : cache (giveUp wid win p s) = unmark p (cache s).
Proof. reflexivity. Qed.

(** Every event moves the cache by one [Change]. *)
Lemma step_change s e s' :
  step variant devicePixelRatio s e = Some s' -> Change (cache s) (cache s').
Proof.
  destruct e as [doc ps n z narrow | idx [ctx|] | data | idx | | dt | wid | wid | wid [err|page] | wid r];
    simpl; intros H.
  - injection H as <-. apply cache_runEffect.
  - injection H as <-. apply Change_same; reflexivity.
  - injection H as <-. apply Change_same; reflexivity.
  - injection H as <-. rewrite cache_requestRender. apply Change_same; reflexivity.
  - injection H as <-. apply Change_same; reflexivity.
  - injection H as <-. apply Change_same, cache_requestRender.
  - unfold advance in H. destruct (dt <? 0); [discriminate|]. injection H as <-.
    constructor. apply (cache_fire _ _ s).
  - unfold frame in H. destruct (windows (comp s) !! wid) as [win|]; simpl in H; [|discriminate].
    destruct (point win); try discriminate.
    destruct (passes (comp s) !! pass win) as [ps|]; simpl in H; [|discriminate]. injection H as <-.
    apply Change_same; reflexivity.
  - unfold resume in H. destruct (windows (comp s) !! wid) as [win|]; simpl in H; [|discriminate].
    destruct (point win) as [ | p [c|] | | | p | | ]; try discriminate.
    + injection H as <-. apply Change_same; reflexivity.
    + injection H as <-. rewrite cache_giveUp. apply change_unmark.
    + destruct (passes (comp s) !! pass win) as [ps|]; simpl in H; [|discriminate].
      match type of H with context [loop ?a ?b ?c ?d ?e] =>
        pose proof (cache_loop a b c d e) as HM; destruct (loop a b c d e) as [s2 win'] end.
      injection H as <-. constructor. simpl in HM.
      destruct variant; exact HM.
  - unfold getPageFailed in H. destruct (windows (comp s) !! wid) as [win|]; simpl in H; [|discriminate].
    destruct (point win); try discriminate. injection H as <-. apply Change_same; reflexivity.
  - unfold gotPage in H. destruct (windows (comp s) !! wid) as [win|]; simpl in H; [|discriminate].
    destruct (point win) as [ | | p c | | | | ]; try discriminate.
    destruct (passes (comp s) !! pass win) as [ps|]; simpl in H; [|discriminate].
    destruct (cancelled ps).
    { injection H as <-. rewrite cache_giveUp. apply change_unmark. }
    destruct (canvases (dom s) !! c) as [cv|]; simpl in H; [|discriminate].
    destruct (negb _); injection H as <-.
    + rewrite cache_giveUp. apply change_unmark.
    + apply Change_same; reflexivity.
  - unfold settled in H. destruct (windows (comp s) !! wid) as [win|]; simpl in H; [|discriminate].
    destruct (point win) as [ | | | p c t | | | ]; try discriminate.
    destruct (passes (comp s) !! pass win) as [ps|]; simpl in H; [|discriminate].
    destruct (tasks (host s) !! t) as [ts|]; simpl in H; [|discriminate].
    match type of H with (if ?b then _ else _) = _ => destruct b end; [|discriminate].
    destruct r as [e|]; injection H as <-.
    + rewrite cache_giveUp. destruct (benign e); apply change_unmark.
    + exact (change_finish (cache s) p).
Qed.

Lemma run_disjoint es : forall s s',
  run variant devicePixelRatio s es = Some s' ->
  Disjoint (cache s) -> Disjoint (cache s').
Proof.
  induction es as [|e es IH]; simpl; intros s s' H D.
  - injection H as <-. exact D.
  - destruct (step _ _ s e) as [s1|] eqn:E; [|discriminate]. simpl in H.
    eapply IH; [exact H|]. eapply Change_disjoint; [|exact D].
    eapply step_change; eauto.
Qed.

End CacheFacts.

(** C7.  In every state the component can reach, no page is both in the
    rendered set and in the in-flight set.  An event puts a page in flight
    only if it was in neither set, and a page it marks rendered is not in
    flight afterwards. *)
Theorem rendered_inflight_disjoint
    (variant : Scheduler.Variant) (devicePixelRatio : float)
    (es : list Scheduler.Event) (s : Scheduler.State) :
  Scheduler.run variant devicePixelRatio Scheduler.initial es = Some s ->
  (forall p, ~ (In p (Scheduler.rendered s) /\ In p (Scheduler.inflight s)))
  /\ forall e s', Scheduler.step variant devicePixelRatio s e = Some s' ->
       (forall p, ~ (In p (Scheduler.rendered s') /\ In p (Scheduler.inflight s')))
       /\ (forall p, In p (Scheduler.inflight s') -> ~ In p (Scheduler.inflight s) ->
                     ~ In p (Scheduler.rendered s) /\ ~ In p (Scheduler.rendered s'))
       /\ (forall p, In p (Scheduler.rendered s') -> ~ In p (Scheduler.rendered s) ->
                     ~ In p (Scheduler.inflight s')).
Proof.
  intros Hrun.
  assert (D : CacheMoves.Disjoint (Scheduler.cache s)).
  { eapply run_disjoint; [exact Hrun|]. intros p [[] _]. }
  split; [exact D|]. intros e s' Hstep.
  pose proof (step_change _ _ _ _ _ Hstep) as C.
  split; [|split].
  - exact (Change_disjoint _ _ C D).
  - intros p. apply Change_enter. exact C.
  - intros p. apply Change_rendered. exact C.
Qed.

(** ** Debounced scheduling *)

Section Debounce.
Import Scheduler.
Variable variant : Variant.
Variable devicePixelRatio : float.

Lemma renderOne_keeps pid p s :
  host (fst (renderOne pid p s)) = host s
  /\ windows (comp (fst (renderOne pid p s))) = windows (comp s).
Proof.
  unfold renderOne. destruct (_ !! _) as [ps|]; [|auto].
  destruct (cancelled ps); [auto|]. destruct (_ || _); [auto|].
  destruct (negb _); [auto|]. destruct (_ || _); auto.
Qed.

Lemma loop_keeps pid cur todo started s :
  host (fst (loop pid cur todo started s)) = host s
  /\ windows (comp (fst (loop pid cur todo started s))) = windows (comp s)
  /\ pass (snd (loop pid cur todo started s)) = pid
  /\ startedAt (snd (loop pid cur todo started s)) = started.
Proof.
  unfold loop. destruct todo as [|p todo].
  - cbn [fst snd]. destruct (_ || _); auto.
  - destruct (_ !! _) as [ps|]; [|auto]. destruct (cancelled ps); [auto|].
    pose proof (renderOne_keeps pid p s) as H.
    destruct (renderOne pid p s) as [s1 pt]. simpl in *. tauto.
Qed.

(** A call of [renderWindow] is one more window, started now. *)
Lemma renderWindow_starts pid ps s :
  passes (comp s) !! pid = Some ps ->
  exists win,
    windows (comp (renderWindow variant pid s)) = windows (comp s) ++ [win]
    /\ pass win = pid /\ startedAt win = clock (host s)
    /\ host (renderWindow variant pid s) = host s.
Proof.
  intros E. unfold renderWindow. rewrite E.
  match goal with |- context [loop ?a ?b ?c ?d ?e] =>
    pose proof (loop_keeps a b c d e) as H; destruct (loop a b c d e) as [s2 win] end.
  simpl in H. destruct H as (Hh & Hw & Hp & Hs).
  exists win. simpl. rewrite Hw. auto.
Qed.

(** [schedule] leaves exactly one timer pending, 160ms from now. *)
Lemma requestRender_arms pid ps s :
  scheduleRender (comp s) = Some pid ->
  passes (comp s) !! pid = Some ps ->
  cancelled ps = false ->
  (forall tm, In tm (timers (host s)) -> scheduleTimer (comp s) = Some (timerId tm)) ->
  let s' := requestRender s in
  timers (host s') = [{| timerId := nextTimerId (host s);
                         deadline := clock (host s) + 160; owner := pid |}]
  /\ scheduleTimer (comp s') = Some (nextTimerId (host s))
  /\ clock (host s') = clock (host s)
  /\ windows (comp s') = windows (comp s)
  /\ passes (comp s') = passes (comp s)
  /\ scheduleRender (comp s') = Some pid.
Proof.
  intros Hs Hp Hc Ht. unfold requestRender, schedule. rewrite Hs, Hp, Hc.
  assert (E : timers (host (clearScheduleTimer s)) = []
              /\ clock (host (clearScheduleTimer s)) = clock (host s)
              /\ nextTimerId (host (clearScheduleTimer s)) = nextTimerId (host s)
              /\ comp (clearScheduleTimer s) = comp s).
  { unfold clearScheduleTimer. destruct (scheduleTimer (comp s)) as [id|] eqn:Eid.
    - simpl. repeat split.
      induction (timers (host s)) as [|tm ts IH]; [reflexivity|]. simpl.
      assert (Some id = Some (timerId tm)) as [= ->] by (apply Ht; left; reflexivity).
      rewrite Nat.eqb_refl. simpl. apply IH. intros tm' Hin. apply Ht. right. exact Hin.
    - repeat split. destruct (timers (host s)) as [|tm ts]; [reflexivity|].
      discriminate (Ht tm (or_introl eq_refl)). }
  destruct E as (E1 & E2 & E3 & E4).
  unfold setTimeout. cbn -[clearScheduleTimer]. rewrite E1, E2, E3, E4, Hs.
  repeat split; reflexivity.
Qed.

Lemma advance_quiet tm dt s :
  timers (host s) = [tm] -> 0 <= dt -> clock (host s) + dt < deadline tm ->
  advance variant dt s = Some (setClock (clock (host s) + dt) s).
Proof.
  intros Ht Hd Hlt. unfold advance.
  destruct (dt <? 0) eqn:E; [lia|]. rewrite Ht. simpl. unfold nextDue. rewrite Ht. simpl.
  destruct (deadline tm <=? clock (host s) + dt) eqn:E'; [lia | reflexivity].
Qed.

Lemma advance_fires tm ps dt s :
  timers (host s) = [tm] -> passes (comp s) !! owner tm = Some ps ->
  clock (host s) <= deadline tm <= clock (host s) + dt ->
  exists s' win,
    advance variant dt s = Some s'
    /\ windows (comp s') = windows (comp s) ++ [win]
    /\ pass win = owner tm /\ startedAt win = deadline tm
    /\ timers (host s') = [].
Proof.
  intros Ht Hp Hd. unfold advance.
  destruct (dt <? 0) eqn:E; [lia|]. rewrite Ht. cbn [length fire].
  unfold nextDue. rewrite Ht. cbn [List.filter].
  destruct (deadline tm <=? clock (host s) + dt) eqn:E'; [|lia]. cbn [fold_left].
  set (s2 := setClock _ (clearTimeout (timerId tm) s)).
  assert (Hp2 : passes (comp s2) !! owner tm = Some ps) by exact Hp.
  destruct (renderWindow_starts _ _ _ Hp2) as (win & Hw & Hpass & Hstart & Hhost).
  eexists _, win. split; [reflexivity|]. cbn [setClock withHost comp host timers].
  rewrite Hw, Hhost. repeat split; try assumption.
  - rewrite Hstart. unfold s2. cbn. lia.
  - unfold s2. cbn. rewrite Ht. cbn. rewrite Nat.eqb_refl. reflexivity.
Qed.

End Debounce.

(** ** What the timers and [scheduleRenderRef] keep track of *)

Section Tracked.
Import Scheduler Tracking.
Variable variant : Variant.
Variable devicePixelRatio : float.

Lemma SameSched_refl s : SameSched s s.
Proof. repeat split. Qed.

Lemma tracked_same s s' : SameSched s s' -> Tracked s -> Tracked s'.
Proof. intros (E1 & E2 & E3 & E4) [T1 T2]. unfold Tracked. rewrite E1, E2, E3, E4. auto. Qed.

Lemma renderOne_same pid p s : SameSched s (fst (renderOne pid p s)).
Proof.
  unfold renderOne. destruct (_ !! _) as [ps|]; [|apply SameSched_refl].
  destruct (cancelled ps); [apply SameSched_refl|].
  destruct (_ || _); [apply SameSched_refl|].
  destruct (negb _); [apply SameSched_refl|].
  destruct (_ || _); repeat split.
Qed.

Lemma loop_same pid cur todo started s : SameSched s (fst (loop pid cur todo started s)).
Proof.
  unfold loop. destruct todo as [|p todo].
  - cbn [fst]. destruct (_ || _); repeat split.
  - destruct (_ !! _) as [ps|]; [|apply SameSched_refl].
    destruct (cancelled ps); [apply SameSched_refl|].
    pose proof (renderOne_same pid p s) as H.
    destruct (renderOne pid p s) as [s1 pt]. exact H.
Qed.

Lemma renderWindow_same pid s : SameSched s (renderWindow variant pid s).
Proof.
  unfold renderWindow. destruct (_ !! _) as [ps|]; [|apply SameSched_refl].
  match goal with |- context [loop ?a ?b ?c ?d ?e] =>
    pose proof (loop_same a b c d e) as H; destruct (loop a b c d e) as [s2 win] end.
  exact H.
Qed.

Lemma clearTimeout_tracked id s : Tracked s -> Tracked (clearTimeout id s).
Proof.
  intros [T1 T2]. split; [|exact T2]. intros tm Hin. simpl in Hin.
  apply filter_In in Hin. apply T1, Hin.
Qed.

Lemma clearScheduleTimer_empties s :
  Tracked s -> timers (host (clearScheduleTimer s)) = []
               /\ SameSched (setTimers [] (nextTimerId (host s)) s) (clearScheduleTimer s)
               /\ clock (host (clearScheduleTimer s)) = clock (host s)
               /\ nextTimerId (host (clearScheduleTimer s)) = nextTimerId (host s).
Proof.
  intros [T1 _]. unfold clearScheduleTimer.
  destruct (scheduleTimer (comp s)) as [id|] eqn:Eid.
  - assert (E : List.filter (fun t => negb (timerId t =? id)%nat) (timers (host s)) = []).
    { induction (timers (host s)) as [|tm ts IH]; [reflexivity|]. simpl.
      assert (Some id = Some (timerId tm)) as [= ->] by (apply T1; left; reflexivity).
      rewrite Nat.eqb_refl. simpl. apply IH. intros tm' Hin. apply T1. right. exact Hin. }
    unfold SameSched. simpl. rewrite E. repeat split.
  - assert (E : timers (host s) = []).
    { destruct (timers (host s)) as [|tm ts]; [reflexivity|].
      discriminate (T1 tm (or_introl eq_refl)). }
    unfold SameSched. simpl. rewrite E. repeat split.
Qed.

Lemma schedule_tracked pid s : Tracked s -> Tracked (schedule pid s).
Proof.
  intros T. unfold schedule. destruct (_ !! _) as [ps|]; [|exact T].
  destruct (cancelled ps); [exact T|].
  destruct (clearScheduleTimer_empties s T) as (E & (_ & _ & S3 & S4) & _ & _).
  destruct T as [_ T2]. unfold setTimeout. split.
  - cbn -[clearScheduleTimer]. rewrite E. intros tm [<- | []]. reflexivity.
  - cbn -[clearScheduleTimer]. rewrite S3, S4. exact T2.
Qed.

Lemma clearScheduleTimer_tracked s : Tracked s -> Tracked (clearScheduleTimer s).
Proof.
  intros T. unfold clearScheduleTimer.
  destruct (scheduleTimer (comp s)); [apply clearTimeout_tracked|]; exact T.
Qed.

Lemma cleanup_tracked pid s : Tracked s -> Tracked (cleanup pid s).
Proof.
  intros T. unfold cleanup. destruct (_ !! _) as [ps|]; [|exact T].
  match goal with |- Tracked (setTasks _ ?x) => apply (tracked_same x); [repeat split|] end.
  apply clearScheduleTimer_tracked. split.
  - exact (proj1 T).
  - cbn. intros q Hq. discriminate Hq.
Qed.

Lemma changeover_same key s : SameSched s (changeover key s).
Proof. unfold changeover. destruct (sameKey _ _); repeat split. Qed.

Lemma install_tracked (pid : PassId) ps s :
  (forall tm, In tm (timers (host s)) -> scheduleTimer (comp s) = Some (timerId tm)) ->
  passes (comp s) !! pid = Some ps -> cancelled ps = false ->
  Tracked (setScheduleRender (Some pid) s).
Proof.
  intros T1 Hp Hc. split; [exact T1|]. cbn. intros q [= <-]. eauto.
Qed.

Lemma effectBody_tracked n sz z narrow s :
  Tracked s -> Tracked (effectBody n sz z narrow s).
Proof.
  intros T. unfold effectBody.
  match goal with |- Tracked (setLiveEffect _ ?x) =>
    apply (tracked_same x); [repeat split|] end.
  apply schedule_tracked.
  match goal with |- Tracked (setScheduleRender (Some ?pid) (changeover ?k ?x)) =>
    destruct (changeover_same k x) as (E1 & E2 & E3 & E4);
    eapply (install_tracked pid _ (changeover k x)) end.
  - rewrite E1, E2. exact (proj1 T).
  - rewrite E4. cbn. apply list_lookup_middle. reflexivity.
  - reflexivity.
Qed.

Lemma runEffect_tracked doc pageSize n z narrow s :
  Tracked s -> Tracked (runEffect doc pageSize n z narrow s).
Proof.
  intros T. unfold runEffect.
  assert (T1 : Tracked (match liveEffect (comp s) with
                        | Some old => cleanup old s | None => s end)).
  { destruct (liveEffect _); [apply cleanup_tracked|]; exact T. }
  revert T1. generalize (match liveEffect (comp s) with
                         | Some old => cleanup old s | None => s end). intros s1 T1.
  destruct doc; [|exact T1]. destruct pageSize as [sz|]; [|exact T1].
  destruct (n <=? 0); [exact T1|]. apply effectBody_tracked, T1.
Qed.

Lemma fire_tracked fuel target s : Tracked s -> Tracked (fire variant fuel target s).
Proof.
  revert s. induction fuel as [|fuel IH]; intros s T; simpl; [exact T|].
  destruct (nextDue _ _) as [tm|]; [|exact T]. apply IH.
  eapply tracked_same; [apply renderWindow_same|].
  eapply (tracked_same (clearTimeout (timerId tm) s)); [repeat split|].
  apply clearTimeout_tracked, T.
Qed.

(** Updating the raster tasks of a pass keeps it as live as it was. *)
Lemma setRenderTasks_tracked (pid : PassId) ps ts s :
  passes (comp s) !! pid = Some ps ->
  Tracked s -> Tracked (setPasses (<[pid := setRenderTasks ts ps]> (passes (comp s))) s).
Proof.
  intros Hp [T1 T2]. split; [exact T1|]. cbn. intros q Hq.
  destruct (T2 q Hq) as (qs & Hqs & Hc).
  destruct (decide (pid = q)) as [E | Hne].
  - subst q. assert (qs = ps) as -> by congruence.
    exists (setRenderTasks ts ps). split; [|exact Hc].
    apply list_lookup_insert_eq. apply lookup_lt_Some in Hp. exact Hp.
  - exists qs. split; [|exact Hc]. rewrite list_lookup_insert_ne by exact Hne. exact Hqs.
Qed.

Lemma step_tracked s e s' :
  step variant devicePixelRatio s e = Some s' -> Tracked s -> Tracked s'.
Proof.
  destruct e as [doc ps n z narrow | idx [ctx|] | data | idx | | dt | wid | wid | wid [err|page] | wid r];
    simpl; intros H T.
  - injection H as <-. apply runEffect_tracked, T.
  - injection H as <-. exact T.
  - injection H as <-. exact T.
  - injection H as <-. unfold requestRender. cbn.
    destruct (scheduleRender (comp s)) as [pid|] eqn:E; [|exact T].
    apply (schedule_tracked pid (setPageIndexRef data s)). exact T.
  - injection H as <-. exact T.
  - injection H as <-. unfold requestRender.
    destruct (scheduleRender (comp s)); [apply schedule_tracked|]; exact T.
  - unfold advance in H. destruct (dt <? 0); [discriminate|]. injection H as <-.
    match goal with |- Tracked (setClock _ ?x) => apply (tracked_same x); [repeat split|] end.
    apply fire_tracked, T.
  - unfold frame in H.
    destruct (windows (comp s) !! wid) as [win|]; simpl in H; [|discriminate].
    destruct (point win); try discriminate.
    destruct (passes (comp s) !! pass win) as [ps|]; simpl in H; [|discriminate].
    injection H as <-. exact T.
  - unfold resume in H.
    destruct (windows (comp s) !! wid) as [win|]; simpl in H; [|discriminate].
    destruct (point win) as [ | p [c|] | | | p | | ]; try discriminate.
    + injection H as <-. exact T.
    + injection H as <-. exact T.
    + destruct (passes (comp s) !! pass win) as [ps|]; simpl in H; [|discriminate].
      match type of H with context [loop ?a ?b ?c ?d ?e] =>
        pose proof (loop_same a b c d e) as HS; destruct (loop a b c d e) as [s2 win'] end.
      injection H as <-. simpl in HS.
      eapply (tracked_same s2); [repeat split|].
      eapply tracked_same; [exact HS|]. destruct variant; exact T.
  - unfold getPageFailed in H.
    destruct (windows (comp s) !! wid) as [win|]; simpl in H; [|discriminate].
    destruct (point win); try discriminate. injection H as <-. exact T.
  - unfold gotPage in H.
    destruct (windows (comp s) !! wid) as [win|]; simpl in H; [|discriminate].
    destruct (point win) as [ | | p c | | | | ]; try discriminate.
    destruct (passes (comp s) !! pass win) as [ps|] eqn:Ep; simpl in H; [|discriminate].
    destruct (cancelled ps).
    { injection H as <-. exact T. }
    destruct (canvases (dom s) !! c) as [cv|]; simpl in H; [|discriminate].
    destruct (negb _); injection H as <-.
    + exact T.
    + match goal with |- Tracked (putWindow _ _ (setCanvases _ ?x)) =>
        apply (tracked_same x); [repeat split|] end.
      match goal with |- Tracked (setPasses (<[_ := setRenderTasks ?ts _]> _) ?x) =>
        apply (setRenderTasks_tracked (pass win) ps ts x Ep) end.
      exact T.
  - unfold settled in H.
    destruct (windows (comp s) !! wid) as [win|]; simpl in H; [|discriminate].
    destruct (point win) as [ | | | p c t | | | ]; try discriminate.
    destruct (passes (comp s) !! pass win) as [ps|]; simpl in H; [|discriminate].
    destruct (tasks (host s) !! t) as [ts|]; simpl in H; [|discriminate].
    match type of H with (if ?b then _ else _) = _ => destruct b end; [|discriminate].
    destruct r as [e|]; injection H as <-.
    + destruct (benign e); exact T.
    + exact T.
Qed.

Lemma run_tracked es : forall s s',
  run variant devicePixelRatio s es = Some s' -> Tracked s -> Tracked s'.
Proof.
  induction es as [|e es IH]; simpl; intros s s' H T.
  - injection H as <-. exact T.
  - destruct (step _ _ s e) as [s1|] eqn:E; [|discriminate]. simpl in H.
    eapply IH; [exact H|]. eapply step_tracked; eauto.
Qed.

Lemma initial_tracked : Tracked initial.
Proof. split; [intros tm [] | intros pid H; discriminate H]. Qed.

End Tracked.

Section Burst.
Import Scheduler.
Variable variant : Variant.
Variable devicePixelRatio : float.

(** After a burst exactly one timer is pending, due 160ms after its last
    request, and no window was started meanwhile. *)
Lemma burst_arms gaps : forall pid ps s,
  scheduleRender (comp s) = Some pid ->
  passes (comp s) !! pid = Some ps ->
  cancelled ps = false ->
  (forall tm, In tm (timers (host s)) -> scheduleTimer (comp s) = Some (timerId tm)) ->
  Forall (fun d => 0 <= d < 160) gaps ->
  exists s1 id,
    run variant devicePixelRatio s (burst gaps) = Some s1
    /\ timers (host s1) = [{| timerId := id; deadline := clock (host s1) + 160;
                              owner := pid |}]
    /\ clock (host s1) = clock (host s) + total gaps
    /\ windows (comp s1) = windows (comp s)
    /\ passes (comp s1) = passes (comp s).
Proof.
  induction gaps as [|d gaps IH]; intros pid ps s Hs Hp Hc Ht Hg.
  - destruct (requestRender_arms pid ps s Hs Hp Hc Ht) as (T & _ & C & W & P & _).
    exists (requestRender s), (nextTimerId (host s)). simpl.
    rewrite T, C, W, P. repeat split; try reflexivity. lia.
  - inversion Hg as [|? ? Hd Hg']; subst.
    destruct (requestRender_arms pid ps s Hs Hp Hc Ht) as (T & ST & C & W & P & R).
    set (s' := requestRender s) in *.
    assert (A : advance variant d s' = Some (setClock (clock (host s') + d) s')).
    { eapply advance_quiet; [exact T | lia | simpl; lia]. }
    set (s'' := setClock (clock (host s') + d) s') in *.
    destruct (IH pid ps s'') as (s1 & id & Hrun & T1 & C1 & W1 & P1).
    + exact R.
    + change (passes (comp s'') ) with (passes (comp s')). rewrite P. exact Hp.
    + exact Hc.
    + intros tm Hin. change (timers (host s'')) with (timers (host s')) in Hin.
      rewrite T in Hin. destruct Hin as [<- | []].
      exact ST.
    + exact Hg'.
    + exists s1, id. split; [|split; [exact T1|split; [|split]]].
      * change (burst (d :: gaps)) with (RequestRender :: Advance d :: burst gaps).
        cbn [run step]. fold s'. cbn [mbind option_bind]. rewrite A. exact Hrun.
      * rewrite C1. change (clock (host s'')) with (clock (host s') + d).
        rewrite C. simpl. lia.
      * rewrite W1. exact W.
      * rewrite P1. exact P.
Qed.

End Burst.

(** C6.  In every state the component can reach, while a [schedule] is
    installed (an effect run is live), a burst of [N >= 1] requests, each less
    than 160ms after the previous one, starts no render pass while it lasts
    nor in the 160ms after its last request, and exactly one, 160ms after the
    last request; no timer is left pending after it. *)
Theorem debounce_one_pass
    (variant : Scheduler.Variant) (devicePixelRatio : float)
    (es : list Scheduler.Event) (s : Scheduler.State) (pid : Scheduler.PassId)
    (gaps : list Z) :
  Scheduler.run variant devicePixelRatio Scheduler.initial es = Some s ->
  Scheduler.scheduleRender (Scheduler.comp s) = Some pid ->
  Forall (fun d => 0 <= d < 160) gaps ->
  exists s1,
    Scheduler.run variant devicePixelRatio s (burst gaps) = Some s1
    /\ Scheduler.clock (Scheduler.host s1) = Scheduler.clock (Scheduler.host s) + total gaps
    /\ Scheduler.windows (Scheduler.comp s1) = Scheduler.windows (Scheduler.comp s)
    /\ (forall dt, 0 <= dt < 160 ->
          exists s2, Scheduler.step variant devicePixelRatio s1 (Scheduler.Advance dt) = Some s2
            /\ Scheduler.windows (Scheduler.comp s2) = Scheduler.windows (Scheduler.comp s))
    /\ (forall dt, 160 <= dt ->
          exists s2 win,
            Scheduler.step variant devicePixelRatio s1 (Scheduler.Advance dt) = Some s2
            /\ Scheduler.windows (Scheduler.comp s2) =
               Scheduler.windows (Scheduler.comp s) ++ [win]
            /\ Scheduler.pass win = pid
            /\ Scheduler.startedAt win = Scheduler.clock (Scheduler.host s1) + 160
            /\ Scheduler.timers (Scheduler.host s2) = []).
Proof.
  intros Hreach Hs Hg.
  destruct (run_tracked variant devicePixelRatio es _ _ Hreach initial_tracked)
    as [Ht Hlive].
  destruct (Hlive pid Hs) as (ps & Hp & Hc).
  destruct (burst_arms variant devicePixelRatio gaps pid ps s Hs Hp Hc Ht Hg)
    as (s1 & id & Hrun & T & C & W & P).
  exists s1. split; [exact Hrun|]. split; [exact C|]. split; [exact W|]. split.
  - intros dt Hdt. eexists. split.
    + simpl. eapply advance_quiet; [exact T | lia | simpl; lia].
    + exact W.
  - intros dt Hdt.
    destruct (advance_fires variant _ ps dt s1 T) as (s2 & win & A & W2 & Pw & Sw & T2).
    + simpl. rewrite P. exact Hp.
    + simpl. lia.
    + exists s2, win. simpl. rewrite <- W. auto.
Qed.

(** ** The generation changeover *)

Section Changeover.
Import Scheduler.

Lemma blank_idempotent key cv : blank key (blank key cv) = blank key cv.
Proof. unfold blank. simpl. destruct (context2d cv); reflexivity. Qed.

Lemma blankAll_keeps key refs : forall cs (c : nat) cv,
  cs !! c = Some cv ->
  blankAll key refs cs !! c = Some cv \/ blankAll key refs cs !! c = Some (blank key cv).
Proof.
  induction refs as [|r refs IH]; intros cs c cv Hc; simpl; [auto|].
  destruct r as [c'|]; [|apply IH, Hc].
  destruct (decide (c' = c)) as [-> | Hne].
  - destruct (IH (alter (blank key) c cs) c (blank key cv)) as [H | H].
    + rewrite list_lookup_alter_eq, Hc. reflexivity.
    + auto.
    + rewrite blank_idempotent in H. auto.
  - apply IH. rewrite list_lookup_alter_ne by exact Hne. exact Hc.
Qed.

Lemma blankAll_blanks key refs : forall cs (c : nat) cv,
  In (Some c) refs -> cs !! c = Some cv ->
  blankAll key refs cs !! c = Some (blank key cv).
Proof.
  induction refs as [|r refs IH]; intros cs c cv Hin Hc; [destruct Hin|].
  simpl. destruct Hin as [-> | Hin].
  - destruct (blankAll_keeps key refs (alter (blank key) c cs) c (blank key cv)) as [H | H].
    + rewrite list_lookup_alter_eq, Hc. reflexivity.
    + exact H.
    + rewrite blank_idempotent in H. exact H.
  - destruct r as [c'|]; [|apply IH; assumption].
    destruct (decide (c' = c)) as [-> | Hne].
    + rewrite <- (blank_idempotent key cv). apply IH; [exact Hin|].
      rewrite list_lookup_alter_eq, Hc. reflexivity.
    + apply IH; [exact Hin|]. rewrite list_lookup_alter_ne by exact Hne. exact Hc.
Qed.

Lemma dom_clearScheduleTimer s : dom (clearScheduleTimer s) = dom s.
Proof. unfold clearScheduleTimer. destruct (scheduleTimer _); reflexivity. Qed.

Lemma windows_clearScheduleTimer s :
  windows (comp (clearScheduleTimer s)) = windows (comp s).
Proof. unfold clearScheduleTimer. destruct (scheduleTimer _); reflexivity. Qed.

Lemma schedule_keeps pid s :
  dom (schedule pid s) = dom s /\ windows (comp (schedule pid s)) = windows (comp s).
Proof.
  unfold schedule. destruct (_ !! _) as [ps|]; [|auto]. destruct (cancelled ps); [auto|].
  simpl. rewrite dom_clearScheduleTimer, windows_clearScheduleTimer. auto.
Qed.

Lemma cleanup_keeps pid s :
  dom (cleanup pid s) = dom s /\ windows (comp (cleanup pid s)) = windows (comp s).
Proof.
  unfold cleanup. destruct (_ !! _) as [ps|]; [|auto]. simpl.
  unfold clearScheduleTimer. simpl. destruct (scheduleTimer _); auto.
Qed.

End Changeover.

(** X1.  When the effect runs with a generation key that differs from the
    stored one, both sets are emptied, the new key is stored, every attached
    surface is tagged with the key and, if it has a 2D context, blanked, and
    no render has started: the pass waits for its timer. *)
Theorem generation_changeover
    (numPages : Z) (size : Size) (viewZoom : float) (isNarrow : bool) (s : Scheduler.State) :
  0 < numPages ->
  Scheduler.sameKey (Scheduler.lastSizeKey (Scheduler.cache s))
                    (Scheduler.sizeKeyOf size viewZoom) = false ->
  let key := Scheduler.sizeKeyOf size viewZoom in
  let s' := Scheduler.runEffect true (Some size) numPages viewZoom isNarrow s in
  Scheduler.rendered s' = []
  /\ Scheduler.inflight s' = []
  /\ Scheduler.lastSizeKey (Scheduler.cache s') = Some key
  /\ Scheduler.windows (Scheduler.comp s') = Scheduler.windows (Scheduler.comp s)
  /\ Scheduler.canvasRefs (Scheduler.dom s') = Scheduler.canvasRefs (Scheduler.dom s)
  /\ forall (idx : nat) (c : Scheduler.CanvasId) (cv : Scheduler.Canvas),
       Scheduler.canvasRefs (Scheduler.dom s) !! idx = Some (Some c) ->
       Scheduler.canvases (Scheduler.dom s) !! c = Some cv ->
       exists cv',
         Scheduler.canvases (Scheduler.dom s') !! c = Some cv'
         /\ Scheduler.datasetSizeKey cv' = Some key
         /\ (Scheduler.context2d cv = true -> Scheduler.pixels cv' = Scheduler.Blank).
Proof.
  intros Hn Hkey key s'. unfold s', Scheduler.runEffect.
  assert (E : Scheduler.cache (match Scheduler.liveEffect (Scheduler.comp s) with
                               | Some old => Scheduler.cleanup old s | None => s end)
              = Scheduler.cache s
              /\ Scheduler.dom (match Scheduler.liveEffect (Scheduler.comp s) with
                                | Some old => Scheduler.cleanup old s | None => s end)
                 = Scheduler.dom s
              /\ Scheduler.windows (Scheduler.comp
                   (match Scheduler.liveEffect (Scheduler.comp s) with
                    | Some old => Scheduler.cleanup old s | None => s end))
                 = Scheduler.windows (Scheduler.comp s)).
  { destruct (Scheduler.liveEffect _); [|auto].
    destruct (cleanup_keeps p s). rewrite cache_cleanup. auto. }
  revert E. generalize (match Scheduler.liveEffect (Scheduler.comp s) with
                        | Some old => Scheduler.cleanup old s | None => s end).
  intros s1 (Ec & Ed & Ew).
  destruct (numPages <=? 0) eqn:En; [lia|].
  unfold Scheduler.effectBody, Scheduler.rendered, Scheduler.inflight.
  cbn [Scheduler.cache Scheduler.dom Scheduler.comp Scheduler.windows
       Scheduler.setLiveEffect Scheduler.withComp].
  match goal with |- context [Scheduler.schedule ?pid ?x] =>
    destruct (schedule_keeps pid x) as [Sd Sw]; rewrite (cache_schedule pid x), Sd, Sw end.
  unfold Scheduler.changeover.
  cbn [Scheduler.cache Scheduler.setScheduleRender Scheduler.setPasses
       Scheduler.setRenderLoopId Scheduler.withComp].
  rewrite Ec, Hkey. cbn. rewrite Ed, Ew.
  repeat split; try reflexivity.
  intros idx c cv Hr Hc. exists (Scheduler.blank key cv). split; [|split].
  - apply blankAll_blanks; [|exact Hc]. apply list_elem_of_In.
    apply list_elem_of_lookup. eauto.
  - reflexivity.
  - simpl. intros ->. reflexivity.
Qed.

(** A zoom click on the open mobile reader changes the generation. *)
Lemma generation_changeover_witness :
  Scheduler.rendered
    (Scheduler.runEffect true (Scenario.box 1.1) 3 1.1 true Scenario.stranded) = []
  /\ Scheduler.inflight
       (Scheduler.runEffect true (Scenario.box 1.1) 3 1.1 true Scenario.stranded) = [].
Proof.
  pose proof (generation_changeover 3 (mkSize 440.00000000000006 622.24800000000005)
                1.1 true Scenario.stranded ltac:(lia) ltac:(vm_compute; reflexivity)) as H.
  cbv zeta in H. destruct H as (H1 & H2 & _). split; [exact H1 | exact H2].
Defined.

(** ** The exits of [renderOne] *)

Section Exits.
Import Scheduler.
Variable variant : Variant.
Variable devicePixelRatio : float.

Lemma windows_runEffect doc pageSize n z narrow s :
  windows (comp (runEffect doc pageSize n z narrow s)) = windows (comp s).
Proof.
  unfold runEffect.
  assert (E : windows (comp (match liveEffect (comp s) with
                             | Some old => cleanup old s | None => s end))
              = windows (comp s)).
  { destruct (liveEffect _); [apply cleanup_keeps | reflexivity]. }
  revert E. generalize (match liveEffect (comp s) with
                        | Some old => cleanup old s | None => s end). intros s1 E.
  destruct doc; [|exact E]. destruct pageSize as [sz|]; [|exact E].
  destruct (n <=? 0); [exact E|]. unfold effectBody.
  cbn [comp windows setLiveEffect withComp].
  match goal with |- context [schedule ?pid ?x] =>
    rewrite (proj2 (schedule_keeps pid x)) end.
  unfold changeover. destruct (sameKey _ _); exact E.
Qed.

Lemma windows_requestRender s : windows (comp (requestRender s)) = windows (comp s).
Proof. unfold requestRender. destruct (scheduleRender _); [apply schedule_keeps | reflexivity]. Qed.

Lemma renderWindow_appends pid s :
  exists ws, windows (comp (renderWindow variant pid s)) = windows (comp s) ++ ws.
Proof.
  destruct (passes (comp s) !! pid) as [ps|] eqn:E.
  - destruct (renderWindow_starts variant pid ps s E) as (win & H & _). eauto.
  - exists []. unfold renderWindow. rewrite E, app_nil_r. reflexivity.
Qed.

Lemma fire_appends fuel target s :
  exists ws, windows (comp (fire variant fuel target s)) = windows (comp s) ++ ws.
Proof.
  revert s. induction fuel as [|fuel IH]; intros s; simpl.
  - exists []. rewrite app_nil_r. reflexivity.
  - destruct (nextDue _ _) as [tm|]; [|exists []; rewrite app_nil_r; reflexivity].
    match goal with |- context [fire variant fuel target ?x] =>
      destruct (IH x) as [ws2 E2] end.
    match type of E2 with context [renderWindow variant ?pid ?x] =>
      destruct (renderWindow_appends pid x) as [ws1 E1] end.
    exists (ws1 ++ ws2). rewrite E2, E1, <- app_assoc. reflexivity.
Qed.

(** An event leaves alone the windows it does not resume. *)
Lemma step_other_window s e s' (wid : WindowId) win :
  step variant devicePixelRatio s e = Some s' ->
  target e <> Some wid ->
  windows (comp s) !! wid = Some win ->
  windows (comp s') !! wid = Some win.
Proof.
  intros H Ht Hw.
  destruct e as [doc ps n z narrow | idx [ctx|] | data | idx | | dt | w | w | w [err|page] | w r];
    simpl in H, Ht.
  - injection H as <-. rewrite windows_runEffect. exact Hw.
  - injection H as <-. exact Hw.
  - injection H as <-. exact Hw.
  - injection H as <-. rewrite windows_requestRender. exact Hw.
  - injection H as <-. exact Hw.
  - injection H as <-. rewrite windows_requestRender. exact Hw.
  - unfold advance in H. destruct (dt <? 0); [discriminate|]. injection H as <-.
    cbn [comp windows setClock withHost].
    destruct (fire_appends (length (timers (host s))) (clock (host s) + dt) s) as [ws E].
    rewrite E. apply lookup_app_l_Some, Hw.
  - assert (w <> wid) by congruence. unfold frame in H.
    destruct (windows (comp s) !! w) as [win0|]; simpl in H; [|discriminate].
    destruct (point win0); try discriminate.
    destruct (passes (comp s) !! pass win0) as [ps|]; simpl in H; [|discriminate].
    injection H as <-. cbn. rewrite list_lookup_insert_ne by assumption. exact Hw.
  - assert (w <> wid) by congruence. unfold resume in H.
    destruct (windows (comp s) !! w) as [win0|]; simpl in H; [|discriminate].
    destruct (point win0) as [ | p [c|] | | | p | | ]; try discriminate.
    + injection H as <-. cbn. rewrite list_lookup_insert_ne by assumption. exact Hw.
    + injection H as <-. cbn. rewrite list_lookup_insert_ne by assumption. exact Hw.
    + destruct (passes (comp s) !! pass win0) as [ps|]; simpl in H; [|discriminate].
      match type of H with context [loop ?a ?b ?c ?d ?e] =>
        pose proof (loop_keeps a b c d e) as (_ & HW & _); destruct (loop a b c d e) as [s2 win'] end.
      injection H as <-. cbn. simpl in HW. rewrite HW.
      rewrite list_lookup_insert_ne by assumption. destruct variant; exact Hw.
  - assert (w <> wid) by congruence. unfold getPageFailed in H.
    destruct (windows (comp s) !! w) as [win0|]; simpl in H; [|discriminate].
    destruct (point win0); try discriminate. injection H as <-.
    cbn. rewrite list_lookup_insert_ne by assumption. exact Hw.
  - assert (w <> wid) by congruence. unfold gotPage in H.
    destruct (windows (comp s) !! w) as [win0|]; simpl in H; [|discriminate].
    destruct (point win0) as [ | | p c | | | | ]; try discriminate.
    destruct (passes (comp s) !! pass win0) as [ps|]; simpl in H; [|discriminate].
    destruct (cancelled ps).
    { injection H as <-. cbn. rewrite list_lookup_insert_ne by assumption. exact Hw. }
    destruct (canvases (dom s) !! c) as [cv|]; simpl in H; [|discriminate].
    destruct (negb _); injection H as <-;
      cbn; rewrite list_lookup_insert_ne by assumption; exact Hw.
  - assert (w <> wid) by congruence. unfold settled in H.
    destruct (windows (comp s) !! w) as [win0|]; simpl in H; [|discriminate].
    destruct (point win0) as [ | | | p c t | | | ]; try discriminate.
    destruct (passes (comp s) !! pass win0) as [ps|]; simpl in H; [|discriminate].
    destruct (tasks (host s) !! t) as [ts|]; simpl in H; [|discriminate].
    match type of H with (if ?b then _ else _) = _ => destruct b end; [|discriminate].
    destruct r as [e|]; injection H as <-.
    + destruct (benign e); cbn; rewrite list_lookup_insert_ne by assumption; exact Hw.
    + cbn. rewrite list_lookup_insert_ne by assumption. exact Hw.
Qed.

Lemma giveUp_clears (wid : WindowId) win p s : ~ In p (inflight (giveUp wid win p s)).
Proof. unfold giveUp, inflight. cbn. rewrite In_delete. tauto. Qed.

End Exits.

(** X2.  When a suspended call [renderOne(p)] returns, page [p] is not in
    the in-flight set: every return path runs [inflightPages.delete(p)].
    (The one exit that is not a return, the rejection of [getPage], is the
    subject of C3.) *)
Theorem renderOne_return_clears_inflight
    (variant : Scheduler.Variant) (devicePixelRatio : float)
    (s s' : Scheduler.State) (e : Scheduler.Event)
    (wid : Scheduler.WindowId) (win win' : Scheduler.Window) (p : Z) :
  Scheduler.step variant devicePixelRatio s e = Some s' ->
  Scheduler.windows (Scheduler.comp s) !! wid = Some win ->
  inRenderOne p (Scheduler.point win) ->
  Scheduler.windows (Scheduler.comp s') !! wid = Some win' ->
  Scheduler.point win' = Scheduler.Returned p ->
  ~ In p (Scheduler.inflight s').
Proof.
  intros H Hw Hin Hw' Hret.
  destruct (decide (target e = Some wid)) as [Ht | Ht].
  2:{ rewrite (step_other_window variant devicePixelRatio s e s' wid win H Ht Hw) in Hw'.
      injection Hw' as <-. rewrite Hret in Hin. destruct Hin. }
  assert (L : (wid < length (Scheduler.windows (Scheduler.comp s)))%nat)
    by (eapply lookup_lt_Some; exact Hw).
  destruct e as [doc ps n z narrow | idx [ctx|] | data | idx | | dt | w | w | w [err|page] | w r];
    simpl in Ht; try discriminate; injection Ht as ->; simpl in H.
  - unfold Scheduler.frame in H. rewrite Hw in H. simpl in H.
    destruct (Scheduler.point win) as [q i | | | | | | ] eqn:Ept; try discriminate.
    destruct (Scheduler.passes (Scheduler.comp s) !! Scheduler.pass win) as [ps|];
      simpl in H; [|discriminate].
    injection H as <-. cbn in Hw'. rewrite list_lookup_insert_eq in Hw' by exact L.
    injection Hw' as <-. cbn in Hret. unfold Scheduler.waitForCanvas in Hret.
    repeat match type of Hret with
           | context [if ?b then _ else _] => destruct b
           | context [match ?x with _ => _ end] => destruct x
           end; discriminate.
  - unfold Scheduler.resume in H. rewrite Hw in H. simpl in H.
    destruct (Scheduler.point win) as [ | q [c|] | | | q | | ] eqn:Ept; try discriminate;
      simpl in Hin; try contradiction; subst q.
    + injection H as <-. cbn in Hw'. rewrite list_lookup_insert_eq in Hw' by exact L.
      injection Hw' as <-. discriminate Hret.
    + injection H as <-. apply giveUp_clears.
  - unfold Scheduler.getPageFailed in H. rewrite Hw in H. simpl in H.
    destruct (Scheduler.point win) eqn:Ept; try discriminate.
    injection H as <-. cbn in Hw'. rewrite list_lookup_insert_eq in Hw' by exact L.
    injection Hw' as <-. discriminate Hret.
  - unfold Scheduler.gotPage in H. rewrite Hw in H. simpl in H.
    destruct (Scheduler.point win) as [ | | q c | | | | ] eqn:Ept; try discriminate.
    simpl in Hin. subst q.
    destruct (Scheduler.passes (Scheduler.comp s) !! Scheduler.pass win) as [ps|];
      simpl in H; [|discriminate].
    destruct (Scheduler.cancelled ps).
    { injection H as <-. apply giveUp_clears. }
    destruct (Scheduler.canvases (Scheduler.dom s) !! c) as [cv|]; simpl in H; [|discriminate].
    destruct (negb _); injection H as <-.
    + apply giveUp_clears.
    + cbn in Hw'. rewrite list_lookup_insert_eq in Hw' by exact L.
      injection Hw' as <-. discriminate Hret.
  - unfold Scheduler.settled in H. rewrite Hw in H. simpl in H.
    destruct (Scheduler.point win) as [ | | | q c t | | | ] eqn:Ept; try discriminate.
    simpl in Hin. subst q.
    destruct (Scheduler.passes (Scheduler.comp s) !! Scheduler.pass win) as [ps|];
      simpl in H; [|discriminate].
    destruct (Scheduler.tasks (Scheduler.host s) !! t) as [ts|]; simpl in H; [|discriminate].
    match type of H with (if ?b then _ else _) = _ => destruct b end; [|discriminate].
    destruct r as [e|]; injection H as <-; apply giveUp_clears.
Qed.

(** The raster of page 1 completes in the first pass of the open reader. *)
Lemma renderOne_return_clears_inflight_witness :
  ~ In 1 (Scheduler.inflight
            (default Scheduler.initial
               (Scheduler.run Scheduler.Mobile 2 Scheduler.initial
                  (Scenario.opened ++ [Scheduler.Advance 160; Scheduler.Resume 0;
                                       Scheduler.GetPage 0 (inr Scenario.a4);
                                       Scheduler.TaskSettles 0 None])))).
Proof.
  refine (renderOne_return_clears_inflight Scheduler.Mobile 2
            (default Scheduler.initial
               (Scheduler.run Scheduler.Mobile 2 Scheduler.initial
                  (Scenario.opened ++ [Scheduler.Advance 160; Scheduler.Resume 0;
                                       Scheduler.GetPage 0 (inr Scenario.a4)])))
            _ (Scheduler.TaskSettles 0 None) 0%nat
            (Scheduler.Build_Window 0 1 [2; 3] (Scheduler.InTask 1 0 0) 160)
            (Scheduler.Build_Window 0 1 [2; 3] (Scheduler.Returned 1) 160) 1 _ _ _ _ _);
    vm_compute; reflexivity.
Defined.

(** ** Failures of the raster *)

Section RasterFailure.
Import Scheduler.
Variable variant : Variant.
Variable devicePixelRatio : float.



End RasterFailure.



(** ** Failures of [getPage] *)

(** C3, at the failing input.  Page 1 is rasterized, [renderOne(2)] puts page
    2 in flight and [getPage(2)] rejects: the call of [renderWindow] ends with
    that exception, nothing can resume it, and page 2 is still in flight. *)
Theorem getPage_rejection_leaves_page_in_flight :
  exists s win,
    Scheduler.run Scheduler.Mobile 2 Scheduler.initial Scenario.getPageRejects = Some s
    /\ Scheduler.windows (Scheduler.comp s) = [win]
    /\ Scheduler.point win = Scheduler.Thrown Scenario.unreadable
    /\ Scheduler.inflight s = [2]
    /\ Scheduler.rendered s = [1]
    /\ Scheduler.step Scheduler.Mobile 2 s (Scheduler.Resume 0) = None
    /\ Scheduler.step Scheduler.Mobile 2 s (Scheduler.Frame 0) = None
    /\ (forall r, Scheduler.step Scheduler.Mobile 2 s (Scheduler.GetPage 0 r) = None)
    /\ (forall r, Scheduler.step Scheduler.Mobile 2 s (Scheduler.TaskSettles 0 r) = None).
Proof.
  eexists _, _. split; [vm_compute; reflexivity|].
  repeat split; try reflexivity; intros [?|?]; reflexivity.
Qed.

(** C4, at the failing input.  When [getPage(2)] rejects, the pass stops with
    page 3 of its window never attempted.  A later pass of the same
    generation runs to its end and reports [Ready], but it skips page 2: the
    page is in flight for good, is never rendered, and its surface stays
    blank. *)
Theorem getPage_rejection_aborts_pass :
  exists s win s' win1 win2 cv,
    Scheduler.run Scheduler.Mobile 2 Scheduler.initial Scenario.getPageRejects = Some s
    /\ Scheduler.windows (Scheduler.comp s) = [win]
    /\ Scheduler.point win = Scheduler.Thrown Scenario.unreadable
    /\ Scheduler.rest win = [3]
    /\ ~ In 3 (Scheduler.rendered s) /\ ~ In 3 (Scheduler.inflight s)
    /\ Scheduler.run Scheduler.Mobile 2 Scheduler.initial Scenario.nextPass = Some s'
    /\ Scheduler.windows (Scheduler.comp s') = [win1; win2]
    /\ Scheduler.point win2 = Scheduler.Done
    /\ Scheduler.status (Scheduler.comp s') = Scheduler.Ready
    /\ Scheduler.rendered s' = [1; 3]
    /\ Scheduler.inflight s' = [2]
    /\ Scenario.surface 2 s' = Some cv
    /\ Scheduler.pixels cv = Scheduler.Blank.
Proof.
  eexists _, _, _, _, _, _. split; [vm_compute; reflexivity|].
  do 3 (split; [reflexivity|]).
  split; [intros [H|[]]; discriminate H|]. split; [intros [H|[]]; discriminate H|].
  split; [vm_compute; reflexivity|].
  repeat split; reflexivity.
Qed.

(** ** Pages in the rendered set whose surface is stale *)

(** C1, at two failing inputs.
    (a) After [Scenario.staleRaster] the generation is the third one, page 2
    is in the rendered set, and the surface attached to page 2 is blank: the
    raster that put the page in the set was made under the second
    generation.  The pass of the third generation then runs to its end and
    reports [Ready] without rasterizing page 2.
    (b) On the desktop, a container 600 high gives the same page box at 767
    and at 769 wide, hence the same generation key, while the layout and so
    the [key] of the widget differ.  After [Scenario.layoutChange] the three
    pages are in the rendered set, the pass has reported [Ready], and the
    surfaces, new with the widget, are blank. *)
Theorem stale_page_in_rendered_set :
  (exists s cv s' cv',
    Scheduler.run Scheduler.Mobile 2 Scheduler.initial Scenario.staleRaster = Some s
    /\ Scheduler.lastSizeKey (Scheduler.cache s) = Some "480x679@1.20"%string
    /\ In 2 (Scheduler.rendered s)
    /\ Scenario.surface 2 s = Some cv
    /\ Scheduler.pixels cv = Scheduler.Blank
    /\ Scheduler.run Scheduler.Mobile 2 Scheduler.initial Scenario.staleRasterThenPass = Some s'
    /\ Scheduler.status (Scheduler.comp s') = Scheduler.Ready
    /\ Scheduler.lastSizeKey (Scheduler.cache s') = Some "480x679@1.20"%string
    /\ In 2 (Scheduler.rendered s')
    /\ Scenario.surface 2 s' = Some cv'
    /\ Scheduler.pixels cv' = Scheduler.Blank)
  /\ (Scenario.desktopBox 767 = Scenario.desktopBox 769
      /\ Viewport.Desktop.isNarrow 767 = true
      /\ Viewport.Desktop.isNarrow 769 = false
      /\ Viewport.Desktop.flipbookKey (Scenario.desktopBox 767) true = "342x484-single"%string
      /\ Viewport.Desktop.flipbookKey (Scenario.desktopBox 769) false = "342x484-spread"%string
      /\ exists s cv1 cv2 cv3,
           Scheduler.run Scheduler.Desktop 1 Scheduler.initial Scenario.layoutChange = Some s
           /\ Scheduler.lastSizeKey (Scheduler.cache s) = Some "342x484@1.00"%string
           /\ Scheduler.status (Scheduler.comp s) = Scheduler.Ready
           /\ Scheduler.rendered s = [1; 2; 3]
           /\ Scenario.surface 1 s = Some cv1 /\ Scheduler.pixels cv1 = Scheduler.Blank
           /\ Scenario.surface 2 s = Some cv2 /\ Scheduler.pixels cv2 = Scheduler.Blank
           /\ Scenario.surface 3 s = Some cv3 /\ Scheduler.pixels cv3 = Scheduler.Blank).
Proof.
  split.
  - eexists _, _, _, _. split; [vm_compute; reflexivity|].
    split; [reflexivity|]. split; [left; reflexivity|]. split; [reflexivity|].
    split; [reflexivity|]. split; [vm_compute; reflexivity|].
    split; [reflexivity|]. split; [reflexivity|]. split; [left; reflexivity|].
    split; reflexivity.
  - do 5 (split; [vm_compute; reflexivity|]).
    eexists _, _, _, _. split; [vm_compute; reflexivity|].
    repeat split; reflexivity.
Qed.

(** ** Witnesses on the running component *)

(** The invariant on the component with page 2 stranded in flight. *)
Lemma rendered_inflight_disjoint_witness :
  In 2 (Scheduler.inflight Scenario.stranded)
  /\ ~ In 2 (Scheduler.rendered Scenario.stranded).
Proof.
  assert (H : Scheduler.run Scheduler.Mobile 2 Scheduler.initial Scenario.getPageRejects
              = Some Scenario.stranded) by (vm_compute; reflexivity).
  pose proof (proj1 (rendered_inflight_disjoint Scheduler.Mobile 2
                       Scenario.getPageRejects Scenario.stranded H) 2) as D.
  assert (I : In 2 (Scheduler.inflight Scenario.stranded)) by (vm_compute; left; reflexivity).
  split; [exact I | intros R; exact (D (conj R I))].
Defined.

(** Four requests 50, 100 and 159ms apart: one pass, 160ms after the last. *)
Lemma debounce_one_pass_witness :
  exists s1,
    Scheduler.run Scheduler.Mobile 2 Scenario.started (burst [50; 100; 159]) = Some s1
    /\ Scheduler.clock (Scheduler.host s1) = 309
    /\ Scheduler.windows (Scheduler.comp s1) = []
    /\ exists s2 win,
         Scheduler.step Scheduler.Mobile 2 s1 (Scheduler.Advance 160) = Some s2
         /\ Scheduler.windows (Scheduler.comp s2) = [win]
         /\ Scheduler.startedAt win = 469.
Proof.
  assert (H : Scheduler.run Scheduler.Mobile 2 Scheduler.initial Scenario.opened
              = Some Scenario.started) by (vm_compute; reflexivity).
  destruct (debounce_one_pass Scheduler.Mobile 2 Scenario.opened Scenario.started 0%nat
              [50; 100; 159] H)
    as (s1 & Hrun & Hclock & Hwin & _ & Hfire).
  - vm_compute. reflexivity.
  - repeat constructor; lia.
  - exists s1. split; [exact Hrun|]. split; [exact Hclock|]. split; [exact Hwin|].
    destruct (Hfire 160 ltac:(lia)) as (s2 & win & Hstep & Hw & _ & Hst & _).
    exists s2, win. split; [exact Hstep|]. split; [exact Hw|].
    rewrite Hst, Hclock. reflexivity.
Defined.

(** ** Effect runs, their passes and their timers *)

Section Orderly.
Import Scheduler Tracking Liveness.
Variable variant : Variant.
Variable devicePixelRatio : float.

Lemma same_calm s s' : SameSched s s' -> ids s' = ids s -> Calm s s'.
Proof.
  intros (E1 & _ & E3 & E4) [= E5 E6]. unfold Calm. rewrite E1, E3, E4, E5, E6.
  repeat split; auto.
Qed.

Lemma flags_lookup s s' (pid : nat) ps' :
  flags <$> passes (comp s') = flags <$> passes (comp s) ->
  passes (comp s') !! pid = Some ps' ->
  exists ps, passes (comp s) !! pid = Some ps
             /\ cancelled ps = cancelled ps' /\ loopId ps = loopId ps'.
Proof.
  intros E H.
  assert (H' : (flags <$> passes (comp s')) !! pid = Some (flags ps'))
    by (rewrite list_lookup_fmap, H; reflexivity).
  rewrite E, list_lookup_fmap in H'.
  destruct (passes (comp s) !! pid) as [ps|]; [|discriminate].
  injection H' as H1 H2. eauto.
Qed.

Lemma calm_orderly s s' : Calm s s' -> Orderly s -> Orderly s'.
Proof.
  intros (E1 & E2 & E3 & E4 & E5) (O1 & O2 & O3 & O4). unfold Orderly.
  rewrite E1, E2, E3, E4. repeat split; auto;
    destruct (flags_lookup s s' pid ps E5 H) as (qs & Hq & Hc & Hl);
    rewrite <- ?Hl; apply (O1 pid qs Hq); congruence.
Qed.

Lemma ids_renderOne pid p s : ids (fst (renderOne pid p s)) = ids s.
Proof.
  unfold renderOne. destruct (_ !! _) as [ps|]; [|reflexivity].
  destruct (cancelled ps); [reflexivity|]. destruct (_ || _); [reflexivity|].
  destruct (negb _); [reflexivity|]. destruct (_ || _); reflexivity.
Qed.

Lemma ids_loop pid cur todo started s : ids (fst (loop pid cur todo started s)) = ids s.
Proof.
  unfold loop. destruct todo as [|p todo].
  - cbn [fst]. destruct (_ || _); reflexivity.
  - destruct (_ !! _) as [ps|]; [|reflexivity]. destruct (cancelled ps); [reflexivity|].
    pose proof (ids_renderOne pid p s) as H.
    destruct (renderOne pid p s) as [s1 pt]. exact H.
Qed.

Lemma ids_renderWindow pid s : ids (renderWindow variant pid s) = ids s.
Proof.
  unfold renderWindow. destruct (_ !! _) as [ps|]; [|reflexivity].
  match goal with |- context [loop ?a ?b ?c ?d ?e] =>
    pose proof (ids_loop a b c d e) as H; destruct (loop a b c d e) as [s2 win] end.
  exact H.
Qed.

Lemma renderWindow_calm pid s : Calm s (renderWindow variant pid s).
Proof. apply same_calm; [apply renderWindow_same | apply ids_renderWindow]. Qed.

Lemma ids_clearScheduleTimer s : ids (clearScheduleTimer s) = ids s.
Proof. unfold clearScheduleTimer. destruct (scheduleTimer _); reflexivity. Qed.

Lemma ids_requestRender s : ids (requestRender s) = ids s.
Proof.
  unfold requestRender, schedule. destruct (scheduleRender _) as [pid|]; [|reflexivity].
  destruct (_ !! _) as [ps|]; [|reflexivity]. destruct (cancelled ps); [reflexivity|].
  unfold ids. cbn -[clearScheduleTimer]. apply ids_clearScheduleTimer.
Qed.

(** A request re-arms the one timer, for the live pass. *)
Lemma requestRender_orderly s : Tracked s -> Orderly s -> Orderly (requestRender s).
Proof.
  intros [T1 T2] (O1 & O2 & O3 & O4).
  destruct (scheduleRender (comp s)) as [pid|] eqn:Es.
  - destruct (T2 pid eq_refl) as (ps & Hp & Hc).
    destruct (requestRender_arms pid ps s Es Hp Hc T1) as (A1 & _ & _ & _ & A5 & A6).
    pose proof (ids_requestRender s) as [= I1 I2].
    unfold Orderly. rewrite A1, A5, A6, I1, I2.
    repeat split; auto; try (apply (O1 pid0 ps0); assumption).
    intros tm [<- | []]. reflexivity.
  - unfold requestRender. rewrite Es. unfold Orderly. rewrite Es. auto.
Qed.

(** Firing timers only takes timers away. *)
Lemma fire_orderly fuel target s :
  Orderly s -> Orderly (fire variant fuel target s).
Proof.
  revert s. induction fuel as [|fuel IH]; intros s O; simpl; [exact O|].
  destruct (nextDue _ _) as [tm|]; [|exact O]. apply IH.
  eapply calm_orderly; [apply renderWindow_calm|].
  destruct O as (O1 & O2 & O3 & O4). unfold Orderly. cbn.
  repeat split; auto; try (apply (O1 pid ps); assumption).
  - etransitivity; [apply List.filter_length_le|]. exact O3.
  - intros tm' Hin. apply filter_In in Hin. apply O4, Hin.
Qed.

(** Once the cleanup of the live run is done no pass is live, no timer is
    pending and [scheduleRenderRef] is empty. *)
Lemma cleanup_settles s :
  Tracked s -> Orderly s ->
  let s1 := match liveEffect (comp s) with Some old => cleanup old s | None => s end in
  (forall pid, ~ live s1 pid) /\ timers (host s1) = [] /\ scheduleRender (comp s1) = None
  /\ renderLoopId (comp s1) = renderLoopId (comp s) /\ Tracked s1.
Proof.
  intros T (O1 & O2 & O3 & O4).
  destruct (liveEffect (comp s)) as [old|] eqn:El; cbn zeta.
  - destruct (proj2 T old O2) as (ps & Hp & Hc).
    split; [|split; [|split; [|split]]]; [| | | |apply cleanup_tracked, T].
    + intros pid (qs & Hq & Hqc). unfold cleanup in Hq. rewrite Hp in Hq.
      cbn -[clearScheduleTimer] in Hq.
      assert (Ep : passes (comp (clearScheduleTimer
                     (setScheduleRender None
                        (setPasses (<[old := setCancelled ps]> (passes (comp s))) s))))
                   = <[old := setCancelled ps]> (passes (comp s))).
      { unfold clearScheduleTimer. cbn. destruct (scheduleTimer (comp s)); reflexivity. }
      rewrite Ep in Hq.
      destruct (decide (old = pid)) as [-> | Hne].
      * rewrite list_lookup_insert_eq in Hq by (eapply lookup_lt_Some; exact Hp).
        injection Hq as <-. discriminate Hqc.
      * rewrite list_lookup_insert_ne in Hq by exact Hne.
        destruct (O1 pid qs Hq Hqc) as [[= ->] _]. congruence.
    + unfold cleanup. rewrite Hp. cbn -[clearScheduleTimer].
      match goal with |- timers (host (clearScheduleTimer ?x)) = [] =>
        apply (clearScheduleTimer_empties x) end.
      split; [exact (proj1 T)|]. cbn. intros q Hq. discriminate Hq.
    + unfold cleanup. rewrite Hp. cbn -[clearScheduleTimer].
      unfold clearScheduleTimer. cbn. destruct (scheduleTimer (comp s)); reflexivity.
    + unfold cleanup. rewrite Hp. cbn -[clearScheduleTimer].
      unfold clearScheduleTimer. cbn. destruct (scheduleTimer (comp s)); reflexivity.
  - split; [|split; [|split; [|split]]]; [| | |reflexivity|exact T].
    + intros pid (qs & Hq & Hqc). destruct (O1 pid qs Hq Hqc) as [? _]. congruence.
    + destruct (timers (host s)) as [|tm ts]; [reflexivity|].
      specialize (O4 tm (or_introl eq_refl)). congruence.
    + congruence.
Qed.

(** The body of the effect makes its own pass the live one and arms the
    timer for it. *)
Lemma effectBody_orderly n sz z narrow s :
  (forall pid, ~ live s pid) -> timers (host s) = [] ->
  Orderly (effectBody n sz z narrow s).
Proof.
  intros Hdead Ht. unfold effectBody.
  set (key := sizeKeyOf sz z).
  set (ps := {| numPages := n; size := sz; viewZoom := z; isNarrow := narrow;
                loopId := renderLoopId (comp s) + 1; currentSizeKey := key;
                cancelled := false; renderTasks := replicate (Z.to_nat n) None |}).
  set (pid := length (passes (comp (setRenderLoopId (renderLoopId (comp s) + 1) s)))).
  set (s2 := setPasses _ _).
  set (s4 := setScheduleRender (Some pid) (changeover key s2)).
  destruct (changeover_same key s2) as (E1 & E2 & E3 & E4).
  assert (El : renderLoopId (comp s4) = renderLoopId (comp s) + 1).
  { unfold s4, changeover. destruct (sameKey _ _); reflexivity. }
  assert (Hp : passes (comp s4) !! pid = Some ps).
  { unfold s4. cbn. rewrite E4. unfold s2. cbn. apply list_lookup_middle. reflexivity. }
  assert (Hs : scheduleRender (comp s4) = Some pid) by reflexivity.
  assert (Htm : forall tm, In tm (timers (host s4)) ->
                           scheduleTimer (comp s4) = Some (timerId tm)).
  { intros tm Hin. unfold s4 in Hin. cbn in Hin. rewrite E1 in Hin. unfold s2 in Hin.
    cbn in Hin. rewrite Ht in Hin. destruct Hin. }
  destruct (requestRender_arms pid ps s4 Hs Hp eq_refl Htm) as (A1 & _ & _ & _ & A5 & A6).
  pose proof (f_equal snd (ids_requestRender s4)) as I2. unfold ids in I2. cbn [snd] in I2.
  unfold requestRender in A1, A5, A6, I2. rewrite Hs in A1, A5, A6, I2.
  unfold Orderly. cbn [comp host liveEffect scheduleRender passes timers renderLoopId
                       setLiveEffect withComp].
  rewrite A1, A5, A6, I2, El.
  assert (Hq : forall (q : PassId) qs,
             passes (comp s4) !! q = Some qs -> cancelled qs = false -> q = pid /\ qs = ps).
  { intros q qs Hq Hqc.
    assert (q = pid);
      [|subst q; split; [reflexivity|];
        assert (Some qs = Some ps) as [= ->] by (rewrite <- Hq; exact Hp); reflexivity].
    unfold s4 in Hq. cbn in Hq. rewrite E4 in Hq. unfold s2 in Hq. cbn in Hq.
    destruct (lt_eq_lt_dec q (length (passes (comp s)))) as [[Hlt | Heq] | Hgt].
    + rewrite lookup_app_l in Hq by exact Hlt. destruct (Hdead q). exists qs. auto.
    + exact Heq.
    + rewrite lookup_ge_None_2 in Hq; [discriminate|]. rewrite length_app. simpl. lia. }
  repeat split; auto.
  - destruct (Hq _ _ H H0) as [-> _]. reflexivity.
  - destruct (Hq _ _ H H0) as [_ ->]. reflexivity.
  - intros tm [<- | []]. reflexivity.
Qed.

Lemma runEffect_orderly doc pageSize n z narrow s :
  Tracked s -> Orderly s -> Orderly (runEffect doc pageSize n z narrow s).
Proof.
  intros T O. unfold runEffect.
  destruct (cleanup_settles s T O) as (Hdead & Ht & Hs & _). cbn zeta in *.
  revert Hdead Ht Hs.
  generalize (match liveEffect (comp s) with
              | Some old => cleanup old s | None => s end). intros s1 Hdead Ht Hs.
  assert (Off : Orderly (setLiveEffect None s1)).
  { unfold Orderly. cbn. rewrite Ht, Hs. repeat split; auto;
      try (destruct (Hdead pid); exists ps; auto).
    intros tm []. }
  destruct doc; [|exact Off]. destruct pageSize as [sz|]; [|exact Off].
  destruct (n <=? 0); [exact Off|]. apply effectBody_orderly; assumption.
Qed.

Lemma setRenderTasks_flags (pid : nat) ps ts (l : list Pass) :
  l !! pid = Some ps -> flags <$> <[pid := setRenderTasks ts ps]> l = flags <$> l.
Proof.
  intros Hp. rewrite list_fmap_insert.
  apply list_insert_id. rewrite list_lookup_fmap, Hp. reflexivity.
Qed.

Ltac calm := unfold Calm; cbn; repeat split; auto.

(** Resuming a suspended call touches neither the effect runs nor the
    timers. *)
Lemma resume_calm s e s' wid :
  target e = Some wid -> step variant devicePixelRatio s e = Some s' -> Calm s s'.
Proof.
  intros Ht H.
  destruct e as [doc ps n z narrow | idx [ctx|] | data | idx | | dt | w | w | w [err|page] | w r];
    simpl in Ht; try discriminate; simpl in H.
  - unfold frame in H.
    destruct (windows (comp s) !! w) as [win|]; simpl in H; [|discriminate].
    destruct (point win); try discriminate.
    destruct (passes (comp s) !! pass win) as [ps|]; simpl in H; [|discriminate].
    injection H as <-. calm.
  - unfold resume in H.
    destruct (windows (comp s) !! w) as [win|]; simpl in H; [|discriminate].
    destruct (point win) as [ | p [c|] | | | p | | ]; try discriminate.
    + injection H as <-. calm.
    + injection H as <-. calm.
    + destruct (passes (comp s) !! pass win) as [ps|]; simpl in H; [|discriminate].
      match type of H with context [loop ?a ?b ?c ?d ?e] =>
        pose proof (loop_same a b c d e) as HS;
        pose proof (ids_loop a b c d e) as HL;
        destruct (loop a b c d e) as [s2 win'] end.
      injection H as <-. simpl in HS, HL.
      apply same_calm.
      * destruct HS as (E1 & E2 & E3 & E4). unfold SameSched. cbn.
        rewrite E1, E2, E3, E4. destruct variant; repeat split.
      * unfold ids in *. cbn. rewrite HL. destruct variant; reflexivity.
  - unfold getPageFailed in H.
    destruct (windows (comp s) !! w) as [win|]; simpl in H; [|discriminate].
    destruct (point win); try discriminate. injection H as <-. calm.
  - unfold gotPage in H.
    destruct (windows (comp s) !! w) as [win|]; simpl in H; [|discriminate].
    destruct (point win) as [ | | p c | | | | ]; try discriminate.
    destruct (passes (comp s) !! pass win) as [ps|] eqn:Ep; simpl in H; [|discriminate].
    destruct (cancelled ps).
    { injection H as <-. calm. }
    destruct (canvases (dom s) !! c) as [cv|]; simpl in H; [|discriminate].
    destruct (negb _); injection H as <-.
    + calm.
    + unfold Calm. cbn [host comp timers scheduleRender liveEffect renderLoopId passes
                        putWindow setWindows
                        setCanvases setPasses setTasks withComp withDom withHost].
      repeat split; try reflexivity.
      apply setRenderTasks_flags, Ep.
  - unfold settled in H.
    destruct (windows (comp s) !! w) as [win|]; simpl in H; [|discriminate].
    destruct (point win) as [ | | | p c t | | | ]; try discriminate.
    destruct (passes (comp s) !! pass win) as [ps|]; simpl in H; [|discriminate].
    destruct (tasks (host s) !! t) as [ts|]; simpl in H; [|discriminate].
    match type of H with (if ?b then _ else _) = _ => destruct b end; [|discriminate].
    destruct r as [e|]; injection H as <-.
    + destruct (benign e); calm.
    + calm.
Qed.

Lemma step_orderly s e s' :
  step variant devicePixelRatio s e = Some s' -> Tracked s -> Orderly s -> Orderly s'.
Proof.
  intros H T O.
  destruct (target e) as [wid|] eqn:Et.
  { eapply calm_orderly; [eapply resume_calm; eauto | exact O]. }
  destruct e as [doc ps n z narrow | idx [ctx|] | data | idx | | dt | w | w | w [err|page] | w r];
    try discriminate Et; simpl in H.
  - injection H as <-. apply runEffect_orderly; assumption.
  - injection H as <-. exact O.
  - injection H as <-. exact O.
  - injection H as <-. apply requestRender_orderly; assumption.
  - injection H as <-. exact O.
  - injection H as <-. apply requestRender_orderly; assumption.
  - unfold advance in H. destruct (dt <? 0); [discriminate|]. injection H as <-.
    eapply calm_orderly; [|apply fire_orderly, O]. calm.
Qed.

Lemma run_orderly es : forall s s',
  run variant devicePixelRatio s es = Some s' ->
  Tracked s -> Orderly s -> Tracked s' /\ Orderly s'.
Proof.
  induction es as [|e es IH]; simpl; intros s s' H T O.
  - injection H as <-. auto.
  - destruct (step _ _ s e) as [s1|] eqn:E; [|discriminate]. simpl in H.
    eapply IH; [exact H | |].
    + eapply step_tracked; eauto.
    + eapply step_orderly; eauto.
Qed.

Lemma initial_orderly : Orderly initial.
Proof.
  unfold Orderly. cbn. repeat split; auto;
    try (rewrite lookup_nil in H; discriminate H).
  intros tm [].
Qed.

End Orderly.

(** X4.  In every state the component can reach at most one effect run is
    live: a pass whose [cancelled] flag is still false is the pass of the
    last effect run, the [schedule] held by [scheduleRenderRef] is its own,
    and its loop id is the current value of [renderLoopIdRef] (so for such a
    pass the loop-id test of [waitForCanvas] and [renderOne] never fires). *)
Theorem one_live_pass
    (variant : Scheduler.Variant) (devicePixelRatio : float)
    (es : list Scheduler.Event) (s : Scheduler.State)
    (pid : Scheduler.PassId) (ps : Scheduler.Pass) :
  Scheduler.run variant devicePixelRatio Scheduler.initial es = Some s ->
  Scheduler.passes (Scheduler.comp s) !! pid = Some ps ->
  Scheduler.cancelled ps = false ->
  Scheduler.liveEffect (Scheduler.comp s) = Some pid
  /\ Scheduler.scheduleRender (Scheduler.comp s) = Some pid
  /\ Scheduler.loopId ps = Scheduler.renderLoopId (Scheduler.comp s)
  /\ forall (q : Scheduler.PassId) (qs : Scheduler.Pass),
       Scheduler.passes (Scheduler.comp s) !! q = Some qs ->
       Scheduler.cancelled qs = false -> q = pid.
Proof.
  intros Hrun Hp Hc.
  destruct (run_orderly variant devicePixelRatio es _ _ Hrun initial_tracked initial_orderly)
    as [_ (O1 & O2 & _)].
  destruct (O1 pid ps Hp Hc) as [L1 L2].
  repeat split; try assumption.
  - rewrite O2. exact L1.
  - intros q qs Hq Hqc. destruct (O1 q qs Hq Hqc) as [L3 _]. congruence.
Qed.


(** After the two zoom changes of [Scenario.staleRaster] the fifth effect
    run is the live one. *)
Lemma one_live_pass_witness :
  Scheduler.liveEffect
    (Scheduler.comp
       (default Scheduler.initial
          (Scheduler.run Scheduler.Mobile 2 Scheduler.initial Scenario.staleRaster)))
  = Some 4%nat.
Proof.
  refine (proj1 (one_live_pass Scheduler.Mobile 2 Scenario.staleRaster
                   (default Scheduler.initial
                      (Scheduler.run Scheduler.Mobile 2 Scheduler.initial Scenario.staleRaster))
                   4%nat _ _ _ _)).
  - vm_compute. reflexivity.
  - vm_compute. reflexivity.
  - reflexivity.
Defined.


(** ** After the effect is torn down *)

Section Teardown.
Import Scheduler Tracking Liveness.
Variable variant : Variant.
Variable devicePixelRatio : float.

(** Resuming a suspended call starts no call of [renderWindow]. *)
Lemma resume_windows s e s' wid :
  target e = Some wid -> step variant devicePixelRatio s e = Some s' ->
  length (windows (comp s')) = length (windows (comp s)).
Proof.
  intros Ht H.
  destruct e as [doc ps n z narrow | idx [ctx|] | data | idx | | dt | w | w | w [err|page] | w r];
    simpl in Ht; try discriminate; simpl in H.
  - unfold frame in H.
    destruct (windows (comp s) !! w) as [win|]; simpl in H; [|discriminate].
    destruct (point win); try discriminate.
    destruct (passes (comp s) !! pass win) as [ps|]; simpl in H; [|discriminate].
    injection H as <-. cbn. apply length_insert.
  - unfold resume in H.
    destruct (windows (comp s) !! w) as [win|]; simpl in H; [|discriminate].
    destruct (point win) as [ | p [c|] | | | p | | ]; try discriminate.
    + injection H as <-. cbn. apply length_insert.
    + injection H as <-. cbn. apply length_insert.
    + destruct (passes (comp s) !! pass win) as [ps|]; simpl in H; [|discriminate].
      match type of H with context [loop ?a ?b ?c ?d ?e] =>
        pose proof (loop_keeps a b c d e) as (_ & HW & _);
        destruct (loop a b c d e) as [s2 win'] end.
      injection H as <-. simpl in HW. cbn. rewrite length_insert, HW.
      destruct variant; reflexivity.
  - unfold getPageFailed in H.
    destruct (windows (comp s) !! w) as [win|]; simpl in H; [|discriminate].
    destruct (point win); try discriminate. injection H as <-. cbn. apply length_insert.
  - unfold gotPage in H.
    destruct (windows (comp s) !! w) as [win|]; simpl in H; [|discriminate].
    destruct (point win) as [ | | p c | | | | ]; try discriminate.
    destruct (passes (comp s) !! pass win) as [ps|] eqn:Ep; simpl in H; [|discriminate].
    destruct (cancelled ps).
    { injection H as <-. cbn. apply length_insert. }
    destruct (canvases (dom s) !! c) as [cv|]; simpl in H; [|discriminate].
    destruct (negb _); injection H as <-; cbn; apply length_insert.
  - unfold settled in H.
    destruct (windows (comp s) !! w) as [win|]; simpl in H; [|discriminate].
    destruct (point win) as [ | | | p c t | | | ]; try discriminate.
    destruct (passes (comp s) !! pass win) as [ps|]; simpl in H; [|discriminate].
    destruct (tasks (host s) !! t) as [ts|]; simpl in H; [|discriminate].
    match type of H with (if ?b then _ else _) = _ => destruct b end; [|discriminate].
    destruct r as [e|]; injection H as <-.
    + destruct (benign e); cbn; apply length_insert.
    + cbn. apply length_insert.
Qed.

(** With no [schedule] installed and no timer pending, an event that is
    not an effect run starts no call of [renderWindow] and arms no timer. *)
Lemma step_idle s e s' :
  noEffectRun e = true ->
  step variant devicePixelRatio s e = Some s' ->
  timers (host s) = [] -> scheduleRender (comp s) = None ->
  timers (host s') = [] /\ scheduleRender (comp s') = None
  /\ length (windows (comp s')) = length (windows (comp s))
  /\ flags <$> passes (comp s') = flags <$> passes (comp s).
Proof.
  intros Hne H Ht Hs.
  destruct (target e) as [wid|] eqn:Et.
  { destruct (resume_calm variant devicePixelRatio s e s' wid Et H) as (E1 & E2 & _ & _ & E5).
    rewrite E1, E2. repeat split; auto. eapply resume_windows; eauto. }
  destruct e as [doc ps n z narrow | idx [ctx|] | data | idx | | dt | w | w | w [err|page] | w r];
    try discriminate Et; try discriminate Hne; simpl in H.
  - injection H as <-. auto.
  - injection H as <-. auto.
  - injection H as <-. unfold requestRender. cbn. rewrite Hs. auto.
  - injection H as <-. auto.
  - injection H as <-. unfold requestRender. rewrite Hs. auto.
  - unfold advance in H. destruct (dt <? 0); [discriminate|]. injection H as <-.
    rewrite Ht. cbn. auto.
Qed.

Lemma run_idle es : forall s s',
  forallb noEffectRun es = true ->
  run variant devicePixelRatio s es = Some s' ->
  timers (host s) = [] -> scheduleRender (comp s) = None ->
  timers (host s') = [] /\ scheduleRender (comp s') = None
  /\ length (windows (comp s')) = length (windows (comp s))
  /\ flags <$> passes (comp s') = flags <$> passes (comp s).
Proof.
  induction es as [|e es IH]; simpl; intros s s' Hne H Ht Hs.
  - injection H as <-. auto.
  - apply andb_prop in Hne as [Hne1 Hne2].
    destruct (step _ _ s e) as [s1|] eqn:E; [|discriminate]. simpl in H.
    destruct (step_idle s e s1 Hne1 E Ht Hs) as (T1 & S1 & W1 & F1).
    destruct (IH s1 s' Hne2 H T1 S1) as (T2 & S2 & W2 & F2).
    rewrite W2, W1, F2, F1. auto.
Qed.

End Teardown.

(** X6.  When the effect runs without a document, a page size or a positive
    page count, only the cleanup of the previous run takes place.  From then
    on, whatever happens short of another effect run - flips, render
    requests, time passing, suspended calls resuming - no call of
    [renderWindow] starts, no timer is armed, and no pass is live. *)
Theorem teardown_is_quiet
    (variant : Scheduler.Variant) (devicePixelRatio : float)
    (es : list Scheduler.Event) (s : Scheduler.State)
    (doc : bool) (pageSize : option Size) (numPages : Z) (viewZoom : float) (isNarrow : bool)
    (es' : list Scheduler.Event) (s' : Scheduler.State) :
  Scheduler.run variant devicePixelRatio Scheduler.initial es = Some s ->
  doc = false \/ pageSize = None \/ numPages <= 0 ->
  forallb Liveness.noEffectRun es' = true ->
  Scheduler.run variant devicePixelRatio
    (Scheduler.runEffect doc pageSize numPages viewZoom isNarrow s) es' = Some s' ->
  length (Scheduler.windows (Scheduler.comp s')) = length (Scheduler.windows (Scheduler.comp s))
  /\ Scheduler.timers (Scheduler.host s') = []
  /\ Scheduler.scheduleRender (Scheduler.comp s') = None
  /\ forall pid ps, Scheduler.passes (Scheduler.comp s') !! pid = Some ps ->
                    Scheduler.cancelled ps = true.
Proof.
  intros Hrun Hoff Hne Hrun'.
  destruct (run_orderly variant devicePixelRatio es _ _ Hrun initial_tracked initial_orderly)
    as [T O].
  pose proof (windows_runEffect doc pageSize numPages viewZoom isNarrow s) as Hw.
  destruct (cleanup_settles s T O) as (Hdead & Ht & Hs & _). cbn zeta in *.
  set (s0 := Scheduler.runEffect doc pageSize numPages viewZoom isNarrow s) in *.
  assert (E : s0 = Scheduler.setLiveEffect None
                     (match Scheduler.liveEffect (Scheduler.comp s) with
                      | Some old => Scheduler.cleanup old s | None => s end)).
  { unfold s0, Scheduler.runEffect. destruct doc; [|reflexivity].
    destruct pageSize as [sz|]; [|reflexivity].
    destruct (numPages <=? 0) eqn:En; [reflexivity|].
    destruct Hoff as [? | [? | ?]]; [discriminate | discriminate | lia]. }
  destruct (run_idle variant devicePixelRatio es' s0 s' Hne Hrun') as (T2 & S2 & W2 & F2).
  { rewrite E. exact Ht. }
  { rewrite E. exact Hs. }
  rewrite W2, Hw. repeat split; auto.
  intros pid ps Hp. destruct (Scheduler.cancelled ps) eqn:Ec; [reflexivity|].
  destruct (flags_lookup s0 s' pid ps F2 Hp) as (qs & Hq & Hqc & _).
  exfalso. apply (Hdead pid). exists qs. split; [|congruence].
  rewrite E in Hq. exact Hq.
Qed.

(** The document goes away while the open reader waits for its timer; a flip
    and a second of time later nothing has started. *)
Lemma teardown_is_quiet_witness :
  length (Scheduler.windows (Scheduler.comp
     (default Scheduler.initial
        (Scheduler.run Scheduler.Mobile 2
           (Scheduler.runEffect false None 0 1 true Scenario.started)
           [Scheduler.Flip 1; Scheduler.Advance 1000])))) = 0%nat.
Proof.
  refine (proj1 (teardown_is_quiet Scheduler.Mobile 2 Scenario.opened Scenario.started
                   false None 0 1 true [Scheduler.Flip 1; Scheduler.Advance 1000] _ _ _ _ _)).
  - vm_compute. reflexivity.
  - left. reflexivity.
  - reflexivity.
  - vm_compute. reflexivity.
Defined.

(** ** Effect runs that keep the generation *)



(** ** Raster tasks the cleanup cancels *)

Section RasterTasks.
Import Scheduler.
Variable variant : Variant.
Variable devicePixelRatio : float.














End RasterTasks.



(** ** Waiting for a surface *)

Section Frames.
Import Scheduler.
Variable variant : Variant.
Variable devicePixelRatio : float.

Lemma run_app es1 : forall es2 s,
  run variant devicePixelRatio s (es1 ++ es2) =
  match run variant devicePixelRatio s es1 with
  | Some s1 => run variant devicePixelRatio s1 es2
  | None => None
  end.
Proof.
  induction es1 as [|e es1 IH]; intros es2 s; simpl; [reflexivity|].
  destruct (step _ _ s e) as [s1|]; simpl; [apply IH | reflexivity].
Qed.

(** While no surface is attached, each animation frame moves
    [waitForCanvas] to its next iteration and changes nothing else. *)
Lemma frames_wait k : forall (i : nat) s (wid : WindowId) win ps p,
  windows (comp s) !! wid = Some win -> point win = InFrame p i ->
  passes (comp s) !! pass win = Some ps -> cancelled ps = false ->
  renderLoopId (comp s) = loopId ps ->
  (forall c, canvasRefs (dom s) !! Z.to_nat (p - 1) <> Some (Some c)) ->
  (i + k < maxFrames)%nat ->
  exists s1,
    run variant devicePixelRatio s (replicate k (Frame wid)) = Some s1
    /\ windows (comp s1) !! wid = Some (moveTo (InFrame p (i + k)) win)
    /\ cache s1 = cache s /\ dom s1 = dom s /\ host s1 = host s
    /\ passes (comp s1) = passes (comp s)
    /\ renderLoopId (comp s1) = renderLoopId (comp s).
Proof.
  induction k as [|k IH]; intros i s wid win ps p Hw Hpt Hp Hc Hl Hno Hi.
  - exists s. simpl. rewrite Nat.add_0_r, <- Hpt. repeat split; auto.
    rewrite Hw. destruct win; reflexivity.
  - assert (L : (wid < length (windows (comp s)))%nat)
      by (eapply lookup_lt_Some; exact Hw).
    assert (Ew : waitForCanvas ps p (S i) s = InFrame p (S i)).
    { unfold waitForCanvas. destruct (S i <? maxFrames)%nat eqn:E.
      - rewrite Hc, Hl, Z.eqb_refl. simpl.
        destruct (canvasRefs (dom s) !! Z.to_nat (p - 1)) as [[c|]|] eqn:Ec;
          [exfalso; exact (Hno c eq_refl) | reflexivity | reflexivity].
      - apply Nat.ltb_ge in E. lia. }
    set (s' := putWindow wid (moveTo (InFrame p (S i)) win) s).
    destruct (IH (S i) s' wid (moveTo (InFrame p (S i)) win) ps p)
      as (s1 & Hrun & Hw1 & E1 & E2 & E3 & E4 & E5); try assumption; try reflexivity.
    + unfold s'. cbn. apply list_lookup_insert_eq, L.
    + lia.
    + exists s1. split; [|repeat split; auto].
      * change (replicate (S k) (Frame wid)) with (Frame wid :: replicate k (Frame wid)).
        cbn [run step]. unfold frame. rewrite Hw. cbn [mbind option_bind]. rewrite Hpt, Hp.
        cbn [mbind option_bind]. rewrite Ew. exact Hrun.
      * rewrite Hw1. cbn. rewrite Nat.add_succ_r. reflexivity.
Qed.

End Frames.

(** X9.  [waitForCanvas] gives up after 180 animation frames.  While the
    pass is live and no surface is attached to the page, each frame only
    moves the wait to its next iteration; the frame that ends iteration 179
    ends the wait with no surface, and [renderOne] then returns at once:
    the page leaves the in-flight set, the rendered set is as it was, and
    nothing was asked of the document. *)
Theorem waitForCanvas_gives_up
    (variant : Scheduler.Variant) (devicePixelRatio : float)
    (s : Scheduler.State) (wid : Scheduler.WindowId) (win : Scheduler.Window)
    (ps : Scheduler.Pass) (p : Z) (i : nat) :
  Scheduler.windows (Scheduler.comp s) !! wid = Some win ->
  Scheduler.point win = Scheduler.InFrame p i ->
  Scheduler.passes (Scheduler.comp s) !! Scheduler.pass win = Some ps ->
  Scheduler.cancelled ps = false ->
  Scheduler.renderLoopId (Scheduler.comp s) = Scheduler.loopId ps ->
  (forall c, Scheduler.canvasRefs (Scheduler.dom s) !! Z.to_nat (p - 1) <> Some (Some c)) ->
  (i < 180)%nat ->
  (forall k, (k < 180 - i)%nat ->
     exists s1,
       Scheduler.run variant devicePixelRatio s (replicate k (Scheduler.Frame wid)) = Some s1
       /\ Scheduler.windows (Scheduler.comp s1) !! wid
          = Some (Scheduler.moveTo (Scheduler.InFrame p (i + k)) win))
  /\ exists s2 s3,
       Scheduler.run variant devicePixelRatio s
         (replicate (180 - i) (Scheduler.Frame wid)) = Some s2
       /\ Scheduler.windows (Scheduler.comp s2) !! wid
          = Some (Scheduler.moveTo (Scheduler.GotCanvas p None) win)
       /\ Scheduler.step variant devicePixelRatio s2 (Scheduler.Resume wid) = Some s3
       /\ Scheduler.windows (Scheduler.comp s3) !! wid
          = Some (Scheduler.moveTo (Scheduler.Returned p) win)
       /\ Scheduler.rendered s3 = Scheduler.rendered s
       /\ ~ In p (Scheduler.inflight s3)
       /\ Scheduler.tasks (Scheduler.host s3) = Scheduler.tasks (Scheduler.host s).
Proof.
  intros Hw Hpt Hp Hc Hl Hno Hi. split.
  - intros k Hk.
    destruct (frames_wait variant devicePixelRatio k i s wid win ps p)
      as (s1 & Hrun & Hw1 & _); try assumption.
    + unfold Scheduler.maxFrames. lia.
    + eauto.
  - destruct (frames_wait variant devicePixelRatio (179 - i) i s wid win ps p)
      as (s1 & Hrun & Hw1 & E1 & E2 & E3 & E4 & E5); try assumption.
    { unfold Scheduler.maxFrames. lia. }
    replace (i + (179 - i))%nat with 179%nat in Hw1 by lia.
    assert (L : (wid < length (Scheduler.windows (Scheduler.comp s1)))%nat)
      by (eapply lookup_lt_Some; exact Hw1).
    set (s2 := Scheduler.putWindow wid
                 (Scheduler.moveTo (Scheduler.GotCanvas p None) win) s1).
    set (s3 := Scheduler.giveUp wid (Scheduler.moveTo (Scheduler.GotCanvas p None) win) p s2).
    exists s2, s3.
    assert (Hw2 : Scheduler.windows (Scheduler.comp s2) !! wid
                  = Some (Scheduler.moveTo (Scheduler.GotCanvas p None) win)).
    { unfold s2. cbn. apply list_lookup_insert_eq, L. }
    split; [|split; [exact Hw2|split; [|split; [|split; [|split]]]]].
    + replace (180 - i)%nat with ((179 - i) + 1)%nat by lia.
      rewrite replicate_add, run_app, Hrun. cbn [replicate Scheduler.run Scheduler.step].
      unfold Scheduler.frame. rewrite Hw1. cbn [mbind option_bind Scheduler.point
        Scheduler.moveTo Scheduler.pass]. rewrite E4, Hp. reflexivity.
    + cbn [Scheduler.step]. unfold Scheduler.resume. rewrite Hw2. reflexivity.
    + unfold s3. cbn. rewrite list_lookup_insert_eq; [reflexivity|].
      unfold s2. cbn. rewrite length_insert. exact L.
    + unfold s3, s2, Scheduler.rendered. cbn. rewrite E1. reflexivity.
    + apply giveUp_clears.
    + unfold s3, s2. cbn. rewrite E3. reflexivity.
Qed.

(** The pass of a reader whose widget never attaches a canvas: 180 frames
    on, page 1 is given up. *)
Lemma waitForCanvas_gives_up_witness :
  exists s2 s3,
    Scheduler.run Scheduler.Mobile 2 Scenario2.unmounted
      (replicate (180 - 0) (Scheduler.Frame 0)) = Some s2
    /\ Scheduler.windows (Scheduler.comp s2) !! 0%nat
       = Some (Scheduler.moveTo (Scheduler.GotCanvas 1 None)
                 (Scheduler.Build_Window 0 1 [2; 3] (Scheduler.InFrame 1 0) 160))
    /\ Scheduler.step Scheduler.Mobile 2 s2 (Scheduler.Resume 0) = Some s3
    /\ Scheduler.windows (Scheduler.comp s3) !! 0%nat
       = Some (Scheduler.moveTo (Scheduler.Returned 1)
                 (Scheduler.Build_Window 0 1 [2; 3] (Scheduler.InFrame 1 0) 160))
    /\ Scheduler.rendered s3 = Scheduler.rendered Scenario2.unmounted
    /\ ~ In 1 (Scheduler.inflight s3)
    /\ Scheduler.tasks (Scheduler.host s3) = Scheduler.tasks (Scheduler.host Scenario2.unmounted).
Proof.
  refine (proj2 (waitForCanvas_gives_up Scheduler.Mobile 2 Scenario2.unmounted 0%nat
                   (Scheduler.Build_Window 0 1 [2; 3] (Scheduler.InFrame 1 0) 160)
                   (Scheduler.Build_Pass 3 (mkSize 400 (400 * 1.4142)) 1 true 1
                      (Scheduler.sizeKeyOf (mkSize 400 (400 * 1.4142)) 1) false
                      [None; None; None])
                   1 0%nat _ _ _ _ _ _ _));
    try (vm_compute; reflexivity).
  - intros c. vm_compute. discriminate.
  - lia.
Defined.

(** ** A pass nothing disturbs *)

Section Pass.
Import Scheduler Undisturbed.
Variable variant : Variant.
Variable devicePixelRatio : float.
Variable getPage : Z -> PdfPage.

Lemma fmap_insert_same {A B} (g : A -> B) (l : list A) (i : nat) x y :
  l !! i = Some x -> g y = g x -> g <$> <[i := y]> l = g <$> l.
Proof.
  intros H E. rewrite list_fmap_insert. apply list_insert_id.
  rewrite list_lookup_fmap, H. simpl. congruence.
Qed.

Lemma fmap_alter_same {A B} (g : A -> B) (f : A -> A) (l : list A) (i : nat) :
  (forall x, g (f x) = g x) -> g <$> alter f i l = g <$> l.
Proof.
  intros E. revert i. induction l as [|x l IH]; intros [|i]; simpl; try reflexivity.
  - rewrite E. reflexivity.
  - f_equal. apply IH.
Qed.

Lemma Keep_refl s : Keep s s.
Proof. repeat split. Qed.

Lemma Keep_trans s1 s2 s3 : Keep s1 s2 -> Keep s2 s3 -> Keep s1 s3.
Proof.
  intros (A1 & A2 & A3 & A4 & A5) (B1 & B2 & B3 & B4 & B5). unfold Keep.
  rewrite B1, B2, B3, B4, B5. auto.
Qed.

Lemma facts_lookup s (pid : nat) b l N key :
  (facts <$> passes (comp s)) !! pid = Some (b, l, N, key) ->
  exists ps, passes (comp s) !! pid = Some ps
             /\ cancelled ps = b /\ loopId ps = l /\ numPages ps = N
             /\ currentSizeKey ps = key.
Proof.
  rewrite list_lookup_fmap. destruct (passes (comp s) !! pid) as [ps|]; [|discriminate].
  intros [= H1 H2 H3 H4]. eauto 6.
Qed.

Lemma canvasOf_lookup s p (c : nat) :
  canvasOf s p = Some c -> canvasRefs (dom s) !! Z.to_nat (p - 1) = Some (Some c).
Proof.
  unfold canvasOf. destruct (canvasRefs (dom s) !! Z.to_nat (p - 1)) as [[c'|]|];
    cbn; intros H; try discriminate H. injection H as ->. reflexivity.
Qed.

Lemma contexts_lookup s (c : nat) :
  contexts s !! c = Some true ->
  exists cv, canvases (dom s) !! c = Some cv /\ context2d cv = true.
Proof.
  unfold contexts. rewrite list_lookup_fmap.
  destruct (canvases (dom s) !! c) as [cv|]; [|discriminate]. intros [= H]. eauto.
Qed.

(** The surface is there: on to [getPage]. *)
Lemma step_gotCanvas s (wid : WindowId) win p c :
  windows (comp s) !! wid = Some win -> point win = GotCanvas p (Some c) ->
  step variant devicePixelRatio s (Resume wid)
  = Some (putWindow wid (moveTo (InGetPage p c) win) s).
Proof. intros Hw Hpt. cbn [step]. unfold resume. rewrite Hw. cbn. rewrite Hpt. reflexivity. Qed.

(** The page is there: the canvas is prepared and the raster starts. *)
Lemma step_gotPage s (wid : WindowId) win p (c : nat) ps cv page :
  windows (comp s) !! wid = Some win -> point win = InGetPage p c ->
  passes (comp s) !! pass win = Some ps -> cancelled ps = false ->
  canvases (dom s) !! c = Some cv -> context2d cv = true ->
  exists s',
    step variant devicePixelRatio s (GetPage wid (inr page)) = Some s'
    /\ windows (comp s') !! wid = Some (moveTo (InTask p c (length (tasks (host s)))) win)
    /\ tasks (host s') = tasks (host s) ++ [Running]
    /\ cache s' = cache s
    /\ Keep s s'
    /\ (forall c0 : nat, c0 <> c -> canvases (dom s') !! c0 = canvases (dom s) !! c0)
    /\ (exists cv', canvases (dom s') !! c = Some cv'
                    /\ datasetSizeKey cv' = Some (currentSizeKey ps)).
Proof.
  intros Hw Hpt Hp Hc Hcv Hctx.
  assert (L : (wid < length (windows (comp s)))%nat) by (eapply lookup_lt_Some; exact Hw).
  assert (Lc : (c < length (canvases (dom s)))%nat) by (eapply lookup_lt_Some; exact Hcv).
  cbn [step]. unfold gotPage. rewrite Hw. cbn [mbind option_bind]. rewrite Hpt, Hp.
  cbn [mbind option_bind]. rewrite Hc. unfold CanvasId in *. rewrite Hcv.
  cbn [mbind option_bind].
  cbn [context2d prepare]. rewrite Hctx. cbn [negb].
  eexists. split; [reflexivity|].
  unfold Keep.
  cbn [comp host dom cache windows tasks console canvasRefs canvases passes renderLoopId
       status putWindow setWindows setCanvases setPasses setTasks withComp withDom withHost].
  split; [apply list_lookup_insert_eq, L|].
  repeat split.
  - unfold contexts. cbn.
    rewrite fmap_alter_same by reflexivity.
    apply (fmap_insert_same context2d _ c cv); [exact Hcv | reflexivity].
  - apply (fmap_insert_same facts _ (pass win) ps); [exact Hp | reflexivity].
  - intros c0 Hne. rewrite list_lookup_alter_ne by congruence.
    rewrite list_lookup_insert_ne by congruence. reflexivity.
  - eexists. split.
    + rewrite list_lookup_alter_eq, list_lookup_insert_eq by exact Lc. reflexivity.
    + reflexivity.
Qed.

(** The raster is done: the page is rendered and no longer in flight. *)
Lemma step_rastered s (wid : WindowId) win p (c : nat) t ps :
  windows (comp s) !! wid = Some win -> point win = InTask p c t ->
  passes (comp s) !! pass win = Some ps ->
  tasks (host s) !! t = Some Running ->
  exists s',
    step variant devicePixelRatio s (TaskSettles wid None) = Some s'
    /\ windows (comp s') !! wid = Some (moveTo (Returned p) win)
    /\ rendered s' = PageSet.add p (rendered s)
    /\ inflight s' = PageSet.delete p (inflight s)
    /\ Keep s s'
    /\ (forall c0 : nat, c0 <> c -> canvases (dom s') !! c0 = canvases (dom s) !! c0)
    /\ canvases (dom s') !! c
       = paint (Raster p (currentSizeKey ps)) <$> canvases (dom s) !! c.
Proof.
  intros Hw Hpt Hp Ht.
  assert (L : (wid < length (windows (comp s)))%nat) by (eapply lookup_lt_Some; exact Hw).
  cbn [step]. unfold settled. rewrite Hw. cbn [mbind option_bind]. rewrite Hpt, Hp.
  cbn [mbind option_bind]. rewrite Ht. cbn [mbind option_bind].
  eexists. split; [reflexivity|].
  unfold giveUp, rendered, inflight, Keep, contexts.
  cbn [comp host dom cache windows tasks console canvasRefs canvases passes renderLoopId
       status renderedPages inflightPages
       putWindow setWindows setCanvases setPasses setTasks setRendered setInflight
       withComp withDom withHost withCache].
  split; [apply list_lookup_insert_eq, L|].
  repeat split.
  - apply fmap_alter_same. reflexivity.
  - intros c0 Hne. rewrite list_lookup_alter_ne by congruence. reflexivity.
  - apply list_lookup_alter_eq.
Qed.

(** [renderOne] returned: the loop of [renderWindow] goes on. *)
Lemma step_returned s (wid : WindowId) win p ps :
  windows (comp s) !! wid = Some win -> point win = Returned p ->
  passes (comp s) !! pass win = Some ps ->
  exists s0,
    step variant devicePixelRatio s (Resume wid)
    = Some (putWindow wid
              (snd (loop (pass win) (currentPageNo win) (rest win) (startedAt win) s0))
              (fst (loop (pass win) (currentPageNo win) (rest win) (startedAt win) s0)))
    /\ cache s0 = cache s /\ dom s0 = dom s /\ Keep s s0
    /\ windows (comp s0) = windows (comp s).
Proof.
  intros Hw Hpt Hp. cbn [step]. unfold resume. rewrite Hw. cbn [mbind option_bind].
  rewrite Hpt, Hp. cbn [mbind option_bind].
  exists (match variant with
          | Desktop => setStatus (Rendering (PageSet.size (rendered s)) (numPages ps)) s
          | Mobile => s
          end). split.
  - match goal with |- context [loop ?a ?b ?c ?d ?e] =>
      destruct (loop a b c d e) as [s2 win'] eqn:E end.
    cbn [fst snd]. reflexivity.
  - destruct variant; repeat split.
Qed.

Lemma drive_step fuel (wid : WindowId) s e s' :
  next getPage wid s = Some e -> step variant devicePixelRatio s e = Some s' ->
  drive variant devicePixelRatio (S fuel) getPage wid s
  = drive variant devicePixelRatio fuel getPage wid s'.
Proof. intros Hn Hs. cbn [drive]. rewrite Hn, Hs. reflexivity. Qed.

Lemma next_at (wid : WindowId) s win :
  windows (comp s) !! wid = Some win ->
  next getPage wid s =
  match point win with
  | InFrame _ _ => Some (Frame wid)
  | GotCanvas _ _ | Returned _ => Some (Resume wid)
  | InGetPage p _ => Some (GetPage wid (inr (getPage p)))
  | InTask _ _ _ => Some (TaskSettles wid None)
  | Done | Thrown _ => None
  end.
Proof. intros Hw. unfold next. rewrite Hw. reflexivity. Qed.

Lemma canvasOf_keep s s1 p : Keep s s1 -> canvasOf s1 p = canvasOf s p.
Proof. intros (K1 & _). unfold canvasOf. rewrite K1. reflexivity. Qed.

Lemma Fit_keep (pid : PassId) N key todo s s1 :
  (forall q, In q (inflight s1) -> In q (inflight s)) -> Keep s s1 ->
  Fit pid N key todo s -> Fit pid N key todo s1.
Proof.
  intros Ei K [F1 F2]. pose proof K as (K1 & K2 & _ & K4 & K5). unfold Fit.
  rewrite K2, K4, K5. split; [exact F1|].
  intros p Hp. destruct (F2 p Hp) as (G1 & G2 & c & G3 & G4).
  split; [exact G1|]. split; [auto|]. exists c. rewrite (canvasOf_keep s s1 p K). auto.
Qed.

Lemma Fit_tail (pid : PassId) N key p todo s :
  Fit pid N key (p :: todo) s -> Fit pid N key todo s.
Proof. intros [F1 F2]. split; [exact F1|]. intros q Hq. apply F2. right. exact Hq. Qed.

(** From the loop of [renderWindow] on the pages [todo] to its end. *)
Lemma drive_loop (pid : PassId) (wid : WindowId) N key cur started todo : forall s fuel s1,
  Fit pid N key todo s ->
  (4 * length todo <= fuel)%nat ->
  Agree (fst (loop pid cur todo started s)) s1 ->
  windows (comp s1) !! wid = Some (snd (loop pid cur todo started s)) ->
  exists s2,
    drive variant devicePixelRatio fuel getPage wid s1 = Some s2
    /\ Finished wid cur key todo s s2.
Proof.
  induction todo as [|p todo IH]; intros s fuel s1 HF Hfuel HA Hw.
  - (* the tail of [renderWindow] *)
    cbn [loop fst snd] in HA, Hw.
    exists s1. split.
    + destruct fuel as [|fuel]; [reflexivity|].
      cbn [drive]. rewrite (next_at wid s1 _ Hw). reflexivity.
    + destruct HA as (Ec & Es & Ed & (_ & _ & Eo & _)).
      unfold Finished, rendered, inflight. rewrite Ec, Ed.
      split; [|split; [|split; [|split; [|split; [|split]]]]].
      * intros q. destruct (PageSet.has cur (rendered s) || _ || _); cbn; tauto.
      * intros q. destruct (PageSet.has cur (rendered s) || _ || _); cbn; tauto.
      * eexists. split; [exact Hw | reflexivity].
      * rewrite Eo. destruct (PageSet.has cur (rendered s) || _ || _); reflexivity.
      * rewrite Es.
        assert (Er : renderedPages
                       (cache (if PageSet.has cur (rendered s)
                                  || PageSet.has (cur + 1) (rendered s)
                                  || PageSet.has (cur - 1) (rendered s)
                               then setStatus Ready s else s)) = rendered s).
        { destruct (_ || _); reflexivity. }
        rewrite Er. intros ->. reflexivity.
      * destruct (PageSet.has cur (rendered s) || _ || _); reflexivity.
      * intros _. split.
        -- intros c _. destruct (PageSet.has cur (rendered s) || _ || _); reflexivity.
        -- intros q c [].
  - (* one page *)
    pose proof HF as [HN Hpages].
    destruct (facts_lookup s pid _ _ _ _ HN) as (ps & Hp & Hc & Hl & HNp & Hkey).
    destruct (Hpages p (or_introl eq_refl)) as ([Hp1 Hp2] & Hnf & c & Hc1 & Hc2).
    assert (Hloop : loop pid cur (p :: todo) started s =
              let '(s', pt) := renderOne pid p s in
              (s', {| pass := pid; currentPageNo := cur; rest := todo; point := pt;
                      startedAt := started |})).
    { cbn [loop]. unfold PassId in *. rewrite Hp, Hc. reflexivity. }
    rewrite Hloop in HA, Hw. clear Hloop.
    unfold renderOne in HA, Hw. unfold PassId in *. rewrite Hp, Hc in HA, Hw.
    assert (E1 : (p <? 1) || (numPages ps <? p) = false).
    { rewrite HNp. apply orb_false_intro; apply Z.ltb_ge; lia. }
    assert (E2 : negb (renderLoopId (comp s) =? loopId ps) = false).
    { rewrite Hl, Z.eqb_refl. reflexivity. }
    assert (E3 : PageSet.has p (inflight s) = false) by (apply has_false, Hnf).
    rewrite E1, E2, E3, orb_false_r in HA, Hw.
    destruct (PageSet.has p (rendered s)) eqn:Hr.
    + (* already rendered: [renderOne] returns at once *)
      cbn [fst snd] in HA, Hw.
      destruct fuel as [|fuel]; [simpl in Hfuel; lia|].
      destruct HA as (Ec & Es & Ed & K).
      assert (Hp1' : exists ps1, passes (comp s1) !! pid = Some ps1).
      { destruct K as (_ & _ & _ & K4 & _).
        rewrite <- K4 in HN. destruct (facts_lookup s1 pid _ _ _ _ HN) as (ps1 & H1 & _).
        eauto. }
      destruct Hp1' as [ps1 Hps1].
      destruct (step_returned s1 wid _ p ps1 Hw eq_refl Hps1)
        as (s0 & Hstep & Ec0 & Ed0 & K0 & W0).
      cbn [pass currentPageNo rest startedAt] in Hstep.
      rewrite (drive_step fuel wid s1 _ _ (next_at wid s1 _ Hw) Hstep).
      assert (Er : rendered s0 = rendered s) by (unfold rendered; rewrite Ec0, Ec; reflexivity).
      assert (Ei : inflight s0 = inflight s) by (unfold inflight; rewrite Ec0, Ec; reflexivity).
      assert (K0' : Keep s s0) by (eapply Keep_trans; eassumption).
      assert (Ed0' : dom s0 = dom s) by congruence.
      destruct (IH s0 fuel
                  (putWindow wid (snd (loop pid cur todo started s0))
                     (fst (loop pid cur todo started s0)))) as (s2 & Hd & Hfin).
      * apply (Fit_keep pid N key todo s s0); [rewrite Ei; auto | exact K0'|].
        eapply Fit_tail, HF.
      * simpl in Hfuel. lia.
      * repeat split.
      * cbn. apply list_lookup_insert_eq.
        rewrite (proj1 (proj2 (loop_keeps pid cur todo started s0))), W0.
        eapply lookup_lt_Some. exact Hw.
      * exists s2. split; [exact Hd|].
        destruct Hfin as (F1 & F2 & F3 & F4 & F5 & F6 & F7).
        assert (Eo : console (host s0) = console (host s)).
        { destruct K0' as (_ & _ & K3 & _). exact K3. }
        apply has_In in Hr.
        split; [|split; [|split; [|split; [|split; [|split]]]]]; try assumption.
        -- intros q. rewrite F1, Er. simpl. intuition (subst; auto).
        -- intros q. rewrite F2, Ei. reflexivity.
        -- rewrite F4. exact Eo.
        -- rewrite F6, Ed0'. reflexivity.
        -- intros Sep.
           assert (Sep0 : Separate todo s0).
           { intros a b c0 Ha Hb. rewrite !(canvasOf_keep s s0 _ K0').
             apply Sep; right; assumption. }
           destruct (F7 Sep0) as [S1 S2]. split.
           ++ intros c0 Hsp. unfold CanvasId in *. rewrite <- Ed0'. apply S1.
              intros q Hq Hnr. rewrite (canvasOf_keep s s0 _ K0').
              apply Hsp; [right; exact Hq | rewrite <- Er; exact Hnr].
           ++ intros q c0 [<- | Hq] Hnr Hco; [contradiction|].
              apply S2; [exact Hq | rewrite Er; exact Hnr|].
              rewrite (canvasOf_keep s s0 _ K0'). exact Hco.
    + (* a page to rasterize *)
      unfold CanvasId in *.
      apply canvasOf_lookup in Hc1 as Hc1'.
      assert (Ewait : waitForCanvas ps p 0 (setInflight (PageSet.add p (inflight s)) s)
                      = GotCanvas p (Some c)).
      { unfold waitForCanvas. cbn [Nat.ltb Nat.leb maxFrames].
        rewrite Hc. cbn [comp dom setInflight withCache canvasRefs renderLoopId].
        rewrite E2. unfold CanvasId in *. rewrite Hc1'. reflexivity. }
      rewrite Ewait in HA, Hw. cbn [fst snd] in HA, Hw.
      destruct fuel as [|[|[|[|fuel]]]]; try (simpl in Hfuel; lia).
      destruct HA as (Ec & Es & Ed & K).
      set (win0 := {| pass := pid; currentPageNo := cur; rest := todo;
                      point := GotCanvas p (Some c); startedAt := started |}) in *.
      assert (L : (wid < length (windows (comp s1)))%nat)
        by (eapply lookup_lt_Some; exact Hw).
      (* the surface *)
      pose proof (step_gotCanvas s1 wid win0 p c Hw eq_refl) as Hs1.
      rewrite (drive_step _ wid s1 _ _ (next_at wid s1 _ Hw) Hs1).
      set (sb := putWindow wid (moveTo (InGetPage p c) win0) s1).
      assert (Hwb : windows (comp sb) !! wid = Some (moveTo (InGetPage p c) win0))
        by (unfold sb; cbn; apply list_lookup_insert_eq, L).
      assert (Kb : Keep s sb).
      { eapply Keep_trans; [|exact K]. repeat split. }
      assert (Ecb : cache sb = cache (setInflight (PageSet.add p (inflight s)) s))
        by exact Ec.
      assert (Edb : dom sb = dom s) by exact Ed.
      (* the page *)
      assert (Hpb : exists psb, passes (comp sb) !! pid = Some psb
                                /\ cancelled psb = false /\ currentSizeKey psb = key).
      { destruct Kb as (_ & _ & _ & K4 & _). rewrite <- K4 in HN.
        destruct (facts_lookup sb pid _ _ _ _ HN) as (psb & H1 & H2 & _ & _ & H5). eauto. }
      destruct Hpb as (psb & Hpsb & Hcb & Hkb).
      assert (Hcvb : exists cv, canvases (dom sb) !! c = Some cv /\ context2d cv = true).
      { apply contexts_lookup. destruct Kb as (_ & K2 & _). rewrite K2. exact Hc2. }
      destruct Hcvb as (cv & Hcv & Hctx).
      destruct (step_gotPage sb wid _ p c psb cv (getPage p) Hwb eq_refl Hpsb Hcb Hcv Hctx)
        as (sc & Hs2 & Hwc & Htc & Ecc & Kc & Oc & (cvc & Hcvc & Hdc)).
      rewrite (drive_step _ wid sb _ _ (next_at wid sb _ Hwb) Hs2).
      (* the raster *)
      assert (Hpc : exists psc, passes (comp sc) !! pid = Some psc
                                /\ currentSizeKey psc = key).
      { destruct (Keep_trans _ _ _ Kb Kc) as (_ & _ & _ & K4 & _). rewrite <- K4 in HN.
        destruct (facts_lookup sc pid _ _ _ _ HN) as (psc & H1 & _ & _ & _ & H5). eauto. }
      destruct Hpc as (psc & Hpsc & Hkc).
      assert (Htask : tasks (host sc) !! length (tasks (host sb)) = Some Running).
      { rewrite Htc. apply list_lookup_middle. reflexivity. }
      destruct (step_rastered sc wid _ p c _ psc Hwc eq_refl Hpsc Htask)
        as (sd & Hs3 & Hwd & Erd & Eid & Kd & Od & Hcvd).
      rewrite (drive_step _ wid sc _ _ (next_at wid sc _ Hwc) Hs3).
      (* back in the loop *)
      assert (Hpd : exists psd, passes (comp sd) !! pid = Some psd).
      { destruct (Keep_trans _ _ _ (Keep_trans _ _ _ Kb Kc) Kd) as (_ & _ & _ & K4 & _).
        rewrite <- K4 in HN.
        destruct (facts_lookup sd pid _ _ _ _ HN) as (psd & H1 & _). eauto. }
      destruct Hpd as (psd & Hpsd).
      destruct (step_returned sd wid _ p psd Hwd eq_refl Hpsd)
        as (s0 & Hs4 & Ec0 & Ed0 & K0 & W0).
      cbn [pass currentPageNo rest startedAt moveTo win0] in Hs4.
      rewrite (drive_step _ wid sd _ _ (next_at wid sd _ Hwd) Hs4).
      assert (Er0 : rendered s0 = PageSet.add p (rendered s)).
      { unfold rendered in *. rewrite Ec0, Erd, Ecc, Ecb. reflexivity. }
      assert (Ei0 : inflight s0 = PageSet.delete p (PageSet.add p (inflight s))).
      { unfold inflight in *. rewrite Ec0, Eid, Ecc, Ecb. reflexivity. }
      assert (K0' : Keep s s0).
      { eapply Keep_trans; [|exact K0]. eapply Keep_trans; [|exact Kd].
        eapply Keep_trans; [exact Kb | exact Kc]. }
      assert (Hsame : forall q, In q (inflight s0) <-> In q (inflight s)).
      { intros q. rewrite Ei0, In_delete, In_add. split; [tauto|].
        intros H. split; [auto|]. intros ->. exact (Hnf H). }
      assert (Oth : forall c0 : nat, c0 <> c ->
                      canvases (dom s0) !! c0 = canvases (dom s) !! c0).
      { intros c0 Hne. rewrite Ed0, (Od c0 Hne), (Oc c0 Hne), Edb. reflexivity. }
      assert (Own : exists cvd, canvases (dom s0) !! c = Some cvd
                      /\ pixels cvd = Raster p key /\ datasetSizeKey cvd = Some key).
      { exists (paint (Raster p (currentSizeKey psc)) cvc). rewrite Ed0, Hcvd, Hcvc.
        split; [reflexivity|]. cbn. rewrite Hkc, Hdc, Hkb. auto. }
      destruct (IH s0 fuel
                  (putWindow wid (snd (loop pid cur todo started s0))
                     (fst (loop pid cur todo started s0)))) as (s2 & Hd & Hfin).
      * apply (Fit_keep pid N key todo s s0); [intros q; apply Hsame | exact K0'|].
        eapply Fit_tail, HF.
      * simpl in Hfuel. lia.
      * repeat split.
      * cbn. apply list_lookup_insert_eq.
        rewrite (proj1 (proj2 (loop_keeps pid cur todo started s0))), W0.
        eapply lookup_lt_Some. exact Hwd.
      * exists s2. split; [exact Hd|].
        destruct Hfin as (F1 & F2 & F3 & F4 & F5 & F6 & F7).
        assert (Hnr : ~ In p (rendered s)) by (apply has_false, Hr).
        split; [|split; [|split; [|split; [|split; [|split]]]]]; try assumption.
        -- intros q. rewrite F1, Er0, In_add. simpl. intuition (subst; auto).
        -- intros q. rewrite F2. apply Hsame.
        -- rewrite F4. destruct K0' as (_ & _ & K3 & _). exact K3.
        -- rewrite F6. destruct K0' as (K1 & _). exact K1.
        -- intros Sep.
           assert (Sep0 : Separate todo s0).
           { intros a b c0 Ha Hb. rewrite !(canvasOf_keep s s0 _ K0').
             apply Sep; right; assumption. }
           destruct (F7 Sep0) as [S1 S2].
           assert (Hspare : Spare todo s0 c).
           { intros q Hq Hnq Hco. rewrite (canvasOf_keep s s0 _ K0') in Hco.
             assert (q = p) as -> by (apply (Sep q p c); simpl; auto).
             apply Hnq. rewrite Er0, In_add. auto. }
           split.
           ++ intros c0 Hsp. unfold CanvasId in *.
              assert (Hne : c0 <> c).
              { intros ->. apply (Hsp p); simpl; auto. }
              rewrite <- (Oth c0 Hne). apply S1.
              intros q Hq Hnq. rewrite (canvasOf_keep s s0 _ K0').
              apply Hsp; [right; exact Hq|].
              intros Hin. apply Hnq. rewrite Er0, In_add. auto.
           ++ intros q c0 [<- | Hq] Hnq Hco; unfold CanvasId in *.
              ** assert (c0 = c) as -> by congruence.
                 rewrite (S1 c Hspare). exact Own.
              ** destruct (decide (q = p)) as [-> | Hqp].
                 { assert (c0 = c) as -> by congruence.
                   rewrite (S1 c Hspare). exact Own. }
                 apply S2; [exact Hq | | rewrite (canvasOf_keep s s0 _ K0'); exact Hco].
                 rewrite Er0, In_add. intros [E | Hin]; auto.
Qed.

(** The call of [renderWindow] a timer starts, driven to its end. *)
Lemma pass_finished s (pid : PassId) ps :
  passes (comp s) !! pid = Some ps ->
  cancelled ps = false ->
  loopId ps = renderLoopId (comp s) ->
  0 < numPages ps ->
  let pages := want variant (isNarrow ps) (numPages ps) (pageIndexRef (comp s)) in
  let cur := Z.max 0 (Z.min (numPages ps - 1) (pageIndexRef (comp s))) + 1 in
  (forall p, In p pages -> ~ In p (inflight s)) ->
  (forall p, In p pages ->
     exists (c : CanvasId) cv,
       canvasRefs (dom s) !! Z.to_nat (p - 1) = Some (Some c)
       /\ canvases (dom s) !! c = Some cv /\ context2d cv = true) ->
  In cur pages
  /\ exists s2,
       drive variant devicePixelRatio (4 * length pages) getPage
         (length (windows (comp s))) (renderWindow variant pid s) = Some s2
       /\ Finished (length (windows (comp s))) cur (currentSizeKey ps) pages s s2.
Proof.
  intros Hp Hc Hl HN pages cur Hfree Hsurf.
  unfold PassId, CanvasId in *.
  set (N := numPages ps) in *.
  set (s0 := setStatus (Rendering (PageSet.size (rendered s)) N) s).
  assert (Hrw : renderWindow variant pid s =
                setWindows
                  (windows (comp (fst (loop pid cur pages (clock (host s)) s0)))
                   ++ [snd (loop pid cur pages (clock (host s)) s0)])
                  (fst (loop pid cur pages (clock (host s)) s0))).
  { unfold renderWindow. unfold PassId. rewrite Hp. fold N. fold cur. fold pages. fold s0.
    destruct (loop pid cur pages (clock (host s)) s0). reflexivity. }
  assert (Hin : forall p, In p pages -> 1 <= p <= N).
  { intros p Hin. unfold pages, want in Hin. apply in_range in Hin. lia. }
  assert (Hcur : In cur pages).
  { unfold pages, want. apply in_range. fold N. fold cur.
    destruct variant, (isNarrow ps); cbn; lia. }
  split; [exact Hcur|].
  destruct (drive_loop pid (length (windows (comp s))) N (currentSizeKey ps) cur
              (clock (host s)) pages s0 (4 * length pages)
              (renderWindow variant pid s)) as (s2 & Hd & Hfin).
  - split.
    + cbn. rewrite list_lookup_fmap, Hp. cbn. unfold facts. rewrite Hc, Hl. reflexivity.
    + intros p Hp'. split; [apply Hin, Hp'|]. split; [apply Hfree, Hp'|].
      destruct (Hsurf p Hp') as (c & cv & H1 & H2 & H3). exists c. split.
      * unfold canvasOf, CanvasId. cbn. rewrite H1. reflexivity.
      * unfold contexts, CanvasId. cbn. rewrite list_lookup_fmap, H2. cbn. rewrite H3.
        reflexivity.
  - lia.
  - rewrite Hrw. repeat split.
  - rewrite Hrw. cbn.
    rewrite (proj1 (proj2 (loop_keeps pid cur pages (clock (host s)) s0))).
    apply list_lookup_middle. reflexivity.
  - exists s2. split; [exact Hd | exact Hfin].
Qed.

End Pass.

(** X10.  A pass nothing disturbs renders its whole window.  Take a live
    pass whose timer fires, with a surface with a 2D context attached to each
    page of the window and none of these pages in flight.  If from then on
    the awaited promises are fulfilled in turn - [getPage] with the page,
    the raster without error - then after at most four resumptions per page
    the call of [renderWindow] is over, the rendered set is the former one
    plus the pages of the window, the in-flight set is as it was, the
    status is [ready], and nothing was logged. *)
Theorem undisturbed_pass_renders_window
    (variant : Scheduler.Variant) (devicePixelRatio : float)
    (getPage : Z -> Scheduler.PdfPage)
    (s : Scheduler.State) (pid : Scheduler.PassId) (ps : Scheduler.Pass) :
  Scheduler.passes (Scheduler.comp s) !! pid = Some ps ->
  Scheduler.cancelled ps = false ->
  Scheduler.loopId ps = Scheduler.renderLoopId (Scheduler.comp s) ->
  0 < Scheduler.numPages ps ->
  let pages := Scheduler.want variant (Scheduler.isNarrow ps) (Scheduler.numPages ps)
                 (Scheduler.pageIndexRef (Scheduler.comp s)) in
  (forall p, In p pages -> ~ In p (Scheduler.inflight s)) ->
  (forall p, In p pages ->
     exists (c : Scheduler.CanvasId) cv,
       Scheduler.canvasRefs (Scheduler.dom s) !! Z.to_nat (p - 1) = Some (Some c)
       /\ Scheduler.canvases (Scheduler.dom s) !! c = Some cv
       /\ Scheduler.context2d cv = true) ->
  let wid := length (Scheduler.windows (Scheduler.comp s)) in
  exists s2,
    Undisturbed.drive variant devicePixelRatio (4 * length pages) getPage wid
      (Scheduler.renderWindow variant pid s) = Some s2
    /\ (forall q, In q (Scheduler.rendered s2) <-> In q (Scheduler.rendered s) \/ In q pages)
    /\ (forall q, In q (Scheduler.inflight s2) <-> In q (Scheduler.inflight s))
    /\ (exists win, Scheduler.windows (Scheduler.comp s2) !! wid = Some win
                    /\ Scheduler.point win = Scheduler.Done)
    /\ Scheduler.status (Scheduler.comp s2) = Scheduler.Ready
    /\ Scheduler.console (Scheduler.host s2) = Scheduler.console (Scheduler.host s).
Proof.
  intros Hp Hc Hl HN pages Hfree Hsurf wid.
  destruct (pass_finished variant devicePixelRatio getPage s pid ps Hp Hc Hl HN Hfree Hsurf)
    as (Hcur & s2 & Hd & F1 & F2 & F3 & F4 & F5 & _).
  exists s2. split; [exact Hd|]. split; [exact F1|]. split; [exact F2|].
  split; [exact F3|split; [|exact F4]].
  apply F5.
  assert (Hr : Scheduler.PageSet.has
                 (Z.max 0 (Z.min (Scheduler.numPages ps - 1)
                                 (Scheduler.pageIndexRef (Scheduler.comp s))) + 1)
                 (Scheduler.rendered s2) = true).
  { apply has_In, F1. right. exact Hcur. }
  rewrite Hr. reflexivity.
Qed.

(** The first pass of the open reader renders pages 1 to 3. *)
Lemma undisturbed_pass_renders_window_witness :
  exists s2,
    Undisturbed.drive Scheduler.Mobile 2 12 (fun _ => Scenario.a4) 0%nat
      (Scheduler.renderWindow Scheduler.Mobile 0%nat Scenario.started) = Some s2
    /\ (forall q, In q (Scheduler.rendered s2) <-> In q [] \/ In q [1; 2; 3])
    /\ Scheduler.status (Scheduler.comp s2) = Scheduler.Ready.
Proof.
  destruct (undisturbed_pass_renders_window Scheduler.Mobile 2 (fun _ => Scenario.a4)
              Scenario.started 0%nat
              (Scheduler.Build_Pass 3 (mkSize 400 (400 * 1.4142)) 1 true 1
                 (Scheduler.sizeKeyOf (mkSize 400 (400 * 1.4142)) 1) false
                 [None; None; None]))
    as (s2 & Hd & Hr & _ & _ & Hst & _).
  - vm_compute. reflexivity.
  - reflexivity.
  - reflexivity.
  - reflexivity.
  - intros p Hin. vm_compute. intros [].
  - intros p Hin. vm_compute in Hin.
    destruct Hin as [<- | [<- | [<- | []]]]; vm_compute; eauto.
  - exists s2. split; [exact Hd|]. split; [exact Hr | exact Hst].
Defined.

(** X11.  What a pass nothing disturbs leaves on the surfaces.  Under the
    conditions of X10, and with no canvas attached to two pages of the
    window: each page of the window that was not rendered before ends with
    its surface tagged with the generation key of the pass and showing the
    finished raster of that page under that key; and the surface of a page
    of the window that was rendered before is left as it was. *)
Theorem undisturbed_pass_paints_surfaces
    (variant : Scheduler.Variant) (devicePixelRatio : float)
    (getPage : Z -> Scheduler.PdfPage)
    (s : Scheduler.State) (pid : Scheduler.PassId) (ps : Scheduler.Pass) :
  Scheduler.passes (Scheduler.comp s) !! pid = Some ps ->
  Scheduler.cancelled ps = false ->
  Scheduler.loopId ps = Scheduler.renderLoopId (Scheduler.comp s) ->
  0 < Scheduler.numPages ps ->
  let pages := Scheduler.want variant (Scheduler.isNarrow ps) (Scheduler.numPages ps)
                 (Scheduler.pageIndexRef (Scheduler.comp s)) in
  (forall p, In p pages -> ~ In p (Scheduler.inflight s)) ->
  (forall p, In p pages ->
     exists (c : Scheduler.CanvasId) cv,
       Scheduler.canvasRefs (Scheduler.dom s) !! Z.to_nat (p - 1) = Some (Some c)
       /\ Scheduler.canvases (Scheduler.dom s) !! c = Some cv
       /\ Scheduler.context2d cv = true) ->
  (forall p q c, In p pages -> In q pages ->
     Undisturbed.canvasOf s p = Some c -> Undisturbed.canvasOf s q = Some c -> p = q) ->
  let wid := length (Scheduler.windows (Scheduler.comp s)) in
  let key := Scheduler.currentSizeKey ps in
  exists s2,
    Undisturbed.drive variant devicePixelRatio (4 * length pages) getPage wid
      (Scheduler.renderWindow variant pid s) = Some s2
    /\ (forall q, In q pages -> ~ In q (Scheduler.rendered s) ->
          exists cv, Scenario.surface q s2 = Some cv
                     /\ Scheduler.pixels cv = Scheduler.Raster q key
                     /\ Scheduler.datasetSizeKey cv = Some key)
    /\ (forall q, In q pages -> In q (Scheduler.rendered s) ->
          Scenario.surface q s2 = Scenario.surface q s).
Proof.
  intros Hp Hc Hl HN pages Hfree Hsurf Hsep wid key.
  destruct (pass_finished variant devicePixelRatio getPage s pid ps Hp Hc Hl HN Hfree Hsurf)
    as (_ & s2 & Hd & _ & _ & _ & _ & _ & F6 & F7).
  destruct (F7 Hsep) as [S1 S2].
  exists s2. split; [exact Hd|]. split.
  - intros q Hq Hnr. destruct (Hsurf q Hq) as (c & cv & H1 & _).
    assert (Hco : Undisturbed.canvasOf s q = Some c).
    { unfold Undisturbed.canvasOf, Scheduler.CanvasId in *. rewrite H1. reflexivity. }
    destruct (S2 q c Hq Hnr Hco) as (cv2 & G1 & G2 & G3).
    exists cv2. split; [|auto].
    unfold Scenario.surface, Scheduler.CanvasId in *. rewrite F6, H1. exact G1.
  - intros q Hq Hr. destruct (Hsurf q Hq) as (c & cv & H1 & _).
    assert (Hco : Undisturbed.canvasOf s q = Some c).
    { unfold Undisturbed.canvasOf, Scheduler.CanvasId in *. rewrite H1. reflexivity. }
    unfold Scenario.surface, Scheduler.CanvasId in *. rewrite F6, H1. cbn.
    apply S1. intros q' Hq' Hnr' Hco'.
    assert (q' = q) as -> by (apply (Hsep q' q c); assumption).
    contradiction.
Qed.

(** The surfaces of the open reader after its first pass. *)
Lemma undisturbed_pass_paints_surfaces_witness :
  exists s2,
    Undisturbed.drive Scheduler.Mobile 2 12 (fun _ => Scenario.a4) 0%nat
      (Scheduler.renderWindow Scheduler.Mobile 0%nat Scenario.started) = Some s2
    /\ exists cv, Scenario.surface 2 s2 = Some cv
                  /\ Scheduler.pixels cv
                     = Scheduler.Raster 2 (Scheduler.sizeKeyOf (mkSize 400 (400 * 1.4142)) 1).
Proof.
  destruct (undisturbed_pass_paints_surfaces Scheduler.Mobile 2 (fun _ => Scenario.a4)
              Scenario.started 0%nat
              (Scheduler.Build_Pass 3 (mkSize 400 (400 * 1.4142)) 1 true 1
                 (Scheduler.sizeKeyOf (mkSize 400 (400 * 1.4142)) 1) false
                 [None; None; None]))
    as (s2 & Hd & Hs & _).
  - vm_compute. reflexivity.
  - reflexivity.
  - reflexivity.
  - reflexivity.
  - intros p Hin. vm_compute. intros [].
  - intros p Hin. vm_compute in Hin.
    destruct Hin as [<- | [<- | [<- | []]]]; vm_compute; eauto.
  - intros p q c Hp Hq. vm_compute in Hp, Hq.
    destruct Hp as [<- | [<- | [<- | []]]]; destruct Hq as [<- | [<- | [<- | []]]];
      vm_compute; congruence.
  - exists s2. split; [exact Hd|].
    destruct (Hs 2) as (cv & H1 & H2 & _).
    + vm_compute. auto.
    + vm_compute. intros [].
    + exists cv. auto.
Defined.

(** ** Zoom levels, labels and keys *)

Lemma after_level (ops : list Zoom.Op) :
  exists k, 7 <= k <= 25 /\ Zoom.after ops = Zoom.level k.
Proof.
  unfold Zoom.after. change Zoom.initial with (Zoom.level 10).
  apply fold_apply_level. lia.
Qed.

Lemma canZoomIn_level (k : Z) :
  7 <= k <= 25 -> Zoom.canZoomIn (Zoom.level k) = (k <? 25).
Proof. revert k. apply level_cases; vm_compute; reflexivity. Qed.

Lemma canZoomOut_level (k : Z) :
  7 <= k <= 25 -> Zoom.canZoomOut (Zoom.level k) = (7 <? k).
Proof. revert k. apply level_cases; vm_compute; reflexivity. Qed.

Lemma level_index (k : Z) :
  7 <= k <= 25 -> nth (Z.to_nat (k - 7)) (map Zoom.level levels) nan = Zoom.level k.
Proof. revert k. apply level_cases; reflexivity. Qed.

(** The nineteen levels are nineteen different numbers. *)
Lemma level_inj (k k' : Z) :
  7 <= k <= 25 -> 7 <= k' <= 25 -> Zoom.level k = Zoom.level k' -> k = k'.
Proof.
  intros Hk Hk' E.
  assert (D : distinctFloats (map Zoom.level levels) = true) by (vm_compute; reflexivity).
  apply andb_prop in D as [D1 D2].
  destruct (Z.eq_dec k k') as [|Hne]; [assumption|exfalso].
  rewrite forallb_forall in D1, D2.
  assert (Hi : In (Z.to_nat (k - 7)) (seq 0 (length (map Zoom.level levels)))).
  { apply in_seq. change (length (map Zoom.level levels)) with 19%nat. lia. }
  assert (Hj : In (Z.to_nat (k' - 7)) (seq 0 (length (map Zoom.level levels)))).
  { apply in_seq. change (length (map Zoom.level levels)) with 19%nat. lia. }
  pose proof (D2 _ Hi) as D3. rewrite forallb_forall in D3. specialize (D3 _ Hj).
  rewrite !level_index in D3 by assumption.
  assert (Hn : (Z.to_nat (k - 7) =? Z.to_nat (k' - 7))%nat = false)
    by (apply Nat.eqb_neq; lia).
  rewrite Hn in D3. simpl in D3.
  assert (Hs : (Zoom.level k' =? Zoom.level k')%float = true).
  { apply D1. apply in_map. apply in_range. lia. }
  rewrite E, Hs in D3. discriminate D3.
Qed.

(** X12.  Zoom in and zoom out undo each other.  At every zoom factor the
    buttons can reach, a click on the enabled zoom-in button followed by a
    click on zoom-out gives back the same factor, bit for bit, and so does
    zoom-out followed by zoom-in. *)
Theorem zoom_round_trip (ops : list Zoom.Op) :
  (Zoom.canZoomIn (Zoom.after ops) = true ->
   Zoom.onZoomOut (Zoom.onZoomIn (Zoom.after ops)) = Zoom.after ops)
  /\ (Zoom.canZoomOut (Zoom.after ops) = true ->
      Zoom.onZoomIn (Zoom.onZoomOut (Zoom.after ops)) = Zoom.after ops).
Proof.
  destruct (after_level ops) as (k & Hk & ->). split; intros H.
  - rewrite canZoomIn_level in H by exact Hk. apply Z.ltb_lt in H.
    rewrite onZoomIn_level, onZoomOut_level by lia. f_equal. lia.
  - rewrite canZoomOut_level in H by exact Hk. apply Z.ltb_lt in H.
    rewrite onZoomOut_level, onZoomIn_level by lia. f_equal. lia.
Qed.

(** From 100%: in and back out, out and back in. *)
Lemma zoom_round_trip_witness :
  Zoom.onZoomOut (Zoom.onZoomIn (Zoom.after [])) = Zoom.after []
  /\ Zoom.onZoomIn (Zoom.onZoomOut (Zoom.after [])) = Zoom.after [].
Proof.
  split.
  - apply (proj1 (zoom_round_trip [])). reflexivity.
  - apply (proj2 (zoom_round_trip [])). reflexivity.
Defined.

(** X13.  A zoom button is disabled exactly where its handler has no
    effect.  At every zoom factor the buttons can reach, [canZoomIn] is
    false if and only if the factor is 2.5, which is if and only if the
    zoom-in handler leaves the factor as it is; likewise [canZoomOut], 0.7
    and the zoom-out handler. *)
Theorem zoom_buttons_disabled_at_bounds (ops : list Zoom.Op) :
  (Zoom.canZoomIn (Zoom.after ops) = false <-> Zoom.after ops = 2.5%float)
  /\ (Zoom.canZoomIn (Zoom.after ops) = false <->
      Zoom.onZoomIn (Zoom.after ops) = Zoom.after ops)
  /\ (Zoom.canZoomOut (Zoom.after ops) = false <-> Zoom.after ops = 0.7%float)
  /\ (Zoom.canZoomOut (Zoom.after ops) = false <->
      Zoom.onZoomOut (Zoom.after ops) = Zoom.after ops).
Proof.
  destruct (after_level ops) as (k & Hk & ->).
  rewrite canZoomIn_level, canZoomOut_level, onZoomIn_level, onZoomOut_level by exact Hk.
  change 2.5%float with (Zoom.level 25). change 0.7%float with (Zoom.level 7).
  rewrite Z.ltb_ge, Z.ltb_ge.
  repeat split; intros H.
  - f_equal. lia.
  - apply level_inj in H; lia.
  - f_equal. lia.
  - apply level_inj in H; lia.
  - f_equal. lia.
  - apply level_inj in H; lia.
  - f_equal. lia.
  - apply level_inj in H; lia.
Qed.

(** X14.  The zoom label shows a whole number of tens of percent.  At every
    zoom factor the buttons can reach, which is [k / 10] for some [k] from 7
    to 25, the label reads [10 k] followed by a percent sign: the rounding
    of [viewZoom * 100] takes up the error of the binary fraction. *)
Theorem zoomLabel_tens (ops : list Zoom.Op) :
  exists k, 7 <= k <= 25
            /\ Zoom.after ops = Zoom.level k
            /\ Label.zoomLabel (Zoom.after ops) = (Num.digits (10 * k) ++ "%")%string.
Proof.
  destruct (after_level ops) as (k & Hk & ->). exists k. split; [exact Hk|].
  split; [reflexivity|]. revert k Hk. apply level_cases; vm_compute; reflexivity.
Qed.

Lemma append_inj_l (a b c : string) : (a ++ b = a ++ c)%string -> b = c.
Proof. induction a as [|x a IH]; simpl; [auto|]. intros [= H]. auto. Qed.

Lemma toFixed2_index (k : Z) :
  7 <= k <= 25 ->
  nth (Z.to_nat (k - 7)) (map (fun k => Num.toFixed2 (Zoom.level k)) levels) EmptyString
  = Num.toFixed2 (Zoom.level k).
Proof. revert k. apply level_cases; reflexivity. Qed.

(** The nineteen levels print as nineteen different strings. *)
Lemma toFixed2_level_inj (k k' : Z) :
  7 <= k <= 25 -> 7 <= k' <= 25 ->
  Num.toFixed2 (Zoom.level k) = Num.toFixed2 (Zoom.level k') -> k = k'.
Proof.
  intros Hk Hk' E.
  assert (D : distinctStrings (map (fun k => Num.toFixed2 (Zoom.level k)) levels) = true)
    by (vm_compute; reflexivity).
  destruct (Z.eq_dec k k') as [|Hne]; [assumption|exfalso].
  unfold distinctStrings in D. rewrite forallb_forall in D.
  assert (Hi : In (Z.to_nat (k - 7))
                  (seq 0 (length (map (fun k => Num.toFixed2 (Zoom.level k)) levels)))).
  { apply in_seq. rewrite length_map. change (length levels) with 19%nat. lia. }
  assert (Hj : In (Z.to_nat (k' - 7))
                  (seq 0 (length (map (fun k => Num.toFixed2 (Zoom.level k)) levels)))).
  { apply in_seq. rewrite length_map. change (length levels) with 19%nat. lia. }
  pose proof (D _ Hi) as D3. rewrite forallb_forall in D3. specialize (D3 _ Hj).
  rewrite !toFixed2_index in D3 by assumption.
  assert (Hn : (Z.to_nat (k - 7) =? Z.to_nat (k' - 7))%nat = false)
    by (apply Nat.eqb_neq; lia).
  rewrite Hn, E, String.eqb_refl in D3. discriminate D3.
Qed.

(** X15.  A zoom click that changes the zoom factor changes both keys.  At
    every zoom factor the buttons can reach, if a click gives another factor
    then, for the same page box, the generation key of the render effect is
    another string (so the next effect run clears the cache), and so is the
    [key] of the mobile flip-book widget (so React replaces it). *)
Theorem zoom_click_changes_keys
    (ops : list Zoom.Op) (op : Zoom.Op) (size : Size) (pageSize : option Size) :
  Zoom.apply (Zoom.after ops) op <> Zoom.after ops ->
  Scheduler.sizeKeyOf size (Zoom.apply (Zoom.after ops) op)
    <> Scheduler.sizeKeyOf size (Zoom.after ops)
  /\ Viewport.Mobile.flipbookKey pageSize (Zoom.apply (Zoom.after ops) op)
       <> Viewport.Mobile.flipbookKey pageSize (Zoom.after ops).
Proof.
  intros Hne.
  destruct (after_level ops) as (k & Hk & E). rewrite E in *.
  assert (Hk' : exists k', 7 <= k' <= 25 /\ Zoom.apply (Zoom.level k) op = Zoom.level k').
  { destruct op; simpl.
    - rewrite onZoomIn_level by exact Hk. eexists. split; [|reflexivity]. lia.
    - rewrite onZoomOut_level by exact Hk. eexists. split; [|reflexivity]. lia. }
  destruct Hk' as (k' & Hk' & E'). rewrite E' in *.
  assert (Hs : Num.toFixed2 (Zoom.level k') <> Num.toFixed2 (Zoom.level k)).
  { intros H. apply toFixed2_level_inj in H; [|assumption|assumption]. congruence. }
  split; intros H; apply Hs.
  - unfold Scheduler.sizeKeyOf in H. do 4 apply append_inj_l in H. exact H.
  - unfold Viewport.Mobile.flipbookKey in H. do 2 apply append_inj_l in H. exact H.
Qed.

(** The first click on zoom-in, from 100% to 110%. *)
Lemma zoom_click_changes_keys_witness :
  Scheduler.sizeKeyOf (mkSize 400 565.68) (Zoom.apply (Zoom.after []) Zoom.ZoomIn)
    <> Scheduler.sizeKeyOf (mkSize 400 565.68) (Zoom.after []).
Proof.
  refine (proj1 (zoom_click_changes_keys [] Zoom.ZoomIn (mkSize 400 565.68) None _)).
  intros H.
  assert (E : (Zoom.apply (Zoom.after []) Zoom.ZoomIn =? Zoom.after [])%float = false)
    by (vm_compute; reflexivity).
  rewrite H in E. vm_compute in E. discriminate E.
Defined.

(** ** The page label and the buttons of the mobile reader *)

(** X16.  The page label never names a page outside the book.  For every
    page index and page count, with [total = max(1, numPages)] and [left]
    the page number [pageIndex + 1] brought into [1 .. total]: the mobile
    label and the narrow desktop label read [left / total]; the desktop
    label of a spread reads [left-(left+1) / total], except on the last page
    where it reads [left / total].  So an index inside the book shows as
    [pageIndex + 1], and an empty book shows as [1 / 1]. *)
Theorem currentPageLabel_within_book (pageIndex numPages : Z) :
  let total := Z.max 1 numPages in
  let left := Z.min total (Z.max 1 (pageIndex + 1)) in
  1 <= left <= total
  /\ (0 <= pageIndex < numPages -> left = pageIndex + 1 /\ total = numPages)
  /\ (numPages <= 0 -> left = 1 /\ total = 1)
  /\ Label.Mobile.currentPageLabel pageIndex numPages
     = (Num.digits left ++ " / " ++ Num.digits total)%string
  /\ Label.Desktop.currentPageLabel true pageIndex numPages
     = Label.Mobile.currentPageLabel pageIndex numPages
  /\ (left < total ->
      Label.Desktop.currentPageLabel false pageIndex numPages
      = (Num.digits left ++ "-" ++ Num.digits (left + 1) ++ " / " ++ Num.digits total)%string)
  /\ (left = total ->
      Label.Desktop.currentPageLabel false pageIndex numPages
      = (Num.digits left ++ " / " ++ Num.digits total)%string).
Proof.
  intros total left. unfold Label.Mobile.currentPageLabel, Label.Desktop.currentPageLabel.
  fold total. fold left.
  split; [unfold left, total; lia|].
  split; [unfold left, total; lia|].
  split; [unfold left, total; lia|].
  split; [reflexivity|]. split; [reflexivity|]. split.
  - intros H. destruct (Z.min total (left + 1) =? left) eqn:E; [lia|].
    replace (Z.min total (left + 1)) with (left + 1) by lia. reflexivity.
  - intros H. destruct (Z.min total (left + 1) =? left) eqn:E; [reflexivity | lia].
Qed.

(** Page 3 of 10, the last page, and an empty book. *)
Lemma currentPageLabel_within_book_witness :
  Label.Desktop.currentPageLabel false 2 10 = "3-4 / 10"%string
  /\ Label.Desktop.currentPageLabel false 9 10 = "10 / 10"%string
  /\ Label.Mobile.currentPageLabel 7 0 = "1 / 1"%string.
Proof.
  pose proof (currentPageLabel_within_book 2 10) as H1.
  pose proof (currentPageLabel_within_book 9 10) as H2.
  pose proof (currentPageLabel_within_book 7 0) as H3.
  cbv zeta in H1, H2, H3.
  destruct H1 as (_ & _ & _ & _ & _ & H1 & _).
  destruct H2 as (_ & _ & _ & _ & _ & _ & H2).
  destruct H3 as (_ & _ & _ & H3 & _).
  split; [|split].
  - rewrite H1 by (vm_compute; reflexivity). reflexivity.
  - rewrite H2 by reflexivity. reflexivity.
  - rewrite H3. reflexivity.
Defined.

Section MobileButtons.
Import Controls.

Lemma navTo_turns (numPages : Z) (dir : Nav.Dir) (now : float) (st : Nav.State)
    (api : Nav.PageFlip) (i target : Z) :
  Nav.flipbookRef st = Some api -> Nav.getCurrentPageIndex api = Some i ->
  (now - Nav.lastNavAtRef st <? 240)%float = false ->
  Z.max 0 (Z.min (Z.max 0 (numPages - 1))
                 (match dir with Nav.next => i + 1 | Nav.prev => i - 1 end)) = target ->
  target <> i ->
  Nav.Mobile.navTo numPages dir now st
  = {| Nav.flipbookRef := Some (Nav.turnToPage target api); Nav.lastNavAtRef := now;
       Nav.pageIndexRef := Nav.pageIndexRef st;
       Nav.calls := Nav.calls st ++ [Nav.TurnToPage target; Nav.SyncAfterFlip;
                                     Nav.ScheduleRender] |}.
Proof.
  intros Hf Hi Hg Ht Hne. unfold Nav.Mobile.navTo. rewrite Hf, Hg, Hi, Ht.
  destruct (target =? i) eqn:E; [lia | reflexivity].
Qed.

End MobileButtons.

(** X17.  An enabled button of the mobile reader turns exactly one page.
    When the page state agrees with the widget (both at index [i], inside
    the book) and the click is not within 240ms of the last navigation: a
    click on an enabled next button asks the widget for page [i + 1], and
    once [syncAfterFlip] has run the page state and [pageIndexRef] are
    [i + 1]; likewise the previous button and [i - 1]; and a click on a
    disabled button changes nothing. *)
Theorem mobile_button_turns_one_page
    (canUse : bool) (numPages i : Z) (now : float) (r : Controls.Reader) (api : Nav.PageFlip) :
  Nav.flipbookRef (Controls.nav r) = Some api ->
  Nav.getCurrentPageIndex api = Some i ->
  Controls.pageIndex r = i ->
  0 <= i <= numPages - 1 ->
  (now - Nav.lastNavAtRef (Controls.nav r) <? 240)%float = false ->
  (Controls.canNextPage canUse i numPages = true ->
   let r' := Controls.syncPageIndexFromFlipbook (Controls.clickNext canUse numPages now r) in
   Controls.pageIndex r' = i + 1
   /\ Nav.pageIndexRef (Controls.nav r') = i + 1
   /\ Nav.calls (Controls.nav r')
      = Nav.calls (Controls.nav r) ++ [Nav.TurnToPage (i + 1); Nav.SyncAfterFlip;
                                       Nav.ScheduleRender])
  /\ (Controls.canPrevPage canUse i = true ->
      let r' := Controls.syncPageIndexFromFlipbook (Controls.clickPrev canUse numPages now r) in
      Controls.pageIndex r' = i - 1
      /\ Nav.pageIndexRef (Controls.nav r') = i - 1
      /\ Nav.calls (Controls.nav r')
         = Nav.calls (Controls.nav r) ++ [Nav.TurnToPage (i - 1); Nav.SyncAfterFlip;
                                          Nav.ScheduleRender])
  /\ (Controls.canNextPage canUse i numPages = false ->
      Controls.clickNext canUse numPages now r = r)
  /\ (Controls.canPrevPage canUse i = false ->
      Controls.clickPrev canUse numPages now r = r).
Proof.
  intros Hf Hi Hp Hr Hg.
  split; [|split; [|split]].
  - intros Hn r'. unfold Controls.canNextPage in Hn. apply andb_prop in Hn as [-> Hn].
    apply Z.ltb_lt in Hn.
    unfold r', Controls.clickNext, Controls.click, Controls.canNextPage.
    rewrite Hp.
    assert (E : (i <? numPages - 1) = true) by (apply Z.ltb_lt; lia). rewrite E. cbn [andb].
    unfold Nav.Mobile.flipNext.
    rewrite (navTo_turns numPages Nav.next now _ api i (i + 1) Hf Hi Hg) by lia.
    unfold Controls.syncPageIndexFromFlipbook, Controls.getFlipbookPageIndex. cbn.
    destruct (i =? i + 1) eqn:E'; [lia|]. auto.
  - intros Hn r'. unfold Controls.canPrevPage in Hn. apply andb_prop in Hn as [-> Hn].
    apply Z.ltb_lt in Hn.
    unfold r', Controls.clickPrev, Controls.click, Controls.canPrevPage.
    rewrite Hp.
    assert (E : (0 <? i) = true) by (apply Z.ltb_lt; lia). rewrite E. cbn [andb].
    unfold Nav.Mobile.flipPrev.
    rewrite (navTo_turns numPages Nav.prev now _ api i (i - 1) Hf Hi Hg) by lia.
    unfold Controls.syncPageIndexFromFlipbook, Controls.getFlipbookPageIndex. cbn.
    destruct (i =? i - 1) eqn:E'; [lia|]. auto.
  - intros Hn. unfold Controls.clickNext, Controls.click. rewrite Hp, Hn. reflexivity.
  - intros Hn. unfold Controls.clickPrev, Controls.click. rewrite Hp, Hn. reflexivity.
Qed.

(** The next button on the first page of a book of ten pages. *)
Lemma mobile_button_turns_one_page_witness :
  Controls.pageIndex
    (Controls.syncPageIndexFromFlipbook
       (Controls.clickNext true 10 1000
          {| Controls.nav := tenPages; Controls.pageIndex := 0 |})) = 0 + 1.
Proof.
  refine (proj1 (proj1 (mobile_button_turns_one_page true 10 0 1000
                          {| Controls.nav := tenPages; Controls.pageIndex := 0 |}
                          {| Nav.getCurrentPageIndex := Some 0 |} _ _ _ _ _) _));
    try reflexivity.
  lia.
Defined.

(** ** Touch gestures on the desktop reader *)

Section Gestures.
Import Touch.
Variable flipbook : bool.
Variable innerWidth : float.






End Gestures.





(** ** Auto-flip: the interval behind a button held down *)

Section Held.
Import AutoFlip.

Lemma clear_own s :
  Tidy s ->
  intervals (match autoFlipTimerRef s with
             | Some id => clearInterval id s
             | None => s
             end) = [].
Proof.
  intros [T1 _]. destruct (autoFlipTimerRef s) as [id|] eqn:E.
  - cbn. induction (intervals s) as [|iv ivs IH]; [reflexivity|]. cbn.
    destruct (T1 iv (or_introl eq_refl)) as [[= ->] _].
    rewrite Nat.eqb_refl. cbn. apply IH. intros iv' Hin. apply T1. right. exact Hin.
  - destruct (intervals s) as [|iv ivs]; [reflexivity|].
    destruct (T1 iv (or_introl eq_refl)) as [H _]. discriminate H.
Qed.

Lemma startAutoFlip_tidy canUse dir s : Tidy s -> Tidy (startAutoFlip canUse dir s).
Proof.
  intros T. unfold startAutoFlip. destruct canUse; [|exact T]. cbn [negb].
  pose proof (clear_own s T) as E. revert E.
  generalize (match autoFlipTimerRef s with
              | Some id => clearInterval id s
              | None => s
              end). intros s1 E.
  unfold setInterval, Tidy. cbn. rewrite E. cbn. split; [|lia].
  intros iv [<- | []]. auto.
Qed.

Lemma stopAutoFlip_clears s : Tidy s -> intervals (stopAutoFlip s) = []
                                        /\ autoFlipTimerRef (stopAutoFlip s) = None.
Proof.
  intros T. pose proof (clear_own s T) as E. unfold stopAutoFlip.
  destruct (autoFlipTimerRef s) as [id|] eqn:Er; cbn in *; auto.
Qed.

Lemma stopAutoFlip_tidy s : Tidy s -> Tidy (stopAutoFlip s).
Proof.
  intros T. destruct (stopAutoFlip_clears s T) as [E _]. unfold Tidy. rewrite E.
  split; [intros iv [] | simpl; lia].
Qed.

Lemma nextDue_In target ivs iv : nextDue target ivs = Some iv -> In iv ivs.
Proof.
  unfold nextDue. destruct (List.filter _ ivs) as [|x xs] eqn:E; [discriminate|].
  intros [= <-].
  assert (H : forall ys y, In y ivs -> (forall z, In z ys -> In z ivs) ->
                           In (fold_left sooner ys y) ivs).
  { induction ys as [|z ys IH]; intros y Hy Hys; simpl; [exact Hy|].
    apply IH; [|intros z' Hz'; apply Hys; right; exact Hz'].
    unfold sooner. destruct (due z <? due y); [apply Hys; left; reflexivity | exact Hy]. }
  assert (Hsub : forall z, In z (x :: xs) -> In z ivs).
  { intros z Hz. rewrite <- E in Hz. apply filter_In in Hz. tauto. }
  apply H; [apply Hsub; left; reflexivity | intros z Hz; apply Hsub; right; exact Hz].
Qed.

Lemma fireOne_tidy iv s : Tidy s -> Tidy (fireOne iv s).
Proof.
  intros [T1 T2]. unfold Tidy, fireOne. cbn. rewrite length_map. split; [|exact T2].
  intros x Hx. apply in_map_iff in Hx as (y & <- & Hy).
  destruct (T1 y Hy) as [H1 H2].
  destruct (intervalId y =? intervalId iv)%nat; cbn; auto.
Qed.

Lemma fire_tidy fuel target : forall s, Tidy s -> Tidy (fire fuel target s).
Proof.
  induction fuel as [|fuel IH]; intros s T; simpl; [exact T|].
  destruct (nextDue target (intervals s)) as [iv|]; [|exact T].
  apply IH, fireOne_tidy, T.
Qed.

Lemma step_tidy s e s' : step s e = Some s' -> Tidy s -> Tidy s'.
Proof.
  destruct e as [canUse dir | | dir | dt]; simpl; intros H T.
  - injection H as <-. apply startAutoFlip_tidy, T.
  - injection H as <-. apply stopAutoFlip_tidy, T.
  - injection H as <-. exact T.
  - unfold advance in H. destruct (dt <? 0); [discriminate|]. injection H as <-.
    exact (fire_tidy _ _ s T).
Qed.

Lemma run_tidy es : forall s s', run s es = Some s' -> Tidy s -> Tidy s'.
Proof.
  induction es as [|e es IH]; simpl; intros s s' H T.
  - injection H as <-. exact T.
  - destruct (step s e) as [s1|] eqn:E; [|discriminate]. simpl in H.
    eapply IH; [exact H|]. eapply step_tidy; eauto.
Qed.

Lemma initial_tidy nav0 : Tidy (initial nav0).
Proof. split; [intros iv [] | simpl; lia]. Qed.

(** The one interval fires once per period. *)
Lemma fire_single (api : Nav.PageFlip) target k : forall fuel s iv,
  intervals s = [iv] -> period iv = 180 ->
  Nav.flipbookRef (nav s) = Some api ->
  due iv + 180 * (Z.of_nat k - 1) <= target < due iv + 180 * Z.of_nat k ->
  (k <= fuel)%nat ->
  Nav.calls (nav (fire fuel target s))
  = Nav.calls (nav s) ++ repeat (flipCall (direction iv)) k
  /\ autoFlipTimerRef (fire fuel target s) = autoFlipTimerRef s
  /\ Nav.flipbookRef (nav (fire fuel target s)) = Some api
  /\ exists iv', intervals (fire fuel target s) = [iv']
                 /\ intervalId iv' = intervalId iv.
Proof.
  induction k as [|k IH]; intros fuel s iv Hi Hp Hf Ht Hk.
  - assert (E : fire fuel target s = s).
    { destruct fuel as [|fuel]; [reflexivity|]. simpl. unfold nextDue. rewrite Hi. cbn.
      destruct (due iv <=? target) eqn:E; [lia | reflexivity]. }
    rewrite E. cbn [repeat]. rewrite app_nil_r.
    repeat split; try assumption. exists iv. auto.
  - destruct fuel as [|fuel]; [lia|]. simpl. unfold nextDue. rewrite Hi. cbn.
    destruct (due iv <=? target) eqn:E; [|lia]. cbn.
    destruct (IH fuel (fireOne iv s) (again iv)) as (C & R & F & iv' & I1 & I2).
    + unfold fireOne. cbn. rewrite Hi. cbn. rewrite Nat.eqb_refl. reflexivity.
    + exact Hp.
    + unfold fireOne, flip, Nav.Desktop.onClick. cbn. rewrite Hf. reflexivity.
    + cbn. rewrite Hp. lia.
    + lia.
    + rewrite C, R, F. split; [|split; [reflexivity|split; [reflexivity|]]].
      * unfold fireOne, flip, Nav.Desktop.onClick. cbn. rewrite Hf. cbn.
        rewrite <- app_assoc. destruct (direction iv); reflexivity.
      * exists iv'. split; [exact I1 | exact I2].
Qed.

End Held.

(** X20.  At most one auto-flip interval runs, and releasing the button
    stops it.  Whatever the sequence of presses, releases, clicks and time
    passing on the two buttons: at most one interval is pending, it is the
    one [autoFlipTimerRef] holds and it has a period of 180ms; and after a
    release ([onPointerUp], [onPointerCancel] or [onPointerLeave]) none is
    pending. *)
Theorem one_auto_flip_interval
    (nav0 : Nav.State) (es : list AutoFlip.Event) (s : AutoFlip.State) :
  AutoFlip.run (AutoFlip.initial nav0) es = Some s ->
  (length (AutoFlip.intervals s) <= 1)%nat
  /\ (forall iv, In iv (AutoFlip.intervals s) ->
        AutoFlip.autoFlipTimerRef s = Some (AutoFlip.intervalId iv)
        /\ AutoFlip.period iv = 180)
  /\ AutoFlip.intervals (AutoFlip.stopAutoFlip s) = []
  /\ AutoFlip.autoFlipTimerRef (AutoFlip.stopAutoFlip s) = None.
Proof.
  intros Hrun.
  pose proof (run_tidy es _ _ Hrun (initial_tidy nav0)) as T.
  destruct (stopAutoFlip_clears s T) as [E1 E2]. destruct T as [T1 T2]. auto.
Qed.

(** Next is pressed, and before it is released previous is pressed too. *)
Lemma one_auto_flip_interval_witness :
  (length (AutoFlip.intervals
             (default (AutoFlip.initial tenPages)
                (AutoFlip.run (AutoFlip.initial tenPages)
                   [AutoFlip.PointerDown true Nav.next; AutoFlip.Advance 200;
                    AutoFlip.PointerDown true Nav.prev; AutoFlip.Advance 200]))) <= 1)%nat.
Proof.
  refine (proj1 (one_auto_flip_interval tenPages
                   [AutoFlip.PointerDown true Nav.next; AutoFlip.Advance 200;
                    AutoFlip.PointerDown true Nav.prev; AutoFlip.Advance 200] _ _)).
  vm_compute. reflexivity.
Defined.

(** X21.  A button held for [d] milliseconds turns [d / 180] pages, and the
    click at its release one more.  With the flip-book usable, the widget
    mounted and no interval pending: press, [d] ms, release, click make
    [floor(d / 180) + 1] calls of the flip of that direction and no other
    call; no interval is left, and however much time passes afterwards no
    further call is made. *)
Theorem held_button_flips
    (s : AutoFlip.State) (api : Nav.PageFlip) (dir : Nav.Dir) (d d' : Z) :
  AutoFlip.intervals s = [] ->
  AutoFlip.autoFlipTimerRef s = None ->
  Nav.flipbookRef (AutoFlip.nav s) = Some api ->
  0 <= d -> 0 <= d' ->
  exists s1 s2,
    AutoFlip.run s [AutoFlip.PointerDown true dir; AutoFlip.Advance d;
                    AutoFlip.PointerUp; AutoFlip.Click dir] = Some s1
    /\ Nav.calls (AutoFlip.nav s1)
       = Nav.calls (AutoFlip.nav s) ++ repeat (flipCall dir) (Z.to_nat (d / 180) + 1)
    /\ AutoFlip.intervals s1 = []
    /\ AutoFlip.step s1 (AutoFlip.Advance d') = Some s2
    /\ Nav.calls (AutoFlip.nav s2) = Nav.calls (AutoFlip.nav s1).
Proof.
  intros Hi Hr Hf Hd Hd'.
  set (iv := {| AutoFlip.intervalId := AutoFlip.nextIntervalId s; AutoFlip.period := 180;
                AutoFlip.direction := dir; AutoFlip.due := AutoFlip.clock s + 180 |}).
  set (sa := AutoFlip.startAutoFlip true dir s).
  assert (Ia : AutoFlip.intervals sa = [iv]).
  { unfold sa, AutoFlip.startAutoFlip. rewrite Hr. cbn. rewrite Hi. reflexivity. }
  assert (Ra : AutoFlip.autoFlipTimerRef sa = Some (AutoFlip.nextIntervalId s)).
  { unfold sa, AutoFlip.startAutoFlip. rewrite Hr. reflexivity. }
  assert (Na : AutoFlip.nav sa = AutoFlip.nav s).
  { unfold sa, AutoFlip.startAutoFlip. rewrite Hr. reflexivity. }
  assert (Ca : AutoFlip.clock sa = AutoFlip.clock s).
  { unfold sa, AutoFlip.startAutoFlip. rewrite Hr. reflexivity. }
  pose proof (Z.div_mod d 180 ltac:(lia)) as Hdm.
  pose proof (Z.mod_pos_bound d 180 ltac:(lia)) as Hmb.
  assert (Hq : 0 <= d / 180) by (apply Z.div_pos; lia).
  destruct (fire_single api (AutoFlip.clock sa + d) (Z.to_nat (d / 180))
              (length (AutoFlip.intervals sa) * S (Z.to_nat d)) sa iv Ia eq_refl)
    as (C & R & F & iv' & I1 & I2).
  { rewrite Na. exact Hf. }
  { rewrite Ca. cbn [AutoFlip.due iv]. rewrite Z2Nat.id by exact Hq. lia. }
  { rewrite Ia. cbn [length]. rewrite Nat.mul_1_l.
    assert (d / 180 <= d) by (apply Z.div_le_upper_bound; lia). lia. }
  set (sf := AutoFlip.fire (length (AutoFlip.intervals sa) * S (Z.to_nat d))
               (AutoFlip.clock sa + d) sa) in *.
  set (sb := {| AutoFlip.nav := AutoFlip.nav sf;
                AutoFlip.autoFlipTimerRef := AutoFlip.autoFlipTimerRef sf;
                AutoFlip.intervals := AutoFlip.intervals sf;
                AutoFlip.nextIntervalId := AutoFlip.nextIntervalId sf;
                AutoFlip.clock := AutoFlip.clock sa + d |}).
  assert (Hdown : AutoFlip.step s (AutoFlip.PointerDown true dir) = Some sa) by reflexivity.
  assert (Hadv : AutoFlip.step sa (AutoFlip.Advance d) = Some sb).
  { cbn [AutoFlip.step]. unfold AutoFlip.advance. destruct (d <? 0) eqn:E; [lia|].
    reflexivity. }
  assert (Nb : AutoFlip.nav sb = AutoFlip.nav sf) by reflexivity.
  assert (Rb : AutoFlip.autoFlipTimerRef sb = AutoFlip.autoFlipTimerRef sf) by reflexivity.
  assert (Ib : AutoFlip.intervals sb = AutoFlip.intervals sf) by reflexivity.
  clearbody sb sf sa.
  set (sc := AutoFlip.stopAutoFlip sb).
  assert (Hup : AutoFlip.step sb AutoFlip.PointerUp = Some sc) by reflexivity.
  assert (Ic : AutoFlip.intervals sc = []).
  { unfold sc, AutoFlip.stopAutoFlip. rewrite Rb, R, Ra. cbn. rewrite Ib, I1. cbn.
    rewrite I2. cbn. rewrite Nat.eqb_refl. reflexivity. }
  assert (Nc : AutoFlip.nav sc = AutoFlip.nav sf).
  { unfold sc, AutoFlip.stopAutoFlip. rewrite Rb, R, Ra. cbn. exact Nb. }
  clearbody sc.
  set (s1 := AutoFlip.flip dir sc).
  assert (Hclick : AutoFlip.step sc (AutoFlip.Click dir) = Some s1) by reflexivity.
  assert (I1' : AutoFlip.intervals s1 = []) by exact Ic.
  assert (N1 : Nav.calls (AutoFlip.nav s1)
               = Nav.calls (AutoFlip.nav s)
                 ++ repeat (flipCall dir) (Z.to_nat (d / 180) + 1)).
  { unfold s1, AutoFlip.flip, Nav.Desktop.onClick. cbn [AutoFlip.nav]. rewrite Nc, F.
    cbn [Nav.calls]. rewrite C, Na, repeat_app, app_assoc.
    destruct dir; reflexivity. }
  clearbody s1.
  exists s1.
  assert (Hs2 : exists s2, AutoFlip.step s1 (AutoFlip.Advance d') = Some s2
                           /\ Nav.calls (AutoFlip.nav s2) = Nav.calls (AutoFlip.nav s1)).
  { cbn [AutoFlip.step]. unfold AutoFlip.advance. destruct (d' <? 0) eqn:E; [lia|].
    eexists. split; [reflexivity|]. cbn [AutoFlip.nav]. rewrite I1'. reflexivity. }
  destruct Hs2 as (s2 & Hs2 & Hc2). exists s2.
  split; [|split; [exact N1|split; [exact I1'|split; [exact Hs2 | exact Hc2]]]].
  cbn [AutoFlip.run]. rewrite Hdown. cbn [mbind option_bind]. rewrite Hadv.
  cbn [mbind option_bind]. rewrite Hup. cbn [mbind option_bind]. rewrite Hclick.
  reflexivity.
Qed.

(** Next held for a second on a book of ten pages: five auto-flips and the
    click. *)
Lemma held_button_flips_witness :
  exists s1 s2,
    AutoFlip.run (AutoFlip.initial tenPages)
      [AutoFlip.PointerDown true Nav.next; AutoFlip.Advance 1000;
       AutoFlip.PointerUp; AutoFlip.Click Nav.next] = Some s1
    /\ Nav.calls (AutoFlip.nav s1)
       = Nav.calls (AutoFlip.nav (AutoFlip.initial tenPages))
         ++ repeat (flipCall Nav.next) (Z.to_nat (1000 / 180) + 1)
    /\ AutoFlip.intervals s1 = []
    /\ AutoFlip.step s1 (AutoFlip.Advance 5000) = Some s2
    /\ Nav.calls (AutoFlip.nav s2) = Nav.calls (AutoFlip.nav s1).
Proof.
  apply (held_button_flips (AutoFlip.initial tenPages)
           {| Nav.getCurrentPageIndex := Some 0 |} Nav.next 1000 5000);
    try reflexivity; lia.
Defined.

(** ** Panning the zoomed desktop reader *)

Section Panning.
Import Pan.
Variables (settleLeft settleTop : float -> float).

(** While a drag is active on an element, a move leaves the record of the
    press as it is and scrolls to the offsets at the press minus the way
    of the pointer since the press. *)
Lemma drag_active path : forall st el,
  active (dragScrollRef st) = true -> scrollRef st = Some el ->
  dragScrollRef (drag settleLeft settleTop path st) = dragScrollRef st
  /\ isPanning (drag settleLeft settleTop path st) = isPanning st
  /\ panBySpace (drag settleLeft settleTop path st) = panBySpace st
  /\ scrollRef (drag settleLeft settleTop path st)
     = match last path with
       | None => Some el
       | Some p =>
           Some {| scrollLeft := settleLeft (left (dragScrollRef st)
                                             - (fst p - x (dragScrollRef st)));
                   scrollTop := settleTop (top (dragScrollRef st)
                                           - (snd p - y (dragScrollRef st))) |}
       end.
Proof.
  induction path as [|p path IH]; intros st el Ha He; [cbn; auto|].
  assert (E : drag settleLeft settleTop (p :: path) st
              = drag settleLeft settleTop path
                  {| dragScrollRef := dragScrollRef st;
                     scrollRef :=
                       Some {| scrollLeft := settleLeft (left (dragScrollRef st)
                                                         - (fst p - x (dragScrollRef st)));
                               scrollTop := settleTop (top (dragScrollRef st)
                                                       - (snd p - y (dragScrollRef st))) |};
                     panBySpace := panBySpace st; isPanning := isPanning st |}).
  { unfold drag. cbn [fold_left]. unfold onPointerMove at 2. rewrite Ha, He.
    reflexivity. }
  rewrite E. edestruct IH as (D & I & B & S); [| |rewrite D, I, B, S]; [exact Ha|reflexivity|].
  cbn [dragScrollRef isPanning panBySpace]. repeat split.
  destruct path as [|q path]; [reflexivity|].
  change (last (p :: q :: path)) with (last (q :: path)).
  destruct (last (q :: path)) eqn:L; [reflexivity|].
  apply last_None in L. discriminate L.
Qed.

(** Without an active drag, moves change nothing. *)
Lemma drag_idle path st :
  active (dragScrollRef st) = false -> drag settleLeft settleTop path st = st.
Proof.
  intros Ha. induction path as [|p path IH]; [reflexivity|].
  assert (E : fst (onPointerMove settleLeft settleTop (fst p) (snd p) st) = st).
  { unfold onPointerMove. rewrite Ha. reflexivity. }
  unfold drag in *. cbn [fold_left]. rewrite E. exact IH.
Qed.

End Panning.

(** X22.  A drag pans by the way of the pointer since the press, whatever
    its path.  Zoomed in (viewZoom not <= 1), on the scroll element, and
    either outside the flip-book or with Space held: after the press at
    (x0, y0) and any moves ending at p, the element is scrolled to what the
    browser makes of (offset at the press) - (p - (x0, y0)), and the reader
    is panning; after the release it is not, and further moves scroll
    nothing. *)
Theorem pan_follows_pointer
    (settleLeft settleTop : float -> float) (viewZoom : float) (insideFlipbook : bool)
    (x0 y0 : float) (el : Pan.Scroller) (st : Pan.State)
    (path after : list (float * float)) (p : float * float) :
  (viewZoom <=? 1)%float = false ->
  Pan.scrollRef st = Some el ->
  Pan.panBySpace st || negb insideFlipbook = true ->
  let pressed := Pan.onPointerDown viewZoom insideFlipbook x0 y0 st in
  let dragged := Pan.drag settleLeft settleTop (path ++ [p]) (fst pressed) in
  let released := Pan.onPointerUp dragged in
  snd pressed = true
  /\ Pan.scrollRef dragged
     = Some {| Pan.scrollLeft := settleLeft (Pan.scrollLeft el - (fst p - x0))%float;
               Pan.scrollTop := settleTop (Pan.scrollTop el - (snd p - y0))%float |}
  /\ Pan.isPanning dragged = true
  /\ Pan.isPanning released = false
  /\ Pan.drag settleLeft settleTop after released = released
  /\ Pan.scrollRef released = Pan.scrollRef dragged.
Proof.
  intros Hz He Hp. cbv zeta.
  unfold Pan.onPointerDown. rewrite Hz, He, Hp. cbn [negb fst snd].
  set (st1 := {| Pan.dragScrollRef := _; Pan.scrollRef := _; Pan.panBySpace := _;
                 Pan.isPanning := true |}).
  destruct (drag_active settleLeft settleTop (path ++ [p]) st1 el eq_refl eq_refl)
    as (D & I & B & S).
  rewrite last_snoc in S. split; [reflexivity|]. split; [exact S|].
  split; [exact I|]. split; [reflexivity|]. split; [|reflexivity].
  apply drag_idle. reflexivity.
Qed.

(** A press at (300, 200) at zoom 1.5 beside the book, the pointer moved
    to (280, 230) through two other points: scrolled from (100, 50) to
    (120, 20). *)
Lemma pan_follows_pointer_witness :
  Pan.scrollRef
    (Pan.drag (Math.max 0) (Math.max 0) ([(310, 190); (250, 260)] ++ [(280, 230)])
       (fst (Pan.onPointerDown 1.5 false 300 200
               (Pan.initial (Some {| Pan.scrollLeft := 100; Pan.scrollTop := 50 |})))))%float
  = Some {| Pan.scrollLeft := 120; Pan.scrollTop := 20 |}.
Proof.
  pose proof (pan_follows_pointer (Math.max 0) (Math.max 0) 1.5 false 300 200
                {| Pan.scrollLeft := 100; Pan.scrollTop := 50 |}
                (Pan.initial (Some {| Pan.scrollLeft := 100; Pan.scrollTop := 50 |}))
                [(310, 190); (250, 260)]%float [] (280, 230)%float
                eq_refl eq_refl eq_refl) as H.
  cbv zeta in H. destruct H as (_ & H & _). rewrite H. vm_compute. reflexivity.
Defined.

(** X23.  No press, no pan.  With no drag active, a press at zoom 1 or
    below, or on the flip-book without Space held, is not consumed (the
    flip-book gets it) and leaves the state as it is, and the moves that
    follow scroll nothing. *)
Theorem no_pan_without_press
    (settleLeft settleTop : float -> float) (viewZoom : float) (insideFlipbook : bool)
    (x0 y0 : float) (st : Pan.State) (path : list (float * float)) :
  Pan.active (Pan.dragScrollRef st) = false ->
  (viewZoom <=? 1)%float = true
  \/ (insideFlipbook = true /\ Pan.panBySpace st = false) ->
  Pan.onPointerDown viewZoom insideFlipbook x0 y0 st = (st, false)
  /\ Pan.drag settleLeft settleTop path
       (fst (Pan.onPointerDown viewZoom insideFlipbook x0 y0 st)) = st.
Proof.
  intros Ha H.
  assert (E : Pan.onPointerDown viewZoom insideFlipbook x0 y0 st = (st, false)).
  { unfold Pan.onPointerDown. destruct H as [-> | [-> ->]]; [reflexivity|].
    destruct (viewZoom <=? 1)%float; [reflexivity|].
    destruct (Pan.scrollRef st); reflexivity. }
  rewrite E. split; [reflexivity|]. apply drag_idle. exact Ha.
Qed.

(** A press on the book at zoom 1.5 without Space, followed by a move. *)
Lemma no_pan_without_press_witness :
  Pan.drag (Math.max 0) (Math.max 0) [(280, 230)%float]
    (fst (Pan.onPointerDown 1.5 true 300 200
            (Pan.initial (Some {| Pan.scrollLeft := 100; Pan.scrollTop := 50 |}))))
  = Pan.initial (Some {| Pan.scrollLeft := 100; Pan.scrollTop := 50 |}).
Proof.
  exact (proj2 (no_pan_without_press (Math.max 0) (Math.max 0) 1.5 true 300 200
                  (Pan.initial (Some {| Pan.scrollLeft := 100; Pan.scrollTop := 50 |}))
                  [(280, 230)%float] eq_refl (or_intror (conj eq_refl eq_refl)))).
Defined.

(** ** Loading the document *)

Section Loads.
Import Loader.

Lemma cancelled_lookup (s : State) (lid : nat) ld :
  loads s !! lid = Some ld ->
  (cancelled <$> loads s) !! lid = Some (cancelled ld).
Proof. intros H. rewrite list_lookup_fmap, H. reflexivity. Qed.

(** At most one load is not cancelled. *)
Lemma unique_live s (lid lid' : nat) ld ld' :
  Coherent s -> loads s !! lid = Some ld -> cancelled ld = false ->
  loads s !! lid' = Some ld' -> cancelled ld' = false -> lid' = lid.
Proof.
  intros (C1 & _) H E H' E'.
  apply cancelled_lookup in H, H'. rewrite E in H. rewrite E' in H'.
  apply C1 in H as [H _]. apply C1 in H' as [H' _]. congruence.
Qed.

Lemma last_url s (lid : nat) ld :
  Coherent s -> loads s !! lid = Some ld -> cancelled ld = false ->
  last (pdfUrl <$> loads s) = Some (pdfUrl ld).
Proof.
  intros (C1 & _) H E. pose proof (cancelled_lookup _ _ _ H) as Hc. rewrite E in Hc.
  apply C1 in Hc as [_ Hl]. rewrite last_lookup, length_fmap, <- Hl. cbn [pred].
  rewrite list_lookup_fmap, H. reflexivity.
Qed.

(** A load moves on: what is left to show of the state it leaves. *)
Lemma Coherent_moved s s' (lid : nat) ld pt :
  Coherent s -> loads s !! lid = Some ld ->
  loads s' = <[lid := moveTo pt ld]> (loads s) -> live s' = live s ->
  (forall d, doc (comp s') = Some d ->
     last (pdfUrl <$> loads s) = Some (source d) /\ numPages (comp s') = docNumPages d) ->
  (doc (comp s') = None ->
     numPages (comp s') = 0 /\ status (comp s') <> Scheduler.Ready) ->
  (forall loaded, cancelled ld = false -> pt = AwaitFirstPage loaded ->
     doc (comp s') = Some loaded) ->
  (cancelled ld = false \/ doc (comp s') = doc (comp s)) ->
  Coherent s'.
Proof.
  intros C H Hl Hv H3 H4 H5 H6.
  assert (Ec : cancelled <$> loads s' = cancelled <$> loads s).
  { rewrite Hl. apply (fmap_insert_same cancelled _ lid ld); [exact H | reflexivity]. }
  assert (Eu : pdfUrl <$> loads s' = pdfUrl <$> loads s).
  { rewrite Hl. apply (fmap_insert_same pdfUrl _ lid ld); [exact H | reflexivity]. }
  assert (El : length (loads s') = length (loads s)).
  { rewrite Hl. apply length_insert. }
  pose proof C as (C1 & C2 & C3 & C4 & C5).
  split; [|split; [|split; [|split]]].
  - intros lid0 L. rewrite Ec in L. rewrite Hv, El. apply C1, L.
  - intros lid0 L. rewrite Ec. rewrite Hv in L. apply C2, L.
  - intros d D. rewrite Eu. apply H3, D.
  - exact H4.
  - intros lid0 ld0 loaded L E P. rewrite Hl in L.
    destruct (decide (lid0 = lid)) as [->|Hne].
    + rewrite list_lookup_insert_eq in L by (eapply lookup_lt_Some; exact H).
      injection L as <-. cbn in E, P. eapply H5; [exact E | exact P].
    + rewrite list_lookup_insert_ne in L by congruence.
      destruct H6 as [E0 | D].
      * exfalso. apply Hne. eapply unique_live; eauto.
      * rewrite D. eapply C5; eauto.
Qed.

Lemma initial_coherent : Coherent initial.
Proof.
  unfold Coherent, initial. cbn. repeat split; intros; try discriminate.
Qed.

(** After the cleanup every load is cancelled. *)
Lemma cleanup_cancels s :
  Coherent s ->
  (forall lid, (cancelled <$> loads (cleanup s)) !! lid <> Some false)
  /\ pdfUrl <$> loads (cleanup s) = pdfUrl <$> loads s
  /\ comp (cleanup s) = comp s
  /\ live (cleanup s) = None
  /\ console (cleanup s) = console s.
Proof.
  intros (C1 & C2 & _). unfold cleanup. destruct (live s) as [l|] eqn:Lv; cbn.
  - repeat split; [|apply fmap_alter_same; reflexivity].
    intros lid L. rewrite list_lookup_fmap in L.
    destruct (decide (lid = l)) as [->|Hne].
    + rewrite list_lookup_alter_eq in L. destruct (loads s !! l); discriminate L.
    + rewrite list_lookup_alter_ne in L by congruence.
      rewrite <- list_lookup_fmap in L. apply C1 in L as [L _]. congruence.
  - rewrite Lv. repeat split. intros lid L. apply C1 in L as [L _]. congruence.
Qed.

Lemma cleanup_coherent s : Coherent s -> Coherent (cleanup s).
Proof.
  intros C. destruct (cleanup_cancels s C) as (K1 & K2 & K3 & K4 & _).
  pose proof C as (C1 & C2 & C3 & C4 & C5).
  split; [|split; [|split; [|split]]].
  - intros lid L. exfalso. exact (K1 lid L).
  - intros lid L. rewrite K4 in L. discriminate L.
  - rewrite K2, K3. exact C3.
  - rewrite K3. exact C4.
  - intros lid ld loaded L E P. exfalso. apply (K1 lid).
    rewrite (cancelled_lookup _ _ _ L), E. reflexivity.
Qed.

Lemma start_coherent url s : Coherent s -> Coherent (start url s).
Proof.
  intros C. destruct (cleanup_cancels s C) as (K1 & K2 & K3 & K4 & _).
  unfold start. cbn. set (ls := loads (cleanup s)) in *.
  split; [|split; [|split; [|split]]]; cbn.
  - intros lid L. rewrite fmap_app in L. cbn in L.
    destruct (decide (lid < length ls)%nat) as [Hlt|Hge].
    + rewrite lookup_app_l in L by (rewrite length_fmap; exact Hlt).
      exfalso. exact (K1 lid L).
    + destruct (decide (lid = length ls)) as [->|Hne].
      * rewrite length_app. cbn. split; [reflexivity | lia].
      * rewrite lookup_app_r in L by (rewrite length_fmap; lia).
        rewrite length_fmap in L.
        destruct (lid - length ls)%nat as [|k] eqn:Ek; [lia|]. discriminate L.
  - intros lid [= <-]. rewrite fmap_app. cbn.
    rewrite lookup_app_r by (rewrite length_fmap; lia).
    rewrite length_fmap, Nat.sub_diag. reflexivity.
  - intros d D. discriminate D.
  - intros _. split; [reflexivity | discriminate].
  - intros lid ld loaded L E P. exfalso.
    destruct (decide (lid < length ls)%nat) as [Hlt|Hge].
    + rewrite lookup_app_l in L by exact Hlt. apply (K1 lid).
      rewrite list_lookup_fmap, L. cbn. rewrite E. reflexivity.
    + rewrite lookup_app_r in L by lia.
      destruct (lid - length ls)%nat as [|k]; [|discriminate L].
      injection L as <-. discriminate P.
Qed.

Lemma caught_coherent s (lid : nat) ld e :
  Coherent s -> loads s !! lid = Some ld -> Coherent (caught lid ld e s).
Proof.
  intros C H. pose proof C as (C1 & C2 & C3 & C4 & C5). unfold caught.
  destruct (cancelled ld) eqn:E;
    apply (Coherent_moved s _ lid ld Finished C H);
    [reflexivity | reflexivity | exact C3 | exact C4
    | intros loaded _ P; discriminate P | right; reflexivity
    | reflexivity | reflexivity | exact C3
    | intros D; split; [apply C4, D | discriminate]
    | intros loaded _ P; discriminate P | right; reflexivity].
Qed.

Lemma step_coherent s e s' : Coherent s -> step s e = Some s' -> Coherent s'.
Proof.
  intros C. pose proof C as (C1 & C2 & C3 & C4 & C5).
  destruct e as [url| |lid r|lid r|lid r]; cbn [step].
  - intros [= <-]. apply start_coherent, C.
  - intros [= <-]. apply cleanup_coherent, C.
  - unfold imported. destruct (loads s !! lid) as [ld|] eqn:L; [|discriminate]. cbn.
    destruct (point ld) eqn:P; try discriminate.
    destruct r as [x|[]]; intros [= <-]; [apply caught_coherent; assumption|].
    apply (Coherent_moved s _ lid ld AwaitDocument C L);
      [reflexivity | reflexivity | exact C3 | exact C4
      | intros loaded _ Q; discriminate Q | right; reflexivity].
  - unfold documentLoaded. destruct (loads s !! lid) as [ld|] eqn:L; [|discriminate]. cbn.
    destruct (point ld) eqn:P; try discriminate.
    destruct r as [x|n]; [intros [= <-]; apply caught_coherent; assumption|].
    destruct (cancelled ld) eqn:E; intros [= <-].
    + apply (Coherent_moved s _ lid ld Finished C L);
        [reflexivity | reflexivity | exact C3 | exact C4
        | intros loaded _ Q; discriminate Q | right; reflexivity].
    + apply (Coherent_moved s _ lid ld
               (AwaitFirstPage {| source := pdfUrl ld; docNumPages := n |}) C L);
        [reflexivity | reflexivity | | | | left; exact E].
      * intros d [= <-]. cbn. split; [|reflexivity]. eapply last_url; eauto.
      * intros D. discriminate D.
      * intros loaded _ [= <-]. reflexivity.
  - unfold firstPage. destruct (loads s !! lid) as [ld|] eqn:L; [|discriminate]. cbn.
    destruct (point ld) eqn:P; try discriminate.
    destruct r as [x|vp]; [intros [= <-]; apply caught_coherent; assumption|].
    destruct (cancelled ld) eqn:E; intros [= <-].
    + apply (Coherent_moved s _ lid ld Finished C L);
        [reflexivity | reflexivity | exact C3 | exact C4
        | intros l0 _ Q; discriminate Q | right; reflexivity].
    + apply (Coherent_moved s _ lid ld Finished C L);
        [reflexivity | reflexivity | exact C3 | | | right; reflexivity].
      * intros D. cbn in D. rewrite (C5 lid ld loaded L E P) in D. discriminate D.
      * intros l0 _ Q. discriminate Q.
Qed.

Lemma run_coherent es : forall s s', Coherent s -> run s es = Some s' -> Coherent s'.
Proof.
  induction es as [|e es IH]; intros s s' C; cbn [run].
  - intros [= <-]. exact C.
  - destruct (step s e) as [s1|] eqn:E; [|discriminate]. cbn.
    apply IH. eapply step_coherent; eauto.
Qed.



(** The load whose cleanup is due is not cancelled. *)
Lemma live_load s (lid : nat) :
  Coherent s -> live s = Some lid ->
  exists ld, loads s !! lid = Some ld /\ cancelled ld = false.
Proof.
  intros (_ & C2 & _) L. apply C2 in L. rewrite list_lookup_fmap in L.
  destruct (loads s !! lid) as [ld|]; [|discriminate L].
  exists ld. split; [reflexivity|]. cbn in L. congruence.
Qed.

(** A load whose cleanup is not due is cancelled. *)
Lemma stale_load s (lid : nat) ld :
  Coherent s -> live s <> Some lid -> loads s !! lid = Some ld -> cancelled ld = true.
Proof.
  intros (C1 & _) N L. destruct (cancelled ld) eqn:E; [reflexivity|].
  exfalso. apply N. apply cancelled_lookup in L. rewrite E in L. apply C1, L.
Qed.

End Loads.

(** X24.  A superseded load writes nothing.  After any run of the reader,
    an event that resumes a load other than the one whose cleanup is due (a
    load for an earlier url, or of an unmounted reader), be it success or
    failure, leaves the component state and the console as they are.  The
    import of such a load still sets the worker and requests its url. *)
Theorem stale_load_is_inert
    (es : list Loader.Event) (s s' : Loader.State) (e : Loader.Event) (lid : nat) :
  Loader.run Loader.initial es = Some s ->
  Loader.target e = Some lid ->
  Loader.live s <> Some lid ->
  Loader.step s e = Some s' ->
  Loader.comp s' = Loader.comp s
  /\ Loader.console s' = Loader.console s
  /\ Loader.live s' = Loader.live s
  /\ (e = Loader.Imported lid (inr tt) ->
      exists url, (Loader.pdfUrl <$> Loader.loads s) !! lid = Some url
                  /\ Loader.requested s' = Loader.requested s ++ [url]).
Proof.
  intros R T N St.
  pose proof (run_coherent es _ _ initial_coherent R) as C.
  pose proof (stale_load s lid) as K.
  destruct e as [url| |l r|l r|l r]; cbn in T; try discriminate T;
    injection T as ->; cbn [Loader.step] in St.
  - unfold Loader.imported in St.
    destruct (Loader.loads s !! lid) as [ld|] eqn:L; [|discriminate]. cbn in St.
    pose proof (K ld C N eq_refl) as Hc.
    destruct (Loader.point ld); try discriminate.
    destruct r as [x|[]]; injection St as <-.
    + unfold Loader.caught. rewrite Hc. cbn.
      repeat split. intros Q. discriminate Q.
    + cbn. repeat split. intros _. exists (Loader.pdfUrl ld).
      rewrite list_lookup_fmap, L. split; reflexivity.
  - unfold Loader.documentLoaded in St.
    destruct (Loader.loads s !! lid) as [ld|] eqn:L; [|discriminate]. cbn in St.
    pose proof (K ld C N eq_refl) as Hc.
    destruct (Loader.point ld); try discriminate.
    unfold Loader.caught in St. rewrite Hc in St.
    destruct r as [x|n]; injection St as <-; cbn; repeat split; intros Q; discriminate Q.
  - unfold Loader.firstPage in St.
    destruct (Loader.loads s !! lid) as [ld|] eqn:L; [|discriminate]. cbn in St.
    pose proof (K ld C N eq_refl) as Hc.
    destruct (Loader.point ld); try discriminate.
    unfold Loader.caught in St. rewrite Hc in St.
    destruct r as [x|n]; injection St as <-; cbn; repeat split; intros Q; discriminate Q.
Qed.

(** The document of a.pdf arrives after the reader has moved on to b.pdf. *)
Lemma stale_load_is_inert_witness :
  (s ← Loader.run Loader.initial
         [Loader.Start "a.pdf"; Loader.Imported 0 (inr tt); Loader.Start "b.pdf"];
   s' ← Loader.step s (Loader.DocumentLoaded 0 (inr 12));
   Some (Loader.doc (Loader.comp s'), Loader.numPages (Loader.comp s')))
  = Some (None, 0).
Proof.
  pose (es := [Loader.Start "a.pdf"; Loader.Imported 0 (inr tt); Loader.Start "b.pdf"]).
  pose (s := default Loader.initial (Loader.run Loader.initial es)).
  pose (s' := default Loader.initial (Loader.step s (Loader.DocumentLoaded 0 (inr 12)))).
  assert (R : Loader.run Loader.initial es = Some s) by (vm_compute; reflexivity).
  assert (St : Loader.step s (Loader.DocumentLoaded 0 (inr 12)) = Some s')
    by (vm_compute; reflexivity).
  assert (N : Loader.live s <> Some 0%nat) by (vm_compute; discriminate).
  destruct (stale_load_is_inert es s s' (Loader.DocumentLoaded 0 (inr 12)) 0%nat
              R eq_refl N St) as (H & _).
  fold es. rewrite R. cbn [mbind option_bind]. rewrite St. cbn [mbind option_bind].
  rewrite H. vm_compute. reflexivity.
Defined.



(** X26.  A failure of the current load is reported.  After any run of the
    reader, when the import, the document or the first page of the load
    whose cleanup is due fails with [x], the status is the error with the
    message of [x] (the fixed message when [x] is no Error), [x] is logged,
    the document and the page count stay as they were, and nothing resumes
    that load again. *)
Theorem live_failure_is_reported
    (es : list Loader.Event) (s s' : Loader.State) (e : Loader.Event) (lid : nat)
    (x : Loader.Thrown) :
  Loader.run Loader.initial es = Some s ->
  Loader.live s = Some lid ->
  fails lid x e ->
  Loader.step s e = Some s' ->
  Loader.status (Loader.comp s') = Scheduler.Error (Loader.messageOf x)
  /\ Loader.console s' = Loader.console s ++ [x]
  /\ Loader.doc (Loader.comp s') = Loader.doc (Loader.comp s)
  /\ Loader.numPages (Loader.comp s') = Loader.numPages (Loader.comp s)
  /\ forall e', Loader.target e' = Some lid -> Loader.step s' e' = None.
Proof.
  intros R Lv F St.
  pose proof (run_coherent es _ _ initial_coherent R) as C.
  destruct (live_load s lid C Lv) as (ld & L & E).
  assert (S' : s' = Loader.caught lid ld x s).
  { destruct F as [-> | [-> | ->]]; cbn [Loader.step] in St;
      [unfold Loader.imported in St | unfold Loader.documentLoaded in St
      | unfold Loader.firstPage in St];
      rewrite L in St; cbn in St; destruct (Loader.point ld); try discriminate St;
      injection St as <-; reflexivity. }
  subst s'. unfold Loader.caught. rewrite E. cbn.
  repeat split.
  assert (L' : <[lid := Loader.moveTo Loader.Finished ld]> (Loader.loads s) !! lid
               = Some (Loader.moveTo Loader.Finished ld)).
  { apply list_lookup_insert_eq. eapply lookup_lt_Some. exact L. }
  intros e' T. destruct e' as [url| |l r|l r|l r]; cbn in T; try discriminate T;
    injection T as ->; cbn [Loader.step];
    [unfold Loader.imported | unfold Loader.documentLoaded | unfold Loader.firstPage];
    cbn; rewrite L'; reflexivity.
Qed.

(** The server has no a.pdf: the rejection of [task.promise] carries an
    Error. *)
Lemma live_failure_is_reported_witness :
  (s ← Loader.run Loader.initial
         [Loader.Start "a.pdf"; Loader.Imported 0 (inr tt);
          Loader.DocumentLoaded 0 (inl (Loader.ErrorObject "Missing PDF"))];
   Some (Loader.status (Loader.comp s)))
  = Some (Scheduler.Error "Missing PDF").
Proof.
  pose (es := [Loader.Start "a.pdf"; Loader.Imported 0 (inr tt)]).
  pose (e := Loader.DocumentLoaded 0 (inl (Loader.ErrorObject "Missing PDF"))).
  pose (s := default Loader.initial (Loader.run Loader.initial es)).
  pose (s' := default Loader.initial (Loader.step s e)).
  assert (R : Loader.run Loader.initial es = Some s) by (vm_compute; reflexivity).
  assert (St : Loader.step s e = Some s') by (vm_compute; reflexivity).
  destruct (live_failure_is_reported es s s' e 0%nat (Loader.ErrorObject "Missing PDF")
              R eq_refl (or_intror (or_introl eq_refl)) St) as (H & _).
  change (Loader.run Loader.initial (es ++ [e]) ≫= (fun s => Some (Loader.status (Loader.comp s)))
          = Some (Scheduler.Error "Missing PDF")).
  assert (R2 : Loader.run Loader.initial (es ++ [e]) = Some s') by (vm_compute; reflexivity).
  rewrite R2. cbn [mbind option_bind]. rewrite H. reflexivity.
Defined.

(** X27.  A first page without a usable ratio leaves the reader ready and
    empty.  After any run of the reader, when the first page of the current
    load arrives with a width that is not positive, or with a ratio
    height / width that is 0 or NaN, the status is ready, yet
    [targetPageSize] is null in every container at every zoom, on the
    desktop and on the mobile reader. *)
Theorem first_page_without_ratio
    (es : list Loader.Event) (s s' : Loader.State) (lid : nat) (vp : Size) :
  Loader.run Loader.initial es = Some s ->
  Loader.live s = Some lid ->
  Loader.step s (Loader.FirstPage lid (inr vp)) = Some s' ->
  (0 <? w vp)%float = false \/ Num.falsy (h vp / w vp)%float = true ->
  Loader.status (Loader.comp s') = Scheduler.Ready
  /\ forall containerWidth containerHeight viewZoom,
       Viewport.Desktop.targetPageSize containerWidth containerHeight
         (Loader.pageRatio (Loader.comp s')) viewZoom = None
       /\ Viewport.Mobile.targetPageSize containerWidth containerHeight
            (Loader.pageRatio (Loader.comp s')) viewZoom = None.
Proof.
  intros R Lv St Hv.
  pose proof (run_coherent es _ _ initial_coherent R) as C.
  destruct (live_load s lid C Lv) as (ld & L & E).
  cbn [Loader.step] in St. unfold Loader.firstPage in St. rewrite L in St. cbn in St.
  destruct (Loader.point ld); try discriminate St. rewrite E in St.
  injection St as <-. cbn. split; [reflexivity|].
  intros cw ch z. unfold Viewport.Desktop.targetPageSize, Viewport.Mobile.targetPageSize,
    Viewport.pageBox.
  destruct (0 <? w vp)%float; [|split; reflexivity].
  destruct Hv as [Hv | Hv]; [discriminate Hv|]. rewrite Hv. split; reflexivity.
Qed.

(** A first page 0 wide and 842 high. *)
Lemma first_page_without_ratio_witness :
  (s ← Loader.run Loader.initial
         [Loader.Start "a.pdf"; Loader.Imported 0 (inr tt);
          Loader.DocumentLoaded 0 (inr 12); Loader.FirstPage 0 (inr (mkSize 0 842))];
   Some (Loader.status (Loader.comp s),
         Viewport.Mobile.targetPageSize 416 1076 (Loader.pageRatio (Loader.comp s)) 1))
  = Some (Scheduler.Ready, None).
Proof.
  pose (es := [Loader.Start "a.pdf"; Loader.Imported 0 (inr tt);
               Loader.DocumentLoaded 0 (inr 12)]).
  pose (e := Loader.FirstPage 0 (inr (mkSize 0 842))).
  pose (s := default Loader.initial (Loader.run Loader.initial es)).
  pose (s' := default Loader.initial (Loader.step s e)).
  assert (R : Loader.run Loader.initial es = Some s) by (vm_compute; reflexivity).
  assert (St : Loader.step s e = Some s') by (vm_compute; reflexivity).
  destruct (first_page_without_ratio es s s' 0%nat (mkSize 0 842)
              R eq_refl St (or_introl eq_refl)) as (H1 & H2).
  assert (R2 : Loader.run Loader.initial (es ++ [e]) = Some s') by (vm_compute; reflexivity).
  change (Loader.run Loader.initial (es ++ [e])
            ≫= (fun s => Some (Loader.status (Loader.comp s),
                                Viewport.Mobile.targetPageSize 416 1076
                                  (Loader.pageRatio (Loader.comp s)) 1))
          = Some (Scheduler.Ready, None)).
  rewrite R2. cbn [mbind option_bind]. rewrite H1, (proj2 (H2 416 1076 1))%float.
  reflexivity.
Defined.

(** X28.  A load nothing disturbs ends ready.  From any state, the effect
    run for [url] followed by the import, the document with [n] pages and
    the first page with viewport [vp], each fulfilled: the status is ready,
    the document of [url] is held with [numPages = n], the page index is 0,
    the page size is reset, the ratio is height / width when the width is
    positive, [url] was requested once more and nothing was logged. *)
Theorem undisturbed_load_is_ready (s : Loader.State) (url : string) (n : Z) (vp : Size) :
  exists s',
    Loader.run s [Loader.Start url; Loader.Imported (length (Loader.loads s)) (inr tt);
                  Loader.DocumentLoaded (length (Loader.loads s)) (inr n);
                  Loader.FirstPage (length (Loader.loads s)) (inr vp)]
    = Some s'
    /\ Loader.comp s'
       = {| Loader.status := Scheduler.Ready;
            Loader.doc := Some {| Loader.source := url; Loader.docNumPages := n |};
            Loader.numPages := n; Loader.pageIndex := 0; Loader.pageSize := None;
            Loader.pageRatio := if (0 <? w vp)%float then Some (h vp / w vp)%float
                                else None |}
    /\ Loader.requested s' = Loader.requested s ++ [url]
    /\ Loader.console s' = Loader.console s
    /\ Loader.live s' = Some (length (Loader.loads s)).
Proof.
  assert (Hl : length (Loader.loads (Loader.cleanup s)) = length (Loader.loads s)).
  { unfold Loader.cleanup. destruct (Loader.live s); [|reflexivity]. cbn.
    apply length_alter. }
  assert (Hr : Loader.requested (Loader.cleanup s) = Loader.requested s
               /\ Loader.console (Loader.cleanup s) = Loader.console s).
  { unfold Loader.cleanup. destruct (Loader.live s); split; reflexivity. }
  destruct Hr as [Hr Hc].
  cbn [Loader.run Loader.step mbind option_bind]. unfold Loader.start.
  set (s1 := Loader.cleanup s) in *. clearbody s1.
  set (lid := length (Loader.loads s)) in *. clearbody lid.
  assert (M : forall ld ld', <[lid := ld']> (Loader.loads s1 ++ [ld])
                             = Loader.loads s1 ++ [ld']).
  { intros ld ld'. rewrite <- Hl.
    rewrite (insert_app_r_alt (Loader.loads s1) [ld] (length (Loader.loads s1))) by lia.
    rewrite Nat.sub_diag. reflexivity. }
  assert (M0 : forall ld, (Loader.loads s1 ++ [ld]) !! lid = Some ld).
  { intros ld. apply list_lookup_middle. symmetry. exact Hl. }
  unfold Loader.imported. cbn -[lookup insert]. rewrite M0. cbn -[lookup insert].
  unfold Loader.at_ at 1, Loader.setLoads at 1. cbn -[lookup insert]. rewrite M.
  unfold Loader.documentLoaded. cbn -[lookup insert]. rewrite M0. cbn -[lookup insert].
  unfold Loader.at_ at 1, Loader.setLoads at 1. cbn -[lookup insert]. rewrite M.
  unfold Loader.firstPage. cbn -[lookup insert]. rewrite M0. cbn -[lookup insert].
  unfold Loader.at_ at 1, Loader.setLoads at 1. cbn -[lookup insert]. rewrite M.
  eexists. split; [reflexivity|]. cbn. rewrite Hr, Hc, Hl. repeat split.
Qed.
